(** * Kanban board drag-and-drop synchronisation (static/js/kanban-board.js)

    A shallow embedding of the board script and of the parts of the
    browser it talks to.

    - JavaScript values: what [response.json()] can produce, with
      ToBoolean, ToString, [||], property reads and
      [String.prototype.replace].  The wording of the errors the engine
      raises itself is the engine's: the page carries it.
    - The DOM: a tree of elements with handles, the two selector forms of
      the script, [getElementById], [children], [insertBefore],
      [appendChild] and the [textContent] setter.
    - The page: the tree, the class list of [body], the script's three
      variables [draggedElement], [originalColumn], [originalIndex], the
      [Sortable] instances created, the [fetch] calls made and the toasts
      shown.
    - The script: each function is a computation on the page that returns,
      throws, or stops where the model does not follow the browser: on a
      handle that names no element of the document (the tree holds
      attached elements only), on a column id that the quotes of the
      selector template do not hold, on a number whose digits are the
      engine's to choose, on a notification whose message has markup.
      [onEnd] is split at its [await]s into [onEnd_request] and
      [onEnd_settle].

    The properties follow the definitions. *)

From Stdlib Require Import List String Ascii ZArith Lia Bool Arith PeanoNat.
From Stdlib Require Import Permutation DecimalString.
Import ListNotations.
Open Scope string_scope.

Set Warnings "-register-all".

(** ** JavaScript values *)

(** What [JSON.parse] can return.  Numbers are the integral ones (the
    counts of the move endpoint; fractions are not in the model); an
    object is the list of its own properties, one entry per key. *)
Inductive json : Type :=
| JNull
| JBool (b : bool)
| JNum (z : Z)
| JStr (s : string)
| JArr (items : list json)
| JObj (fields : list (string * json)).

(** A JavaScript value as the script sees it: [None] is [undefined]. *)
Definition value := option json.

Definition undefined : value := None.

(** ToBoolean. *)
Definition truthy (v : value) : bool :=
  match v with
  | None => false
  | Some JNull => false
  | Some (JBool b) => b
  | Some (JNum z) => negb (z =? 0)%Z
  | Some (JStr s) => negb (s =? "")
  | Some (JArr _) => true
  | Some (JObj _) => true
  end.

Definition string_of_Z (z : Z) : string := NilZero.string_of_int (Z.to_int z).

Definition string_of_nat (n : nat) : string := string_of_Z (Z.of_nat n).

Fixpoint join (sep : string) (parts : list string) : string :=
  match parts with
  | [] => ""
  | [p] => p
  | p :: rest => p ++ sep ++ join sep rest
  end.

(** What ToString makes of a value: a string, a [TypeError], or nothing
    the model says. *)
Inductive conversion : Type :=
| Converted (s : string)
| NotPrimitive
| Unprinted.

(** The integers every one of which a double holds, and prints digit by
    digit. *)
Definition max_safe_integer : Z := 9007199254740991.

Definition safe_integer (z : Z) : bool := (Z.abs z <=? max_safe_integer)%Z.

(** The strings of the elements of an array, up to the first that is not
    a string. *)
Fixpoint gather (parts : list conversion) (k : list string -> conversion) : conversion :=
  match parts with
  | [] => k []
  | Converted s :: rest => gather rest (fun l => k (s :: l))
  | NotPrimitive :: _ => NotPrimitive
  | Unprinted :: _ => Unprinted
  end.

Definition has_key (k : string) (fields : list (string * json)) : bool :=
  existsb (fun f => fst f =? k) fields.

(** ToString on a parsed value.  An array prints its elements in turn,
    separated by commas, with [null] elements printed as the empty string.
    An object without a key [toString] of its own prints as
    [[object Object]]; with one, neither that property (no parsed value is
    a function) nor [valueOf] gives a primitive, and ToString throws a
    [TypeError].  A number within the safe integers prints its digits;
    beyond them the model does not print it. *)
Fixpoint json_to_string (j : json) : conversion :=
  match j with
  | JNull => Converted "null"
  | JBool true => Converted "true"
  | JBool false => Converted "false"
  | JNum z => if safe_integer z then Converted (string_of_Z z) else Unprinted
  | JStr s => Converted s
  | JArr items =>
      gather (map (fun i => match i with
                            | JNull => Converted ""
                            | _ => json_to_string i
                            end) items)
             (fun l => Converted (join "," l))
  | JObj fields =>
      if has_key "toString" fields then NotPrimitive else Converted "[object Object]"
  end.

Definition to_string (v : value) : conversion :=
  match v with
  | None => Converted "undefined"
  | Some j => json_to_string j
  end.

(** [a || b]. *)
Definition js_or (a b : value) : value := if truthy a then a else b.

(** Thrown values: every value the script can catch is an object with a
    [message] (an [Error], a [TypeError] of the engine, a [DOMException]). *)
Record exn : Type := mkExn { exn_name : string; message : string }.

Definition Error (msg : string) : exn := mkExn "Error" msg.

Definition TypeError (msg : string) : exn := mkExn "TypeError" msg.

(** The errors the engine raises itself while the script runs: a property
    read on [null], and a value that ToPrimitive cannot turn into a
    primitive.  The specification of the language leaves their messages to
    the engine. *)
Inductive engine_error : Type :=
| ReadOfNull (prop : string)
| ToPrimitive.

(** One engine's wording, for the boards below. *)
Definition V8 (e : engine_error) : string :=
  match e with
  | ReadOfNull prop => "Cannot read properties of null (reading '" ++ prop ++ "')"
  | ToPrimitive => "Cannot convert object to primitive value"
  end.

Fixpoint assoc {A : Type} (k : string) (l : list (string * A)) : option A :=
  match l with
  | [] => None
  | (k', v) :: rest => if k' =? k then Some v else assoc k rest
  end.

(** [data.prop] on a parsed value: a [TypeError] on [null], the property on
    an object, [undefined] on anything else (none of the properties the
    script reads exists on a primitive or on an array). *)
Definition get_prop (data : json) (prop : string) : engine_error + value :=
  match data with
  | JNull => inl (ReadOfNull prop)
  | JObj fields => inr (assoc prop fields)
  | _ => inr undefined
  end.

(** ** String.prototype.replace with a string pattern *)

Fixpoint drop (n : nat) (s : string) : string :=
  match n, s with
  | O, _ => s
  | S n', String _ s' => drop n' s'
  | S _, EmptyString => EmptyString
  end.

(** The text before and after the first occurrence of [pat] in [s]. *)
Fixpoint split_first (pat s : string) : option (string * string) :=
  if prefix pat s then Some ("", drop (String.length pat) s)
  else match s with
       | EmptyString => None
       | String c s' =>
           match split_first pat s' with
           | Some (before, after) => Some (String c before, after)
           | None => None
           end
       end.

(** GetSubstitution for a match without capture groups: [$$], [$&],
    [$`] and [$'] are expanded, any other [$] is literal. *)
Fixpoint GetSubstitution (matched before after replacement : string) : string :=
  match replacement with
  | EmptyString => EmptyString
  | String c rest =>
      if (c =? "$")%char then
        match rest with
        | String d rest' =>
            if (d =? "$")%char then String "$" (GetSubstitution matched before after rest')
            else if (d =? "&")%char then matched ++ GetSubstitution matched before after rest'
            else if (d =? "`")%char then before ++ GetSubstitution matched before after rest'
            else if (d =? "'")%char then after ++ GetSubstitution matched before after rest'
            else String c (GetSubstitution matched before after rest)
        | EmptyString => String c EmptyString
        end
      else String c (GetSubstitution matched before after rest)
  end.

(** [s.replace(pat, replacement)]: the first occurrence only. *)
Definition replace (s pat replacement : string) : string :=
  match split_first pat s with
  | Some (before, after) =>
      before ++ GetSubstitution pat before after replacement ++ after
  | None => s
  end.

(** ** The DOM *)

(** An element: its identity, its attributes, its text and its element
    children.  The text nodes directly in the element are gathered in
    [text]; the script reads element children only, and writes text only
    through the [textContent] setter, which leaves one text and no child.
    For a childless element [text] is what [textContent] reads. *)
Inductive node : Type :=
  Element (uid : nat) (attributes : list (string * string))
          (text : string) (children : list node).

Definition uid (n : node) : nat :=
  match n with Element u _ _ _ => u end.

Definition attributes (n : node) : list (string * string) :=
  match n with Element _ a _ _ => a end.

Definition text (n : node) : string :=
  match n with Element _ _ t _ => t end.

Definition children (n : node) : list node :=
  match n with Element _ _ _ ks => ks end.

Definition getAttribute (name : string) (n : node) : option string :=
  assoc name (attributes n).

(** Elements below [n] in tree order. *)
Fixpoint descendants (n : node) : list node :=
  match n with
  | Element _ _ _ ks => flat_map (fun k => k :: descendants k) ks
  end.

(** [n] and the elements below it in tree order. *)
Definition nodes (n : node) : list node := n :: descendants n.

Definition ids (n : node) : list nat := map uid (nodes n).

(** The two selector forms of the script: [[name]] and [[name="v"]]. *)
Inductive selector : Type :=
| HasAttr (name : string)
| AttrEq (name v : string).

Definition matches (sel : selector) (n : node) : bool :=
  match sel with
  | HasAttr name =>
      match getAttribute name n with Some _ => true | None => false end
  | AttrEq name v =>
      match getAttribute name n with Some v' => v' =? v | None => false end
  end.

(** [element.querySelectorAll(sel)]. *)
Definition querySelectorAll (sel : selector) (root : node) : list node :=
  filter (matches sel) (descendants root).

(** [document.querySelector(sel)]. *)
Definition querySelector (sel : selector) (document : node) : option node :=
  find (matches sel) (nodes document).

(** [document.getElementById(id)]; the empty string names no element. *)
Definition getElementById (id : string) (document : node) : option node :=
  if id =? "" then None
  else find (fun n => match getAttribute "id" n with
                      | Some v => v =? id
                      | None => false
                      end) (nodes document).

(** The element a handle stands for, when it is in the document. *)
Definition get_node (u : nat) (document : node) : option node :=
  find (fun n => Nat.eqb (uid n) u) (nodes document).

(** *** Mutation *)

(** The tree without the element [u] (and what is below it). *)
Fixpoint detach (u : nat) (n : node) : node :=
  match n with
  | Element i a t ks =>
      Element i a t
        (flat_map (fun k => if Nat.eqb (uid k) u then [] else [detach u k]) ks)
  end.

Definition is_child (ref : option nat) (k : node) : bool :=
  match ref with
  | Some r => Nat.eqb (uid k) r
  | None => false
  end.

(** [ks] with [x] placed before the child [ref]; at the end when [ref] is
    [None]. *)
Fixpoint insert_before (ref : option nat) (x : node) (ks : list node) : list node :=
  match ks with
  | [] => [x]
  | k :: rest =>
      if is_child ref k then x :: k :: rest
      else k :: insert_before ref x rest
  end.

(** The tree with [x] inserted among the children of [parent]. *)
Fixpoint attach (parent : nat) (ref : option nat) (x : node) (n : node) : node :=
  match n with
  | Element i a t ks =>
      if Nat.eqb i parent then Element i a t (insert_before ref x ks)
      else Element i a t (map (attach parent ref x) ks)
  end.

(** The [textContent] setter: the element keeps one text and no child. *)
Fixpoint set_textContent (u : nat) (s : string) (n : node) : node :=
  match n with
  | Element i a t ks =>
      if Nat.eqb i u then Element i a s []
      else Element i a t (map (set_textContent u s) ks)
  end.

Fixpoint next_sibling (u : nat) (ks : list node) : option nat :=
  match ks with
  | [] => None
  | k :: rest =>
      if Nat.eqb (uid k) u then option_map uid (hd_error rest)
      else next_sibling u rest
  end.

Definition HierarchyRequestError : exn :=
  mkExn "HierarchyRequestError" "The new child element contains the parent.".

Definition NotFoundError : exn :=
  mkExn "NotFoundError"
        "The node before which the new node is to be inserted is not a child of this node.".

(** What a DOM call does to the tree: a new tree, a [DOMException], or
    nothing the model can say because a handle names no element of the
    document. *)
Inductive dom_result : Type :=
| Mutated (document : node)
| Raised (e : exn)
| Unattached.

(** [parent.insertBefore(x, child)]: the validity checks of the DOM's
    pre-insert steps, then the move of [x] (an element has one parent, so
    it leaves its old place). *)
Definition insertBefore (parent x : nat) (child : option nat) (document : node)
  : dom_result :=
  match get_node parent document, get_node x document with
  | Some p, Some xn =>
      if existsb (Nat.eqb parent) (ids xn) then Raised HierarchyRequestError
      else if match child with
              | Some c => negb (existsb (Nat.eqb c) (map uid (children p)))
              | None => false
              end
      then Raised NotFoundError
      else
        let reference :=
          match child with
          | Some c => if Nat.eqb c x then next_sibling x (children p) else Some c
          | None => None
          end in
        Mutated (attach parent reference xn (detach x document))
  | _, _ => Unattached
  end.

(** [parent.appendChild(x)]. *)
Definition appendChild (parent x : nat) (document : node) : dom_result :=
  insertBefore parent x None document.

(** ** The page *)

(** A [Sortable] instance: the column it is bound to, its group, and the
    two values its handlers close over.  The other options of the script
    (animation, classes, fallback, threshold) are presentation. *)
Record sortable : Type := mkSortable {
  el : nat;
  group : string;
  csrfToken : string;
  moveEndpoint : string
}.

(** A call of [fetch]. *)
Record request : Type := mkRequest {
  url : string;
  method : string;
  headers : list (string * string);
  body : string
}.

(** A toast: the message put between the [span] tags of its markup, and
    the class of its alert box.  The message is markup itself once it is
    assigned to [innerHTML]; the model keeps the toasts whose message has
    no [<], which add no element a selector of the script could find. *)
Record toast : Type := mkToast { toast_message : string; alert_class : string }.

(** The state the script runs in.  [draggedElement], [originalColumn] and
    [originalIndex] are the script's three variables ([None] is [null]);
    the toasts are kept apart from the tree; [engine_message] is the
    wording the engine gives the errors it raises. *)
Record page : Type := mkPage {
  dom : node;
  body_classList : list string;
  draggedElement : option nat;
  originalColumn : option nat;
  originalIndex : option nat;
  sortables : list sortable;
  requests : list request;
  toasts : list toast;
  engine_message : engine_error -> string
}.

Definition with_dom (d : node) (p : page) : page :=
  mkPage d (body_classList p) (draggedElement p) (originalColumn p)
         (originalIndex p) (sortables p) (requests p) (toasts p) (engine_message p).

(** *** Computations: state, exceptions, and the edge of the model *)

(** A computation returns, throws, or reaches a point where the model does
    not say what the browser does. *)
Inductive outcome (A : Type) : Type :=
| Returned (a : A) (p : page)
| Thrown (e : exn) (p : page)
| Unmodelled.

Arguments Returned {A} a p.
Arguments Thrown {A} e p.
Arguments Unmodelled {A}.

Definition M (A : Type) : Type := page -> outcome A.

Definition ret {A : Type} (a : A) : M A := fun p => Returned a p.

Definition bind {A B : Type} (m : M A) (k : A -> M B) : M B :=
  fun p =>
    match m p with
    | Returned a p' => k a p'
    | Thrown e p' => Thrown e p'
    | Unmodelled => Unmodelled
    end.

Definition throw {A : Type} (e : exn) : M A := fun p => Thrown e p.

(** [try { body } catch (error) { handler }]. *)
Definition try_catch {A : Type} (body : M A) (handler : exn -> M A) : M A :=
  fun p =>
    match body p with
    | Returned a p' => Returned a p'
    | Thrown e p' => handler e p'
    | Unmodelled => Unmodelled
    end.

Notation "x <- m ;; k" := (bind m (fun x => k))
  (at level 61, m at next level, right associativity).
Notation "m ;; k" := (bind m (fun _ => k))
  (at level 61, right associativity).

(** The element behind a handle. *)
Definition resolve (u : nat) : M node :=
  fun p =>
    match get_node u (dom p) with
    | Some n => Returned n p
    | None => Unmodelled
    end.

Definition run_dom (f : node -> dom_result) : M unit :=
  fun p =>
    match f (dom p) with
    | Mutated d => Returned tt (with_dom d p)
    | Raised e => Thrown e p
    | Unattached => Unmodelled
    end.

Fixpoint forEach {A : Type} (l : list A) (f : A -> M unit) : M unit :=
  match l with
  | [] => ret tt
  | a :: rest => f a ;; forEach rest f
  end.

(** *** Pieces of the browser the script calls *)

(** [element.dataset.taskId], [.columnId], [.canDrag]: the attributes
    [data-task-id], [data-column-id], [data-can-drag]; [None] when the
    attribute is missing. *)
Definition dataset_taskId (n : node) : option string := getAttribute "data-task-id" n.
Definition dataset_columnId (n : node) : option string := getAttribute "data-column-id" n.
Definition dataset_canDrag (n : node) : option string := getAttribute "data-can-drag" n.

(** A dataset value inside a template literal or as a string argument. *)
Definition template (v : option string) : string :=
  match v with
  | Some s => s
  | None => "undefined"
  end.

(** The string a value becomes when assigned to [textContent], a nullable
    DOMString: [undefined] and [null] give the empty string, any other
    value goes through ToString. *)
Definition DOMString_of (v : value) : conversion :=
  match v with
  | None => Converted ""
  | Some JNull => Converted ""
  | Some j => json_to_string j
  end.

(** A conversion where the script runs into it. *)
Definition raise {A : Type} (e : engine_error) : M A :=
  fun p => Thrown (TypeError (engine_message p e)) p.

Definition convert (c : conversion) : M string :=
  fun p =>
    match c with
    | Converted s => Returned s p
    | NotPrimitive => raise ToPrimitive p
    | Unprinted => Unmodelled
    end.

(** *** The selector of a badge *)

(** The characters that a string of a selector does not hold as they are:
    the quote that ends it, the backslash that escapes, the line breaks
    that make the selector invalid or that CSS reads as another character,
    and the null character. *)
Definition breaks_selector (c : ascii) : bool :=
  let n := nat_of_ascii c in
  Nat.eqb n 0 || Nat.eqb n 10 || Nat.eqb n 12 || Nat.eqb n 13
  || Nat.eqb n 34 || Nat.eqb n 92.

Definition selector_safe (s : string) : bool :=
  forallb (fun c => negb (breaks_selector c)) (list_ascii_of_string s).

(** The selector the engine reads in the template literal
    [[data-column-count="${columnId}"]]: for a column id without such a
    character, the attribute selector it looks like; [None] for the
    others, where what the engine reads depends on the rest of the id and
    is not modelled. *)
Definition badge_selector (columnId : string) : option selector :=
  if selector_safe columnId then Some (AttrEq "data-column-count" columnId) else None.

(** A message that is text and nothing else between the [span] tags. *)
Definition markup_free (s : string) : bool :=
  forallb (fun c => negb (c =? "<")%char) (list_ascii_of_string s).

Definition number (n : nat) : value := Some (JNum (Z.of_nat n)).

Definition classList_add (c : string) (l : list string) : list string :=
  if existsb (String.eqb c) l then l else l ++ [c].

Definition classList_remove (c : string) (l : list string) : list string :=
  filter (fun x => negb (x =? c)) l.

Definition set_body_classList (f : list string -> list string) : M unit :=
  fun p =>
    Returned tt (mkPage (dom p) (f (body_classList p)) (draggedElement p)
                        (originalColumn p) (originalIndex p) (sortables p)
                        (requests p) (toasts p) (engine_message p)).

(** [new Sortable(column, options)]. *)
Definition new_Sortable (s : sortable) : M unit :=
  fun p =>
    Returned tt (mkPage (dom p) (body_classList p) (draggedElement p)
                        (originalColumn p) (originalIndex p) (sortables p ++ [s])
                        (requests p) (toasts p) (engine_message p)).

(** [fetch(url, init)]: the call is recorded; its result comes back later
    as a [reply]. *)
Definition fetch (r : request) : M unit :=
  fun p =>
    Returned tt (mkPage (dom p) (body_classList p) (draggedElement p)
                        (originalColumn p) (originalIndex p) (sortables p)
                        (requests p ++ [r]) (toasts p) (engine_message p)).

(** The event object [Sortable] hands to its callbacks. *)
Record SortableEvent : Type := mkEvent {
  evt_item : nat;
  evt_from : nat;
  evt_to : nat;
  oldIndex : nat;
  newIndex : nat
}.

(** How the two awaits of [onEnd] come out: [fetch] rejects, [json()]
    rejects, or a value is parsed. *)
Inductive reply : Type :=
| Rejected (e : exn)
| Unparsable (e : exn)
| Parsed (data : json).

(** ** The script *)

(** [showNotification(message, type)]: the toast with the message put
    into its markup and with its alert class; the [div] it becomes under
    [body], and its removal three seconds later, are not in the tree.  A
    message with [<] would put elements of its own into the document: the
    model stops there. *)
Definition showNotification (msg type : string) : M unit :=
  fun p =>
    if markup_free msg then
      let t := mkToast msg ("alert alert-" ++ (if type =? "error" then "error" else "info")) in
      Returned tt (mkPage (dom p) (body_classList p) (draggedElement p)
                          (originalColumn p) (originalIndex p) (sortables p)
                          (requests p) (toasts p ++ [t]) (engine_message p))
    else Unmodelled.

(** [updateBadgeCount(columnId, count)]: the badge is looked up with the
    selector of the template literal, and [count] is converted by the
    [textContent] setter, so only when a badge is found. *)
Definition updateBadgeCount (columnId : option string) (count : value) : M unit :=
  fun p =>
    match badge_selector (template columnId) with
    | Some sel =>
        match querySelector sel (dom p) with
        | Some badge =>
            (shown <- convert (DOMString_of count) ;;
             fun q => Returned tt (with_dom (set_textContent (uid badge) shown (dom q)) q)) p
        | None => Returned tt p
        end
    | None => Unmodelled
    end.

Definition same_handle (a b : option nat) : bool :=
  match a, b with
  | Some x, Some y => Nat.eqb x y
  | None, None => true
  | _, _ => false
  end.

(** [updateColumnCounts(fromColumn, toColumn)]. *)
Definition updateColumnCounts (fromColumn toColumn : option nat) : M unit :=
  (match fromColumn with
   | Some f =>
       fromNode <- resolve f ;;
       let fromCount := List.length (querySelectorAll (HasAttr "data-task-id") fromNode) in
       updateBadgeCount (dataset_columnId fromNode) (number fromCount)
   | None => ret tt
   end) ;;
  match toColumn with
  | Some t =>
      if negb (same_handle toColumn fromColumn) then
        toNode <- resolve t ;;
        let toCount := List.length (querySelectorAll (HasAttr "data-task-id") toNode) in
        updateBadgeCount (dataset_columnId toNode) (number toCount)
      else ret tt
  | None => ret tt
  end.

(** [revertMove(evt)]. *)
Definition revertMove (evt : SortableEvent) : M unit :=
  fun p =>
    match originalColumn p, draggedElement p with
    | Some column, Some dragged =>
        (columnNode <- resolve column ;;
         let referenceNode :=
           match originalIndex p with
           | Some i => nth_error (children columnNode) i
           | None => None
           end in
         match referenceNode with
         | Some r => run_dom (insertBefore column dragged (Some (uid r)))
         | None => run_dom (appendChild column dragged)
         end ;;
         updateColumnCounts (Some (evt_to evt)) (Some column)) p
    | _, _ => Returned tt p
    end.

(** [onStart]. *)
Definition onStart (evt : SortableEvent) : M unit :=
  fun p =>
    set_body_classList (classList_add "dragging-active")
      (mkPage (dom p) (body_classList p) (Some (evt_item evt)) (Some (evt_from evt))
              (Some (oldIndex evt)) (sortables p) (requests p) (toasts p)
              (engine_message p)).

(** [onEnd], up to the first [await]: the class, the optimistic counts,
    and the call of [fetch].  The [try] block opens just before that
    call; [replace] and [fetch] do not throw, so the split is placed
    after them. *)
Definition onEnd_request (s : sortable) (evt : SortableEvent) : M unit :=
  set_body_classList (classList_remove "dragging-active") ;;
  itemNode <- resolve (evt_item evt) ;;
  let taskId := dataset_taskId itemNode in
  toNode <- resolve (evt_to evt) ;;
  let newColumnId := dataset_columnId toNode in
  updateColumnCounts (Some (evt_from evt)) (Some (evt_to evt)) ;;
  fetch (mkRequest
           (replace (moveEndpoint s) "{taskId}" (template taskId))
           "POST"
           [("X-CSRFToken", csrfToken s);
            ("Content-Type", "application/x-www-form-urlencoded");
            ("Accept", "application/json")]
           ("column_id=" ++ template newColumnId ++ "&position="
              ++ string_of_nat (newIndex evt))).

Definition lift {A : Type} (r : engine_error + A) : M A :=
  match r with
  | inl e => raise e
  | inr a => ret a
  end.

(** The rest of the [try] block, once the awaits have come out as [r]. *)
Definition onEnd_try (evt : SortableEvent) (r : reply) : M unit :=
  data <- match r with
          | Rejected e => throw e
          | Unparsable e => throw e
          | Parsed d => ret d
          end ;;
  ok <- lift (get_prop data "ok") ;;
  if negb (truthy ok) then
    error <- lift (get_prop data "error") ;;
    msg <- convert (to_string (js_or error (Some (JStr "Move failed")))) ;;
    throw (Error msg)
  else
    from_count <- lift (get_prop data "from_count") ;;
    match from_count with
    | Some _ =>
        fromNode <- resolve (evt_from evt) ;;
        updateBadgeCount (dataset_columnId fromNode) from_count
    | None => ret tt
    end ;;
    to_count <- lift (get_prop data "to_count") ;;
    match to_count with
    | Some _ =>
        toNode <- resolve (evt_to evt) ;;
        updateBadgeCount (dataset_columnId toNode) to_count
    | None => ret tt
    end.

(** [error.message || 'Could not move task']. *)
Definition shown_message (error : exn) : string :=
  if message error =? "" then "Could not move task" else message error.

(** [onEnd] after the awaits: the [try] block and its [catch]. *)
Definition onEnd_settle (evt : SortableEvent) (r : reply) : M unit :=
  try_catch (onEnd_try evt r)
    (fun error =>
       revertMove evt ;;
       showNotification (shown_message error) "error").

(** A drop handled with nothing in between. *)
Definition onEnd (s : sortable) (evt : SortableEvent) (r : reply) : M unit :=
  onEnd_request s evt ;; onEnd_settle evt r.

(** [initializeKanbanBoard(boardId, csrfToken, moveEndpoint)]. *)
Definition initializeKanbanBoard (boardId token endpoint : string) : M unit :=
  fun p =>
    match getElementById boardId (dom p) with
    | None => Returned tt p
    | Some board =>
        forEach (querySelectorAll (HasAttr "data-column-id") board)
          (fun column =>
             match dataset_canDrag column with
             | Some flag =>
                 if flag =? "true"
                 then new_Sortable (mkSortable (uid column) "shared" token endpoint)
                 else ret tt
             | None => ret tt
             end) p
    end.

(** ** The gesture library *)

Definition insert_at (i : nat) (x : node) (ks : list node) : list node :=
  firstn i ks ++ x :: skipn i ks.

Fixpoint put_at (parent i : nat) (x : node) (n : node) : node :=
  match n with
  | Element u a t ks =>
      if Nat.eqb u parent then Element u a t (insert_at i x ks)
      else Element u a t (map (put_at parent i x) ks)
  end.

(** What [Sortable] has done to the tree by the time it calls [onEnd]:
    [evt.item] is child number [evt.newIndex] of [evt.to]. *)
Definition Sortable_move (evt : SortableEvent) (document : node) : option node :=
  match get_node (evt_item evt) document with
  | Some x =>
      Some (put_at (evt_to evt) (newIndex evt) x (detach (evt_item evt) document))
  | None => None
  end.

Definition Sortable_drop (evt : SortableEvent) : M unit :=
  fun p =>
    match Sortable_move evt (dom p) with
    | Some d => Returned tt (with_dom d p)
    | None => Unmodelled
    end.

(** A whole gesture: start, the library's move, the drop and its reply. *)
Definition gesture (s : sortable) (evt : SortableEvent) (r : reply) : M unit :=
  onStart evt ;; Sortable_drop evt ;; onEnd s evt r.

(** ** A board to run the script on *)

Module Board.

Definition task (u : nat) (id : string) : node :=
  Element u [("class", "card"); ("data-task-id", id)] id [].

Definition badge (u : nat) (column : string) (shown : string) : node :=
  Element u [("class", "badge"); ("data-column-count", column)] shown [].

Definition column (u : nat) (id : string) (tasks : list node) : node :=
  Element u [("data-column-id", id); ("data-can-drag", "true")] "" tasks.

(** Two columns: [todo] with three tasks and [doing] with one. *)
Definition body : node :=
  Element 0 [] ""
    [Element 1 [("id", "board")] ""
       [badge 10 "todo" "3";
        column 2 "todo" [task 21 "T1"; task 22 "T2"; task 23 "T3"];
        badge 11 "doing" "1";
        column 3 "doing" [task 31 "T4"]]].

Definition start : page := mkPage body [] None None None [] [] [] V8.

Definition shared : sortable := mkSortable 2 "shared" "tok" "/tasks/{taskId}/move/".

(** [T1] dragged from [todo] to the top of [doing]. *)
Definition T1_to_doing : SortableEvent := mkEvent 21 2 3 0 0.

End Board.

(** ** Vocabulary of the properties *)

(** The ids of the children of the element [u], in order. *)
Definition child_ids (u : nat) (document : node) : option (list nat) :=
  option_map (fun n => map uid (children n)) (get_node u document).

(** The place of [x] among the children of [u]. *)
Fixpoint index_of (x : nat) (l : list nat) : option nat :=
  match l with
  | [] => None
  | y :: rest => if Nat.eqb y x then Some 0 else option_map S (index_of x rest)
  end.

Definition position (x u : nat) (document : node) : option nat :=
  match child_ids u document with
  | Some l => index_of x l
  | None => None
  end.

(** A list of child ids with [x] put before [ref]; at the end when
    [ref] is [None]. *)
Fixpoint insert_id (ref : option nat) (x : nat) (l : list nat) : list nat :=
  match l with
  | [] => [x]
  | y :: rest =>
      if match ref with Some r => Nat.eqb y r | None => false end
      then x :: y :: rest
      else y :: insert_id ref x rest
  end.

(** The ids in [l] other than [x]. *)
Definition without (x : nat) (l : list nat) : list nat :=
  filter (fun u => negb (Nat.eqb u x)) l.

(** The child [revertMove] inserts [x] before, given the children of the
    origin column and the recorded index. *)
Definition reference_child (x : nat) (i : option nat) (column : node) : option nat :=
  match i with
  | Some i =>
      match nth_error (children column) i with
      | Some r => if Nat.eqb (uid r) x then next_sibling x (children column)
                  else Some (uid r)
      | None => None
      end
  | None => None
  end.

(** A count badge is an element with a [data-column-count] attribute. *)
Definition is_badge (n : node) : bool := matches (HasAttr "data-column-count") n.

(** The badge [updateBadgeCount] finds for a column. *)
Definition badge_of (column : node) (document : node) : option node :=
  querySelector (AttrEq "data-column-count" (template (dataset_columnId column)))
                document.

(** The text shown in the badge of the column [u], when it has one. *)
Definition displayed_count (u : nat) (document : node) : option string :=
  match get_node u document with
  | Some column => option_map text (badge_of column document)
  | None => None
  end.

(** The number of task elements in the column [u]. *)
Definition task_count (u : nat) (document : node) : option nat :=
  option_map (fun column => List.length (querySelectorAll (HasAttr "data-task-id") column))
             (get_node u document).

(** No element carries the column-count attribute for [columnId]. *)
Definition no_badge (columnId : option string) (document : node) : Prop :=
  forall n, In n (nodes document) ->
            getAttribute "data-column-count" n <> Some (template columnId).

(** Handles are identities, and a badge holds text only. *)
Definition badges_are_leaves (document : node) : Prop :=
  forall n, In n (nodes document) -> is_badge n = true -> children n = [].

Definition well_formed (document : node) : Prop :=
  NoDup (ids document) /\ badges_are_leaves document.

Fixpoint nodupb (l : list nat) : bool :=
  match l with
  | [] => true
  | x :: rest => negb (existsb (Nat.eqb x) rest) && nodupb rest
  end.

Definition well_formedb (document : node) : bool :=
  nodupb (ids document)
  && forallb (fun n => negb (is_badge n)
                       || match children n with [] => true | _ => false end)
             (nodes document).

(** The tree without its texts: what the element queries see. *)
Fixpoint skeleton (n : node) : node :=
  match n with
  | Element u a _ ks => Element u a "" (map skeleton ks)
  end.

(** The tree after [updateBadgeCount] has written [shown] into the badge
    of [columnId], when there is one. *)
Definition write_badge (columnId : option string) (shown : string) (document : node) : node :=
  match querySelector (AttrEq "data-column-count" (template columnId)) document with
  | Some badge => set_textContent (uid badge) shown document
  | None => document
  end.

(** What the handling of a server count writes: nothing for a field that
    is absent, the string of the value for one that is there and that the
    [textContent] setter converts. *)
Definition writes (count : value) (written : option string) : Prop :=
  match count with
  | Some j => exists s, DOMString_of (Some j) = Converted s /\ written = Some s
  | None => written = None
  end.

(** The tree after one of the two server counts is handled: a badge
    update when the field is there, nothing otherwise. *)
Definition commit (written : option string) (column : node) (document : node) : node :=
  match written with
  | Some s => write_badge (dataset_columnId column) s document
  | None => document
  end.

(** What a badge shows once a server count is handled. *)
Definition overwrite (written : option string) (shown : option string) : option string :=
  match written, shown with
  | Some s, Some _ => Some s
  | _, _ => shown
  end.

(** The replies on which [onEnd] takes its [catch] branch: a rejected
    request, an unparsable body, a parsed [null], a parsed value whose
    [ok] is falsy. *)
Definition rolls_back (r : reply) : bool :=
  match r with
  | Rejected _ => true
  | Unparsable _ => true
  | Parsed data =>
      match get_prop data "ok" with
      | inl _ => true
      | inr ok => negb (truthy ok)
      end
  end.

(** The replies the specification's sentence counts as failures: a
    rejected request, an unparsable body, a parsed value whose [ok] is
    not [true]. *)
Definition ok_is_true (data : json) : bool :=
  match data with
  | JObj fields =>
      match assoc "ok" fields with
      | Some (JBool true) => true
      | _ => false
      end
  | _ => false
  end.

Definition failure_as_specified (r : reply) : bool :=
  match r with
  | Rejected _ => true
  | Unparsable _ => true
  | Parsed data => negb (ok_is_true data)
  end.

(** The two fallback texts of the script. *)
Definition generic_fallback (msg : string) : Prop :=
  msg = "Move failed" \/ msg = "Could not move task".

(** [m || 'Could not move task']. *)
Definition or_could_not_move (m : string) : string :=
  if m =? "" then "Could not move task" else m.

(** The message of the notification of a rolled-back drop, for an engine
    that words its errors as [wording] does.
    - A rejected request or an unparsable body: the message of the thrown
      error itself, and ['Could not move task'] when that is empty.
    - A parsed [null]: the engine's message for the read of [ok], under
      the same fallback.
    - Another parsed value whose [error] is falsy (an absent one, [null],
      [false], [0], [""]; a value that is no object has none):
      ['Move failed'].
    - A truthy [error]: its string, under the fallback of the empty
      message (an empty array prints as the empty string); when ToString
      throws (an object with a key [toString]), the engine's message for
      that, under the same fallback.
    [None] where the model does not print the [error]. *)
Definition rollback_message (wording : engine_error -> string) (r : reply)
  : option string :=
  match r with
  | Rejected e => Some (or_could_not_move (message e))
  | Unparsable e => Some (or_could_not_move (message e))
  | Parsed JNull => Some (or_could_not_move (wording (ReadOfNull "ok")))
  | Parsed (JObj fields) =>
      if truthy (assoc "error" fields) then
        match to_string (assoc "error" fields) with
        | Converted s => Some (or_could_not_move s)
        | NotPrimitive => Some (or_could_not_move (wording ToPrimitive))
        | Unprinted => None
        end
      else Some "Move failed"
  | Parsed _ => Some "Move failed"
  end.

(** The page with one more toast and nothing else changed. *)
Definition with_toast (t : toast) (p : page) : page :=
  mkPage (dom p) (body_classList p) (draggedElement p) (originalColumn p)
         (originalIndex p) (sortables p) (requests p) (toasts p ++ [t])
         (engine_message p).

(** The page once [onEnd] has reached its first [await]. *)
Definition requesting (d : node) (r : request) (p : page) : page :=
  mkPage d (classList_remove "dragging-active" (body_classList p))
         (draggedElement p) (originalColumn p) (originalIndex p)
         (sortables p) (requests p ++ [r]) (toasts p) (engine_message p).

(** The request of a drop. *)
Definition move_request (s : sortable) (taskId columnId : option string) (index : nat)
  : request :=
  mkRequest (replace (moveEndpoint s) "{taskId}" (template taskId))
            "POST"
            [("X-CSRFToken", csrfToken s);
             ("Content-Type", "application/x-www-form-urlencoded");
             ("Accept", "application/json")]
            ("column_id=" ++ template columnId ++ "&position=" ++ string_of_nat index).

(** The requests on the page when a computation ends. *)
Definition issued {A : Type} (o : outcome A) : option (list request) :=
  match o with
  | Returned _ p => Some (requests p)
  | Thrown _ p => Some (requests p)
  | Unmodelled => None
  end.

(** The page with more [Sortable] instances and nothing else changed. *)
Definition with_sortables (added : list sortable) (p : page) : page :=
  mkPage (dom p) (body_classList p) (draggedElement p) (originalColumn p)
         (originalIndex p) (sortables p ++ added) (requests p) (toasts p)
         (engine_message p).

Definition can_drag (column : node) : bool :=
  match dataset_canDrag column with
  | Some flag => flag =? "true"
  | None => false
  end.

Module NoBadge.

(** A board whose columns have no badge. *)
Definition body : node :=
  Element 0 [] ""
    [Element 1 [("id", "board")] ""
       [Board.column 2 "todo" [Board.task 21 "T1"];
        Board.column 3 "doing" []]].

Definition start : page := mkPage body [] None None None [] [] [] V8.

End NoBadge.

Definition column_key (column : node) : string := template (dataset_columnId column).

(** The documents on which the model follows the browser: every column id
    is one the selector template holds between its quotes, and the
    elements are no more than a double counts one by one. *)
Definition modelled (document : node) : Prop :=
  (forall n, In n (nodes document) -> selector_safe (column_key n) = true)
  /\ (Z.of_nat (List.length (nodes document)) <= max_safe_integer)%Z.

Definition modelledb (document : node) : bool :=
  forallb (fun n => selector_safe (column_key n)) (nodes document)
  && (Z.of_nat (List.length (nodes document)) <=? max_safe_integer)%Z.

(** Every element called [b] in the tree is childless. *)
Definition leaf_at (b : nat) (t : node) : Prop :=
  forall n, In n (nodes t) -> uid n = b -> children n = [].

(** The badge of a column shows the number of its task elements. *)
Definition shows_task_count (u : nat) (d : node) : Prop :=
  forall s, displayed_count u d = Some s ->
            exists n, task_count u d = Some n /\ s = string_of_nat n.

(** The handle and the attributes of every element, in tree order. *)
Definition table (t : node) : list (nat * list (string * string)) :=
  map (fun n => (uid n, attributes n)) (nodes t).

Definition detach_all (x : nat) (ks : list node) : list node :=
  flat_map (fun k => if Nat.eqb (uid k) x then [] else [detach x k]) ks.

Module Shifted.

(** [T1] was dragged from index 2 of [todo], whose other tasks have gone
    since; it now sits in [doing]. *)
Definition body : node :=
  Element 0 [] ""
    [Element 1 [("id", "board")] ""
       [Board.badge 10 "todo" "1";
        Board.column 2 "todo" [Board.task 22 "T2"];
        Board.badge 11 "doing" "2";
        Board.column 3 "doing" [Board.task 21 "T1"; Board.task 31 "T4"]]].

Definition dropped : page := mkPage body [] (Some 21) (Some 2) (Some 2) [] [] [] V8.

Definition evt : SortableEvent := mkEvent 21 2 3 2 0.

End Shifted.

Module WithinColumn.

(** [T3] dragged from index 2 of [todo] to its index 0. *)
Definition evt : SortableEvent := mkEvent 23 2 2 2 0.

(** The server's answer carries the count of the origin only. *)
Definition data : json := JObj [("ok", JBool true); ("from_count", JNum 4)].

Definition dropped : M unit :=
  onStart evt ;; Sortable_drop evt ;; onEnd_request Board.shared evt.

End WithinColumn.

(** A recorded session names two elements of the document, the dragged
    one not above the origin column, and the origin column is no badge. *)
Definition session_in_document (p : page) : Prop :=
  match originalColumn p, draggedElement p with
  | Some c, Some x =>
      exists cn xn,
        get_node c (dom p) = Some cn /\ get_node x (dom p) = Some xn
        /\ ~ In c (ids xn) /\ is_badge cn = false
  | _, _ => True
  end.

(** A string without [$]. *)
Definition plain (s : string) : Prop :=
  forall c, In c (list_ascii_of_string s) -> c <> "$"%char.

(** [pat] occurs nowhere in [s]. *)
Definition absent (pat s : string) : Prop :=
  forall before after, s <> before ++ pat ++ after.

(** [s] is [before], [pat], [after], and [pat] occurs nowhere earlier in
    [s]. *)
Definition first_occurrence (pat s before after : string) : Prop :=
  s = before ++ pat ++ after
  /\ forall b a, s = b ++ pat ++ a -> String.length before <= String.length b.

(** The task id substituted into the move-endpoint template: the id in
    the place of the first placeholder, and the template as it is when it
    has no placeholder. *)
Definition substituted (endpoint id address : string) : Prop :=
  (absent "{taskId}" endpoint /\ address = endpoint)
  \/ (exists before after,
         first_occurrence "{taskId}" endpoint before after
         /\ address = before ++ id ++ after).

(** ** Vocabulary of the further properties *)

(** The page a computation ends on, whether it returns or throws. *)
Definition ended {A : Type} (o : outcome A) : option page :=
  match o with
  | Returned _ p => Some p
  | Thrown _ p => Some p
  | Unmodelled => None
  end.

(** A computation leaves a component of the page as it found it. *)
Definition keeps {A X : Type} (f : page -> X) (m : M A) : Prop :=
  forall p p', ended (m p) = Some p' -> f p' = f p.

(** A server count that is absent, or is the number of task elements. *)
Definition agrees (count : value) (tasks : option nat) : Prop :=
  match count with
  | None => True
  | Some j => exists n, tasks = Some n /\ j = JNum (Z.of_nat n)
  end.

(** How many elements of the document match a selector. *)
Definition elements_matching (sel : selector) (document : node) : nat :=
  List.length (filter (matches sel) (nodes document)).

(** A component of the page other than the tree. *)
Definition beside_dom {X : Type} (f : page -> X) : Prop :=
  forall d p, f (with_dom d p) = f p.

(** The child [revertMove] inserts before, read off the ids of the
    children. *)
Fixpoint next_id (x : nat) (l : list nat) : option nat :=
  match l with
  | [] => None
  | y :: rest => if Nat.eqb y x then hd_error rest else next_id x rest
  end.

Definition reference_id (x : nat) (i : option nat) (l : list nat) : option nat :=
  match i with
  | Some i =>
      match nth_error l i with
      | Some r => if Nat.eqb r x then next_id x l else Some r
      | None => None
      end
  | None => None
  end.

(** The children of the element [t] once [x] has been moved before [ref]
    in [c]. *)
Definition children_after_move (c x : nat) (ref : option nat) (t : nat) (l : list nat)
  : list nat :=
  if Nat.eqb t c then insert_id ref x (without x l) else without x l.

(** A selector seen from the attributes of an element. *)
Definition attributes_match (sel : selector) (a : list (string * string)) : bool :=
  match sel with
  | HasAttr name => match assoc name a with Some _ => true | None => false end
  | AttrEq name v => match assoc name a with Some v' => v' =? v | None => false end
  end.

Module Dropped.

(** [T1], first of [todo], dropped at the top of [doing]. *)
Definition across_body : node :=
  Element 0 [] ""
    [Element 1 [("id", "board")] ""
       [Board.badge 10 "todo" "3";
        Board.column 2 "todo" [Board.task 22 "T2"; Board.task 23 "T3"];
        Board.badge 11 "doing" "1";
        Board.column 3 "doing" [Board.task 21 "T1"; Board.task 31 "T4"]]].

Definition across : page :=
  mkPage across_body [] (Some 21) (Some 2) (Some 0) [] [] [] V8.

(** [T3], last of [todo], dropped at the top of [todo]. *)
Definition upward_body : node :=
  Element 0 [] ""
    [Element 1 [("id", "board")] ""
       [Board.badge 10 "todo" "3";
        Board.column 2 "todo" [Board.task 23 "T3"; Board.task 21 "T1"; Board.task 22 "T2"];
        Board.badge 11 "doing" "1";
        Board.column 3 "doing" [Board.task 31 "T4"]]].

Definition upward : page :=
  mkPage upward_body [] (Some 23) (Some 2) (Some 2) [] [] [] V8.

End Dropped.

Module Dollar.

(** A task whose id is [$&], dropped at the top of [doing]. *)
Definition body : node :=
  Element 0 [] ""
    [Element 1 [("id", "board")] ""
       [Board.badge 10 "todo" "1";
        Board.column 2 "todo" [Board.task 22 "T2"];
        Board.badge 11 "doing" "2";
        Board.column 3 "doing" [Board.task 21 "$&"; Board.task 31 "T4"]]].

Definition dropped : page := mkPage body [] (Some 21) (Some 2) (Some 0) [] [] [] V8.

End Dollar.

(** ** [time_home.js]: [debounce] *)

Module Debounce.

Section Closure.

(** What a call of the debounced function hands on to [fn]: the receiver
    and the arguments. *)
Variable A : Type.

(** A timeout set by the debounced function and not yet run or cleared:
    its handle, the time from which it may run, and the call it stands
    for. *)
Record timeout : Type := mkTimeout { handle : nat; due : nat; call : A }.

(** The clock, the next handle [setTimeout] gives out, the timeouts of
    the debounced function that are pending, the variable [t] of the
    closure, and the calls of [fn] made so far. *)
Record window : Type := mkWindow {
  clock : nat;
  next_handle : nat;
  timeouts : list timeout;
  t : option nat;
  applied : list A
}.

(** [clearTimeout(undefined)] does nothing, as does clearing a handle
    that is not pending. *)
Definition clearTimeout (h : option nat) (w : window) : window :=
  match h with
  | Some i =>
      mkWindow (clock w) (next_handle w)
               (filter (fun k => negb (Nat.eqb (handle k) i)) (timeouts w))
               (t w) (applied w)
  | None => w
  end.

Definition setTimeout (a : A) (wait : nat) (w : window) : nat * window :=
  (next_handle w,
   mkWindow (clock w) (S (next_handle w))
            (timeouts w ++ [mkTimeout (next_handle w) (clock w + wait) a])%list
            (t w) (applied w)).

(** The function [debounce(fn, wait)] returns, called with [a]. *)
Definition debounce (wait : nat) (a : A) (w : window) : window :=
  let w1 := clearTimeout (t w) w in
  let (h, w2) := setTimeout a wait w1 in
  mkWindow (clock w2) (next_handle w2) (timeouts w2) (Some h) (applied w2).

(** What happens to the closure: it is called, time passes, or the event
    loop runs the timeout with handle [h]. *)
Inductive event : Type :=
| Call (a : A)
| Advance (d : nat)
| Fire (h : nat).

(** A timeout runs once, not before it is due; [None] is an event a
    browser does not produce. *)
Definition step (wait : nat) (e : event) (w : window) : option window :=
  match e with
  | Call a => Some (debounce wait a w)
  | Advance d =>
      Some (mkWindow (clock w + d) (next_handle w) (timeouts w) (t w) (applied w))
  | Fire h =>
      match find (fun k => Nat.eqb (handle k) h) (timeouts w) with
      | Some k =>
          if Nat.leb (due k) (clock w)
          then Some (mkWindow (clock w) (next_handle w)
                              (filter (fun k => negb (Nat.eqb (handle k) h)) (timeouts w))
                              (t w) (applied w ++ [call k])%list)
          else None
      | None => None
      end
  end.

Fixpoint run (wait : nat) (trace : list event) (w : window) : option window :=
  match trace with
  | [] => Some w
  | e :: rest =>
      match step wait e w with
      | Some w' => run wait rest w'
      | None => None
      end
  end.

(** The state [debounce(fn, wait)] returns in: [t] is undefined. *)
Definition created (now h : nat) : window := mkWindow now h [] None [].

(** The calls of the debounced function in a trace, in order. *)
Fixpoint calls (trace : list event) : list A :=
  match trace with
  | [] => []
  | Call a :: rest => a :: calls rest
  | _ :: rest => calls rest
  end.

(** The time that passes in a trace. *)
Fixpoint elapsed (trace : list event) : nat :=
  match trace with
  | [] => 0
  | Advance d :: rest => d + elapsed rest
  | _ :: rest => elapsed rest
  end.

Definition waiting (e : event) : Prop := exists d, e = Advance d.

(** At most one timeout is pending, and it is the one [t] names. *)
Definition tidy (w : window) : Prop :=
  match timeouts w with
  | [] => True
  | [k] => t w = Some (handle k)
  | _ => False
  end.

(** Nothing is pending, or one timeout is, set by the last call of the
    trace, with nothing but time passing since. *)
Definition pending_since (wait : nat) (trace : list event) (w : window) : Prop :=
  timeouts w = []
  \/ exists pre a quiet k,
       trace = (pre ++ Call a :: quiet)%list
       /\ Forall waiting quiet
       /\ timeouts w = [k]
       /\ call k = a
       /\ t w = Some (handle k)
       /\ due k + elapsed quiet = clock w + wait.

End Closure.

Arguments mkTimeout {A}.
Arguments handle {A}.
Arguments due {A}.
Arguments call {A}.
Arguments mkWindow {A}.
Arguments clock {A}.
Arguments next_handle {A}.
Arguments timeouts {A}.
Arguments t {A}.
Arguments applied {A}.
Arguments clearTimeout {A}.
Arguments setTimeout {A}.
Arguments debounce {A}.
Arguments Call {A}.
Arguments Advance {A}.
Arguments Fire {A}.
Arguments step {A}.
Arguments run {A}.
Arguments created {A}.
Arguments calls {A}.
Arguments elapsed {A}.
Arguments waiting {A}.
Arguments tidy {A}.
Arguments pending_since {A}.

(** Two keystrokes 100 ms apart, then quiet. *)
Definition typing : list (event string) :=
  [Call "a"; Advance 100; Call "ab"; Advance 180; Fire 2].

End Debounce.

(** * Properties *)

Open Scope list_scope.

Example replace_once :
  replace "/tasks/{taskId}/move/{taskId}" "{taskId}" "42" = "/tasks/42/move/{taskId}".
Proof. reflexivity. Qed.

Example replace_dollar :
  replace "/tasks/{taskId}/move" "{taskId}" "$&" = "/tasks/{taskId}/move".
Proof. reflexivity. Qed.

Example to_string_examples :
  to_string (Some (JNum 12)) = Converted "12" /\
  to_string (Some (JNum (-3))) = Converted "-3" /\
  to_string (Some (JArr [JNum 1; JNull; JStr "a"])) = Converted "1,,a" /\
  to_string (Some (JArr [])) = Converted "" /\
  to_string (Some (JObj [("error", JStr "x")])) = Converted "[object Object]" /\
  to_string (Some (JObj [("toString", JNum 1)])) = NotPrimitive /\
  to_string (Some (JArr [JNum 1; JObj [("toString", JNum 1)]])) = NotPrimitive /\
  to_string (Some (JNum 1000000000000000000000)) = Unprinted.
Proof. repeat split; reflexivity. Qed.

Example selector_safe_examples :
  selector_safe "todo" = true /\
  selector_safe "in progress" = true /\
  selector_safe "a\b" = false /\
  selector_safe (String (ascii_of_nat 34) "b") = false /\
  selector_safe (String (ascii_of_nat 10) "b") = false.
Proof. repeat split; reflexivity. Qed.

(** ** The scenarios of the specification *)

(** [T1] goes from [todo] (3) to the top of [doing] (1) and the server
    answers with the counts 2 and 2. *)
Example scenario_successful_move :
  exists p',
    gesture Board.shared Board.T1_to_doing
      (Parsed (JObj [("ok", JBool true); ("from_count", JNum 2); ("to_count", JNum 2)]))
      Board.start = Returned tt p'
    /\ displayed_count 2 (dom p') = Some "2"
    /\ displayed_count 3 (dom p') = Some "2"
    /\ position 21 3 (dom p') = Some 0
    /\ toasts p' = [].
Proof. eexists. split; [vm_compute; reflexivity|]. repeat split. Qed.

(** The same drag, refused by the server. *)
Example scenario_rejected_move :
  exists p',
    gesture Board.shared Board.T1_to_doing
      (Parsed (JObj [("ok", JBool false); ("error", JStr "locked")]))
      Board.start = Returned tt p'
    /\ position 21 2 (dom p') = Some 0
    /\ displayed_count 2 (dom p') = Some "3"
    /\ displayed_count 3 (dom p') = Some "1"
    /\ toasts p' = [mkToast "locked" "alert alert-error"].
Proof. eexists. split; [vm_compute; reflexivity|]. repeat split. Qed.

(** The same drag with the request failing before any response. *)
Example scenario_network_exception :
  exists p',
    gesture Board.shared Board.T1_to_doing
      (Rejected (mkExn "TypeError" "Failed to fetch"))
      Board.start = Returned tt p'
    /\ position 21 2 (dom p') = Some 0
    /\ displayed_count 2 (dom p') = Some "3"
    /\ displayed_count 3 (dom p') = Some "1"
    /\ toasts p' = [mkToast "Failed to fetch" "alert alert-error"].
Proof. eexists. split; [vm_compute; reflexivity|]. repeat split. Qed.

(** ** Lists and trees *)

Lemma node_induction (P : node -> Prop) :
  (forall u a t ks, Forall P ks -> P (Element u a t ks)) ->
  forall n, P n.
Proof.
  intros step. fix IH 1. intros [u a t ks]. apply step.
  induction ks as [|k ks IHks]; constructor; [apply IH | exact IHks].
Qed.

Lemma nodes_Element u a t ks :
  nodes (Element u a t ks) = Element u a t ks :: flat_map nodes ks.
Proof. reflexivity. Qed.

Lemma map_flat_map {A B C : Type} (g : B -> C) (f : A -> list B) (l : list A) :
  map g (flat_map f l) = flat_map (fun a => map g (f a)) l.
Proof.
  induction l as [|a l IH]; simpl; [reflexivity|].
  now rewrite map_app, IH.
Qed.

Lemma ids_Element u a t ks :
  ids (Element u a t ks) = u :: flat_map ids ks.
Proof.
  unfold ids at 1. rewrite nodes_Element, map_cons, map_flat_map. reflexivity.
Qed.

Lemma find_app {A : Type} (f : A -> bool) (l1 l2 : list A) :
  find f (l1 ++ l2) = match find f l1 with
                      | Some x => Some x
                      | None => find f l2
                      end.
Proof.
  induction l1 as [|a l1 IH]; simpl; [reflexivity|].
  destruct (f a); [reflexivity | exact IH].
Qed.

Lemma find_map {A B : Type} (g : A -> B) (f : B -> bool) (l : list A) :
  find f (map g l) = option_map g (find (fun a => f (g a)) l).
Proof.
  induction l as [|a l IH]; simpl; [reflexivity|].
  destruct (f (g a)); [reflexivity | exact IH].
Qed.

Lemma find_ext_in {A : Type} (f g : A -> bool) (l : list A) :
  (forall a, In a l -> f a = g a) -> find f l = find g l.
Proof.
  induction l as [|a l IH]; simpl; intros H; [reflexivity|].
  rewrite (H a) by now left.
  destruct (g a); [reflexivity|]. apply IH. intros b Hb. apply H. now right.
Qed.

Lemma find_none_iff {A : Type} (f : A -> bool) (l : list A) :
  find f l = None <-> forall a, In a l -> f a = false.
Proof.
  split; [apply find_none|].
  induction l as [|a l IH]; simpl; intros H; [reflexivity|].
  rewrite (H a) by now left. apply IH. intros b Hb. apply H. now right.
Qed.

(** A sub-tree occupies a segment of the tree order. *)
Lemma nodes_segment (t : node) :
  forall b, In b (nodes t) -> exists l1 l2, nodes t = l1 ++ nodes b ++ l2.
Proof.
  induction t as [u a s ks IH] using node_induction. intros b Hb.
  rewrite nodes_Element in Hb. destruct Hb as [<-|Hb].
  - exists [], []. now rewrite app_nil_r.
  - assert (L : exists l1 l2, flat_map nodes ks = l1 ++ nodes b ++ l2).
    { induction ks as [|k ks IHks]; [contradiction|].
      inversion IH as [|? ? Hk Hks]; subst. cbn [flat_map] in Hb |- *.
      apply in_app_or in Hb. destruct Hb as [Hb|Hb].
      - destruct (Hk b Hb) as (l1 & l2 & E).
        exists l1, (l2 ++ flat_map nodes ks).
        rewrite E. now rewrite <- !app_assoc.
      - destruct (IHks Hks Hb) as (l1 & l2 & E).
        exists (nodes k ++ l1), l2.
        rewrite E. now rewrite <- !app_assoc. }
    destruct L as (l1 & l2 & E).
    exists (Element u a s ks :: l1), l2.
    rewrite nodes_Element, E. reflexivity.
Qed.

Lemma NoDup_app_parts {A : Type} (l1 l2 : list A) :
  NoDup (l1 ++ l2) -> NoDup l1 /\ NoDup l2.
Proof.
  induction l1 as [|a l1 IH]; simpl; intros H.
  - split; [constructor | exact H].
  - inversion H as [|? ? Hn Hd]; subst. destruct (IH Hd) as [H1 H2].
    split; [|exact H2]. constructor; [|exact H1].
    intros Hin. apply Hn. apply in_or_app. now left.
Qed.

Lemma NoDup_ids_subtree (t b : node) :
  NoDup (ids t) -> In b (nodes t) -> NoDup (ids b).
Proof.
  intros Hd Hb. destruct (nodes_segment t b Hb) as (l1 & l2 & E).
  unfold ids in *. rewrite E, !map_app in Hd.
  apply NoDup_app_parts in Hd. destruct Hd as [_ Hd].
  apply NoDup_app_parts in Hd. tauto.
Qed.

Lemma NoDup_map_injective {A B : Type} (f : A -> B) (l : list A) :
  NoDup (map f l) ->
  forall x y, In x l -> In y l -> f x = f y -> x = y.
Proof.
  induction l as [|a l IH]; simpl; intros Hd x y Hx Hy E; [contradiction|].
  inversion Hd as [|? ? Hn Hd']; subst.
  destruct Hx as [<-|Hx], Hy as [<-|Hy].
  - reflexivity.
  - exfalso. apply Hn. rewrite E. now apply in_map.
  - exfalso. apply Hn. rewrite <- E. now apply in_map.
  - now apply IH.
Qed.

Lemma descendants_in_nodes (t n : node) : In n (descendants t) -> In n (nodes t).
Proof. intros H. now right. Qed.

Lemma get_node_some (u : nat) (t n : node) :
  get_node u t = Some n -> In n (nodes t) /\ uid n = u.
Proof.
  intros H. apply find_some in H. destruct H as [H E].
  split; [exact H | now apply Nat.eqb_eq].
Qed.

Lemma get_node_in (u : nat) (t : node) :
  In u (ids t) -> exists n, get_node u t = Some n.
Proof.
  intros H. unfold get_node. destruct (find _ _) as [n|] eqn:E; [now exists n|].
  exfalso. apply in_map_iff in H. destruct H as (m & Hm & Hin).
  pose proof (find_none _ _ E m Hin) as F. simpl in F.
  rewrite Hm, Nat.eqb_refl in F. discriminate.
Qed.

Lemma get_node_unique (t n : node) :
  NoDup (ids t) -> In n (nodes t) -> get_node (uid n) t = Some n.
Proof.
  intros Hd Hn.
  destruct (get_node_in (uid n) t) as [m Hm]; [now apply in_map|].
  destruct (get_node_some _ _ _ Hm) as [Hin E].
  now rewrite (NoDup_map_injective uid _ Hd m n Hin Hn E) in Hm.
Qed.

(** ** The functions that may find nothing to do *)

Lemma querySelector_no_badge (columnId : option string) (document : node) :
  no_badge columnId document ->
  querySelector (AttrEq "data-column-count" (template columnId)) document = None.
Proof.
  intros H. unfold querySelector. apply find_none_iff. intros n Hn.
  specialize (H n Hn). unfold matches.
  destruct (getAttribute "data-column-count" n) as [v|]; [|reflexivity].
  destruct (String.eqb_spec v (template columnId)) as [->|]; [|reflexivity].
  now contradiction H.
Qed.

Lemma updateBadgeCount_no_badge (columnId : option string) (count : value) (p : page) :
  selector_safe (template columnId) = true ->
  no_badge columnId (dom p) -> updateBadgeCount columnId count p = Returned tt p.
Proof.
  intros Safe H. unfold updateBadgeCount, badge_selector. rewrite Safe.
  now rewrite querySelector_no_badge.
Qed.


Lemma NoBadge_nothing_counts (columnId : option string) : no_badge columnId NoBadge.body.
Proof.
  intros n Hn. simpl in Hn.
  repeat (destruct Hn as [<-|Hn]; [discriminate|]). contradiction.
Qed.


(** C9.  With no drag session recorded ([originalColumn] or
    [draggedElement] is [null]) [revertMove] returns normally and changes
    nothing on the page. *)
Theorem revertMove_without_session (evt : SortableEvent) (p : page) :
  originalColumn p = None \/ draggedElement p = None ->
  revertMove evt p = Returned tt p.
Proof.
  intros [H|H]; unfold revertMove; rewrite H; [reflexivity|].
  now destruct (originalColumn p).
Qed.

Lemma revertMove_without_session_witness :
  revertMove Board.T1_to_doing Board.start = Returned tt Board.start.
Proof.
  apply revertMove_without_session. left. reflexivity.
Defined.

(** ** Initialisation *)

Lemma forEach_new_Sortable (token endpoint : string) (columns : list node) (p : page) :
  forEach columns
    (fun column =>
       match dataset_canDrag column with
       | Some flag =>
           if flag =? "true"
           then new_Sortable (mkSortable (uid column) "shared" token endpoint)
           else ret tt
       | None => ret tt
       end) p
  = Returned tt
      (with_sortables
         (map (fun column => mkSortable (uid column) "shared" token endpoint)
              (filter can_drag columns)) p).
Proof.
  revert p. induction columns as [|c columns IH]; intros p.
  - simpl. unfold ret, with_sortables. rewrite app_nil_r. now destruct p.
  - cbn [forEach filter]. unfold bind, can_drag at 1.
    destruct (dataset_canDrag c) as [flag|].
    + destruct (flag =? "true")%string.
      * unfold new_Sortable at 1. rewrite IH. unfold with_sortables. simpl.
        now rewrite <- app_assoc.
      * unfold ret at 1. apply IH.
    + unfold ret at 1. apply IH.
Qed.

Lemma can_drag_true (column : node) :
  can_drag column = true <-> dataset_canDrag column = Some "true".
Proof.
  unfold can_drag. destruct (dataset_canDrag column) as [flag|].
  - destruct (String.eqb_spec flag "true") as [->|N]; split; intros H;
      try reflexivity; try discriminate. injection H as ->. now contradiction N.
  - split; discriminate.
Qed.

(** C8.  For a board id that names no element, [initializeKanbanBoard]
    returns and leaves the page (tree and [Sortable] instances) as it was.
    For a board that exists, the tree stays as it was and the [Sortable]
    instances created are those of the columns below the board whose
    [data-can-drag] is ["true"]: a column below the board has one if and
    only if its flag is ["true"]. *)
Theorem initializeKanbanBoard_registers (boardId token endpoint : string) (p : page) :
  (getElementById boardId (dom p) = None ->
   initializeKanbanBoard boardId token endpoint p = Returned tt p)
  /\ (forall board,
         getElementById boardId (dom p) = Some board ->
         NoDup (ids (dom p)) ->
         exists added,
           initializeKanbanBoard boardId token endpoint p
           = Returned tt (with_sortables added p)
           /\ (forall s, In s added ->
                         group s = "shared" /\ csrfToken s = token
                         /\ moveEndpoint s = endpoint
                         /\ In (el s) (map uid (querySelectorAll (HasAttr "data-column-id") board)))
           /\ (forall column,
                  In column (querySelectorAll (HasAttr "data-column-id") board) ->
                  (In (uid column) (map el added)
                   <-> dataset_canDrag column = Some "true"))).
Proof.
  split.
  - intros H. unfold initializeKanbanBoard. now rewrite H.
  - intros board H Hd. unfold initializeKanbanBoard. rewrite H.
    set (columns := querySelectorAll (HasAttr "data-column-id") board).
    exists (map (fun column => mkSortable (uid column) "shared" token endpoint)
                (filter can_drag columns)).
    split; [apply forEach_new_Sortable|]. split.
    + intros s Hs. apply in_map_iff in Hs. destruct Hs as (c & <- & Hc).
      simpl. repeat split. apply in_map. now apply filter_In in Hc.
    + intros column Hc. rewrite map_map. simpl. rewrite <- can_drag_true.
      assert (Hb : In board (nodes (dom p))).
      { unfold getElementById in H. destruct (boardId =? "")%string; [discriminate|].
        now apply find_some in H. }
      assert (Hin : forall c, In c columns -> In c (nodes (dom p))).
      { intros c Hin. apply filter_In in Hin. destruct Hin as [Hin _].
        destruct (nodes_segment _ _ Hb) as (l1 & l2 & E). rewrite E.
        apply in_or_app. right. apply in_or_app. left. now right. }
      split.
      * intros Hu. apply in_map_iff in Hu. destruct Hu as (c & E & Hf).
        apply filter_In in Hf. destruct Hf as [Hf Hflag].
        now rewrite <- (NoDup_map_injective uid _ Hd c column (Hin c Hf) (Hin column Hc) E).
      * intros Hflag. apply in_map. apply filter_In. now split.
Qed.

Lemma initializeKanbanBoard_registers_witness :
  initializeKanbanBoard "nowhere" "tok" "/tasks/{taskId}/move/" Board.start
  = Returned tt Board.start
  /\ exists added,
      initializeKanbanBoard "board" "tok" "/tasks/{taskId}/move/" Board.start
      = Returned tt (with_sortables added Board.start)
      /\ In 2 (map el added).
Proof.
  split.
  - apply initializeKanbanBoard_registers. reflexivity.
  - destruct (initializeKanbanBoard_registers "board" "tok" "/tasks/{taskId}/move/"
                Board.start) as [_ H].
    destruct (H (Element 1 [("id", "board")] ""
                   [Board.badge 10 "todo" "3";
                    Board.column 2 "todo"
                      [Board.task 21 "T1"; Board.task 22 "T2"; Board.task 23 "T3"];
                    Board.badge 11 "doing" "1";
                    Board.column 3 "doing" [Board.task 31 "T4"]]))
      as (added & E & _ & Hiff).
    + reflexivity.
    + repeat constructor; simpl; intuition discriminate.
    + exists added. split; [exact E|].
      apply (Hiff (Board.column 2 "todo"
                     [Board.task 21 "T1"; Board.task 22 "T2"; Board.task 23 "T3"])).
      * simpl. now left.
      * reflexivity.
Defined.

(** ** What the element queries see: the skeleton *)

Lemma uid_skeleton (n : node) : uid (skeleton n) = uid n.
Proof. now destruct n. Qed.

Lemma attributes_skeleton (n : node) : attributes (skeleton n) = attributes n.
Proof. now destruct n. Qed.

Lemma children_skeleton (n : node) : children (skeleton n) = map skeleton (children n).
Proof. now destruct n. Qed.

Lemma matches_skeleton (sel : selector) (n : node) :
  matches sel (skeleton n) = matches sel n.
Proof. destruct sel; unfold matches, getAttribute; now rewrite attributes_skeleton. Qed.

Lemma flat_map_map {A B C : Type} (g : A -> B) (f : B -> list C) (l : list A) :
  flat_map f (map g l) = flat_map (fun a => f (g a)) l.
Proof.
  induction l as [|a l IH]; simpl; [reflexivity | now rewrite IH].
Qed.

Lemma flat_map_ext_Forall {A B : Type} (f g : A -> list B) (l : list A) :
  Forall (fun a => f a = g a) l -> flat_map f l = flat_map g l.
Proof.
  induction 1 as [|a l E _ IH]; simpl; [reflexivity | now rewrite E, IH].
Qed.

Lemma nodes_skeleton (t : node) : nodes (skeleton t) = map skeleton (nodes t).
Proof.
  induction t as [u a s ks IH] using node_induction.
  cbn [skeleton]. rewrite !nodes_Element, map_cons. f_equal.
  rewrite flat_map_map, map_flat_map. now apply flat_map_ext_Forall.
Qed.

Lemma descendants_skeleton (t : node) :
  descendants (skeleton t) = map skeleton (descendants t).
Proof.
  pose proof (nodes_skeleton t) as H. unfold nodes in H.
  rewrite map_cons in H. now injection H.
Qed.

Lemma ids_skeleton (t : node) : ids (skeleton t) = ids t.
Proof.
  unfold ids. rewrite nodes_skeleton, map_map.
  apply map_ext. apply uid_skeleton.
Qed.

Lemma get_node_skeleton (u : nat) (t : node) :
  get_node u (skeleton t) = option_map skeleton (get_node u t).
Proof.
  unfold get_node. rewrite nodes_skeleton, find_map.
  f_equal. apply find_ext_in. intros n _. now rewrite uid_skeleton.
Qed.

Lemma querySelector_skeleton (sel : selector) (t : node) :
  querySelector sel (skeleton t) = option_map skeleton (querySelector sel t).
Proof.
  unfold querySelector. rewrite nodes_skeleton, find_map.
  f_equal. apply find_ext_in. intros n _. apply matches_skeleton.
Qed.

Lemma length_filter_map {A B : Type} (g : A -> B) (f : B -> bool) (l : list A) :
  List.length (filter f (map g l)) = List.length (filter (fun a => f (g a)) l).
Proof.
  induction l as [|a l IH]; simpl; [reflexivity|].
  destruct (f (g a)); simpl; now rewrite IH.
Qed.

Lemma count_skeleton (sel : selector) (n : node) :
  List.length (querySelectorAll sel (skeleton n)) = List.length (querySelectorAll sel n).
Proof.
  unfold querySelectorAll. rewrite descendants_skeleton, length_filter_map.
  f_equal. apply filter_ext. intros x. apply matches_skeleton.
Qed.

(** Two trees with one skeleton answer the element queries alike. *)
Lemma same_skeleton_get_node (u : nat) (t t' n : node) :
  skeleton t' = skeleton t ->
  get_node u t = Some n ->
  exists n', get_node u t' = Some n' /\ skeleton n' = skeleton n.
Proof.
  intros E H. pose proof (get_node_skeleton u t') as H'.
  rewrite E, get_node_skeleton, H in H'. simpl in H'.
  destruct (get_node u t') as [n'|]; [|discriminate].
  exists n'. split; [reflexivity | now injection H'].
Qed.

Lemma same_skeleton_count (sel : selector) (n n' : node) :
  skeleton n' = skeleton n ->
  List.length (querySelectorAll sel n') = List.length (querySelectorAll sel n).
Proof.
  intros E. now rewrite <- (count_skeleton sel n'), E, count_skeleton.
Qed.

Lemma same_skeleton_attributes (n n' : node) :
  skeleton n' = skeleton n -> attributes n' = attributes n.
Proof.
  intros E. now rewrite <- (attributes_skeleton n'), E, attributes_skeleton.
Qed.

Lemma same_skeleton_children (n n' : node) :
  skeleton n' = skeleton n -> map uid (children n') = map uid (children n).
Proof.
  intros E.
  assert (H : forall m, map uid (children (skeleton m)) = map uid (children m)).
  { intros m. rewrite children_skeleton, map_map. apply map_ext, uid_skeleton. }
  now rewrite <- (H n'), E, H.
Qed.

(** ** Writing a text *)

Lemma uid_set_textContent (b : nat) (s : string) (n : node) :
  uid (set_textContent b s n) = uid n.
Proof. destruct n as [u a t ks]. simpl. now destruct (Nat.eqb u b). Qed.

Lemma attributes_set_textContent (b : nat) (s : string) (n : node) :
  attributes (set_textContent b s n) = attributes n.
Proof. destruct n as [u a t ks]. simpl. now destruct (Nat.eqb u b). Qed.

Lemma matches_set_textContent (sel : selector) (b : nat) (s : string) (n : node) :
  matches sel (set_textContent b s n) = matches sel n.
Proof.
  destruct sel; unfold matches, getAttribute; now rewrite attributes_set_textContent.
Qed.

Lemma leaf_at_child (b u : nat) a s ks k :
  leaf_at b (Element u a s ks) -> In k ks -> leaf_at b k.
Proof.
  intros H Hk n Hn. apply H. rewrite nodes_Element. right.
  apply in_flat_map. now exists k.
Qed.

Lemma Forall_impl_in {A : Type} (P Q : A -> Prop) (l : list A) :
  (forall a, In a l -> P a -> Q a) -> Forall P l -> Forall Q l.
Proof.
  intros H F. apply Forall_forall. intros a Ha.
  apply H; [exact Ha|]. now apply (proj1 (Forall_forall P l) F).
Qed.

Lemma nodes_set_textContent (b : nat) (s : string) (t : node) :
  leaf_at b t ->
  nodes (set_textContent b s t) = map (set_textContent b s) (nodes t).
Proof.
  induction t as [u a x ks IH] using node_induction. intros L.
  rewrite nodes_Element, map_cons. cbn [set_textContent].
  destruct (Nat.eqb_spec u b) as [E|N].
  - assert (K : ks = []) by (apply (L (Element u a x ks)); [now left | exact E]).
    subst ks. cbn [set_textContent]. destruct (Nat.eqb_spec u b); [|contradiction].
    reflexivity.
  - rewrite nodes_Element. f_equal.
    rewrite flat_map_map, map_flat_map. apply flat_map_ext_Forall.
    apply (Forall_impl_in _ _ ks (fun k Hk H => H (leaf_at_child b u a x ks k L Hk)) IH).
Qed.

Lemma skeleton_set_textContent (b : nat) (s : string) (t : node) :
  leaf_at b t -> skeleton (set_textContent b s t) = skeleton t.
Proof.
  induction t as [u a x ks IH] using node_induction. intros L.
  cbn [set_textContent]. destruct (Nat.eqb_spec u b) as [E|N].
  - assert (K : ks = []) by (apply (L (Element u a x ks)); [now left | exact E]).
    now subst ks.
  - cbn [skeleton]. f_equal. rewrite map_map. apply map_ext_Forall.
    apply (Forall_impl_in _ _ ks (fun k Hk H => H (leaf_at_child b u a x ks k L Hk)) IH).
Qed.

Lemma get_node_set_textContent (b : nat) (s : string) (u : nat) (t : node) :
  leaf_at b t ->
  get_node u (set_textContent b s t) = option_map (set_textContent b s) (get_node u t).
Proof.
  intros L. unfold get_node. rewrite nodes_set_textContent, find_map by exact L.
  f_equal. apply find_ext_in. intros n _. now rewrite uid_set_textContent.
Qed.

Lemma querySelector_set_textContent (b : nat) (s : string) (sel : selector) (t : node) :
  leaf_at b t ->
  querySelector sel (set_textContent b s t)
  = option_map (set_textContent b s) (querySelector sel t).
Proof.
  intros L. unfold querySelector. rewrite nodes_set_textContent, find_map by exact L.
  f_equal. apply find_ext_in. intros n _. apply matches_set_textContent.
Qed.

Lemma set_textContent_leaf (b : nat) (s : string) (n : node) :
  children n = [] ->
  set_textContent b s n
  = if Nat.eqb (uid n) b then Element (uid n) (attributes n) s [] else n.
Proof.
  destruct n as [u a x ks]. simpl. intros ->. now destruct (Nat.eqb u b).
Qed.

(** *** Well-formed documents *)

Lemma nodupb_NoDup (l : list nat) : nodupb l = true -> NoDup l.
Proof.
  induction l as [|x l IH]; simpl; intros H; [constructor|].
  apply andb_prop in H. destruct H as [H1 H2]. constructor; [|now apply IH].
  intros Hin. apply negb_true_iff in H1.
  assert (E : existsb (Nat.eqb x) l = true).
  { apply existsb_exists. exists x. split; [exact Hin | apply Nat.eqb_refl]. }
  congruence.
Qed.

Lemma well_formedb_sound (document : node) :
  well_formedb document = true -> well_formed document.
Proof.
  unfold well_formedb, well_formed, badges_are_leaves. intros H.
  apply andb_prop in H. destruct H as [H1 H2]. split; [now apply nodupb_NoDup|].
  intros n Hn Hb. pose proof (proj1 (forallb_forall _ _) H2 n Hn) as F.
  cbv beta in F. rewrite Hb in F. simpl in F. now destruct (children n).
Qed.

Lemma matches_AttrEq_badge (v : string) (n : node) :
  matches (AttrEq "data-column-count" v) n = true ->
  is_badge n = true /\ getAttribute "data-column-count" n = Some v.
Proof.
  unfold is_badge, matches.
  destruct (getAttribute "data-column-count" n) as [v'|]; [|discriminate].
  intros H. apply String.eqb_eq in H. now subst.
Qed.

(** In a well-formed document the badge found for a column id is the one
    element with its handle, and it is childless. *)
Lemma well_formed_badge (v : string) (document badge : node) :
  well_formed document ->
  querySelector (AttrEq "data-column-count" v) document = Some badge ->
  leaf_at (uid badge) document /\ children badge = []
  /\ getAttribute "data-column-count" badge = Some v
  /\ get_node (uid badge) document = Some badge.
Proof.
  intros [Hd Hl] H. apply find_some in H. destruct H as [Hin Hm].
  apply matches_AttrEq_badge in Hm. destruct Hm as [Hb Ha].
  repeat split.
  - intros n Hn E.
    rewrite (NoDup_map_injective uid _ Hd n badge Hn Hin E). now apply Hl.
  - now apply Hl.
  - exact Ha.
  - now apply get_node_unique.
Qed.

Lemma well_formed_set_textContent (b : nat) (s : string) (document : node) :
  well_formed document -> leaf_at b document ->
  well_formed (set_textContent b s document).
Proof.
  intros [Hd Hl] L. split.
  - rewrite <- ids_skeleton, skeleton_set_textContent, ids_skeleton by exact L.
    exact Hd.
  - intros n Hn Hb. rewrite nodes_set_textContent in Hn by exact L.
    apply in_map_iff in Hn. destruct Hn as (m & <- & Hm).
    unfold is_badge in Hb. rewrite matches_set_textContent in Hb.
    rewrite set_textContent_leaf by now apply Hl.
    destruct (Nat.eqb (uid m) b); [reflexivity | now apply Hl].
Qed.

Lemma with_dom_same (p : page) : with_dom (dom p) p = p.
Proof. now destruct p. Qed.

(** *** Documents within the model *)

Lemma modelledb_sound (document : node) : modelledb document = true -> modelled document.
Proof.
  unfold modelledb, modelled. intros H. apply andb_prop in H. destruct H as [H1 H2].
  split.
  - intros n Hn. exact (proj1 (forallb_forall _ _) H1 n Hn).
  - now apply Z.leb_le.
Qed.

Lemma dataset_columnId_attributes (n n' : node) :
  attributes n' = attributes n -> column_key n' = column_key n.
Proof.
  intros E. unfold column_key, dataset_columnId, getAttribute. now rewrite E.
Qed.

Lemma modelled_skeleton (d d' : node) :
  skeleton d' = skeleton d -> modelled d -> modelled d'.
Proof.
  intros E [Safe Small].
  assert (N : map skeleton (nodes d') = map skeleton (nodes d)).
  { now rewrite <- !nodes_skeleton, E. }
  split.
  - intros n' Hn'.
    assert (H : In (skeleton n') (map skeleton (nodes d))).
    { rewrite <- N. now apply in_map. }
    apply in_map_iff in H. destruct H as (n & En & Hn).
    rewrite (dataset_columnId_attributes n n'); [now apply Safe|].
    now rewrite <- (attributes_skeleton n'), <- En, attributes_skeleton.
  - rewrite <- (length_map skeleton), N, length_map. exact Small.
Qed.

Lemma modelled_key (d : node) (u : nat) (n : node) :
  modelled d -> get_node u d = Some n -> selector_safe (column_key n) = true.
Proof.
  intros [Safe _] G. apply Safe. now apply (get_node_some u d n).
Qed.

(** A count of elements below an element of the document is a number the
    model prints. *)
Lemma modelled_count (d : node) (u : nat) (column : node) (sel : selector) :
  modelled d -> get_node u d = Some column ->
  (Z.of_nat (List.length (querySelectorAll sel column)) <= max_safe_integer)%Z.
Proof.
  intros [_ Small] G. destruct (get_node_some _ _ _ G) as [Hin _].
  destruct (nodes_segment d column Hin) as (l1 & l2 & E).
  rewrite E, !length_app in Small. unfold querySelectorAll.
  pose proof (filter_length_le (matches sel) (descendants column)) as F.
  unfold nodes in Small. cbn [List.length] in Small. lia.
Qed.

Lemma DOMString_of_number (n : nat) :
  (Z.of_nat n <= max_safe_integer)%Z ->
  DOMString_of (number n) = Converted (string_of_nat n).
Proof.
  intros H. cbn. unfold safe_integer.
  rewrite Z.abs_eq by lia.
  now rewrite (proj2 (Z.leb_le _ _) H).
Qed.

Lemma updateBadgeCount_write (columnId : option string) (count : value) (s : string)
      (p : page) :
  selector_safe (template columnId) = true ->
  DOMString_of count = Converted s ->
  updateBadgeCount columnId count p
  = Returned tt (with_dom (write_badge columnId s (dom p)) p).
Proof.
  intros Safe C. unfold updateBadgeCount, badge_selector, write_badge. rewrite Safe.
  destruct (querySelector _ _); [|now rewrite with_dom_same].
  unfold bind, convert. now rewrite C.
Qed.

(** What one badge update does to a well-formed document. *)
Lemma write_badge_spec (columnId : option string) (shown : string) (document : node) :
  well_formed document ->
  exists f : node -> node,
    write_badge columnId shown document = f document
    /\ well_formed (f document)
    /\ skeleton (f document) = skeleton document
    /\ (forall u, get_node u (f document) = option_map f (get_node u document))
    /\ (forall sel, querySelector sel (f document) = option_map f (querySelector sel document))
    /\ (forall n, attributes (f n) = attributes n)
    /\ (forall n, children n = [] ->
                  getAttribute "data-column-count" n <> Some (template columnId) ->
                  In n (nodes document) -> f n = n)
    /\ (forall n, In n (nodes document) ->
                  getAttribute "data-column-count" n = Some (template columnId) ->
                  querySelector (AttrEq "data-column-count" (template columnId)) document = Some n ->
                  text (f n) = shown).
Proof.
  intros W. unfold write_badge.
  destruct (querySelector _ document) as [badge|] eqn:Q.
  - destruct (well_formed_badge _ _ _ W Q) as (L & K & A & G).
    exists (set_textContent (uid badge) shown).
    split; [reflexivity|].
    split; [now apply well_formed_set_textContent|].
    split; [now apply skeleton_set_textContent|].
    split; [intros u; now apply get_node_set_textContent|].
    split; [intros sel; now apply querySelector_set_textContent|].
    split; [intros n; apply attributes_set_textContent|].
    split.
    + intros n Kn An Hn. rewrite set_textContent_leaf by exact Kn.
      destruct (Nat.eqb_spec (uid n) (uid badge)) as [E|]; [|reflexivity].
      exfalso. apply An. destruct W as [Hd _].
      apply find_some in Q. destruct Q as [Hb _].
      now rewrite (NoDup_map_injective uid _ Hd n badge Hn Hb E).
    + intros n Hn An Qn. injection Qn as <-.
      rewrite set_textContent_leaf by exact K. now rewrite Nat.eqb_refl.
  - exists (fun n => n).
    split; [reflexivity|]. split; [exact W|]. split; [reflexivity|].
    split; [intros u; now destruct (get_node u document)|].
    split; [intros sel; now destruct (querySelector sel document)|].
    split; [reflexivity|]. split; [reflexivity|].
    intros n _ _ Qn. discriminate.
Qed.

(** ** Badges and columns *)

Lemma task_count_skeleton (u : nat) (d d' : node) :
  skeleton d' = skeleton d -> task_count u d' = task_count u d.
Proof.
  intros E. unfold task_count.
  destruct (get_node u d) as [n|] eqn:G.
  - destruct (same_skeleton_get_node u d d' n E G) as (n' & -> & En).
    simpl. f_equal. now apply same_skeleton_count.
  - destruct (get_node u d') as [n'|] eqn:G'; [|reflexivity].
    destruct (same_skeleton_get_node u d' d n' (eq_sym E) G') as (n & Gn & _).
    congruence.
Qed.

(** One badge update, seen from the columns. *)
Lemma write_badge_column (shown : string) (c : nat) (column : node) (d : node) :
  well_formed d ->
  get_node c d = Some column ->
  let d' := write_badge (dataset_columnId column) shown d in
  well_formed d'
  /\ skeleton d' = skeleton d
  /\ (forall s, displayed_count c d = Some s ->
                displayed_count c d' = Some shown)
  /\ (displayed_count c d = None -> d' = d)
  /\ (forall c2 column2,
         get_node c2 d = Some column2 ->
         column_key column2 <> column_key column ->
         displayed_count c2 d' = displayed_count c2 d).
Proof.
  intros W G d'.
  destruct (write_badge_spec (dataset_columnId column) shown d W)
    as (f & Ef & Wf & Sf & Gf & Qf & Af & Other & Here).
  fold d' in Ef. rewrite Ef.
  split; [exact Wf|]. split; [exact Sf|].
  assert (Key : forall n, template (dataset_columnId (f n)) = template (dataset_columnId n)).
  { intros n. apply (dataset_columnId_attributes n (f n)), Af. }
  unfold column_key, displayed_count, badge_of.
  split; [|split].
  - intros s. rewrite Gf, G. cbn [option_map]. rewrite Key, Qf.
    destruct (querySelector (AttrEq "data-column-count" (template (dataset_columnId column))) d)
      as [badge|] eqn:Q; [|discriminate].
    intros _. cbn [option_map]. f_equal. apply Here; [| |reflexivity].
    + now apply find_some in Q.
    + apply find_some in Q. destruct Q as [_ Q].
      now apply matches_AttrEq_badge in Q.
  - rewrite G. intros H.
    rewrite <- Ef. unfold d', write_badge.
    destruct (querySelector _ d); [discriminate | reflexivity].
  - intros c2 column2 G2 N.
    rewrite Gf, G2. cbn [option_map]. rewrite Key, Qf.
    destruct (querySelector (AttrEq "data-column-count" (template (dataset_columnId column2))) d)
      as [badge|] eqn:Q; [|reflexivity].
    cbn [option_map]. f_equal. f_equal. apply find_some in Q. destruct Q as [Hin Hm].
    apply matches_AttrEq_badge in Hm. destruct Hm as [Hb Ha].
    apply Other.
    + destruct W as [_ Hl]. now apply Hl.
    + rewrite Ha. intros E. apply N. now injection E.
    + exact Hin.
Qed.

Lemma shows_task_count_same (u : nat) (d d' : node) :
  skeleton d' = skeleton d ->
  displayed_count u d' = displayed_count u d ->
  shows_task_count u d -> shows_task_count u d'.
Proof.
  intros E D H s Hs. rewrite D in Hs. destruct (H s Hs) as (n & T & ->).
  exists n. split; [|reflexivity]. now rewrite (task_count_skeleton u d d' E).
Qed.

Lemma write_badge_shows (c : nat) (column : node) (d : node) :
  well_formed d ->
  get_node c d = Some column ->
  shows_task_count c
    (write_badge (dataset_columnId column)
                 (string_of_nat (List.length (querySelectorAll (HasAttr "data-task-id") column)))
                 d).
Proof.
  intros W G s Hs.
  destruct (write_badge_column
              (string_of_nat (List.length (querySelectorAll (HasAttr "data-task-id") column)))
              c column d W G) as (_ & S & Shown & Same & _).
  exists (List.length (querySelectorAll (HasAttr "data-task-id") column)). split.
  - rewrite (task_count_skeleton c d _ S). unfold task_count. now rewrite G.
  - destruct (displayed_count c d) as [s0|] eqn:D.
    + rewrite (Shown s0 eq_refl) in Hs. now injection Hs as <-.
    + rewrite (Same eq_refl), D in Hs. discriminate.
Qed.

Lemma with_dom_with_dom (d d' : node) (p : page) :
  with_dom d' (with_dom d p) = with_dom d' p.
Proof. reflexivity. Qed.

Lemma dom_with_dom (d : node) (p : page) : dom (with_dom d p) = d.
Proof. reflexivity. Qed.

(** The count of the task elements of a column, written into its badge. *)
Lemma updateBadgeCount_count (u : nat) (column : node) (p : page) :
  modelled (dom p) ->
  get_node u (dom p) = Some column ->
  updateBadgeCount (dataset_columnId column)
    (number (List.length (querySelectorAll (HasAttr "data-task-id") column))) p
  = Returned tt
      (with_dom
         (write_badge (dataset_columnId column)
            (string_of_nat (List.length (querySelectorAll (HasAttr "data-task-id") column)))
            (dom p)) p).
Proof.
  intros Mo G. apply updateBadgeCount_write.
  - exact (modelled_key _ _ _ Mo G).
  - apply DOMString_of_number. exact (modelled_count _ _ _ _ Mo G).
Qed.

(** [updateColumnCounts] on two columns of a well-formed document: it
    returns, only texts change, and each of the two badges shows the
    number of task elements in its column. *)
Lemma updateColumnCounts_spec (f t : nat) (fromNode toNode : node) (p : page) :
  well_formed (dom p) ->
  modelled (dom p) ->
  get_node f (dom p) = Some fromNode ->
  get_node t (dom p) = Some toNode ->
  exists d',
    updateColumnCounts (Some f) (Some t) p = Returned tt (with_dom d' p)
    /\ well_formed d'
    /\ skeleton d' = skeleton (dom p)
    /\ ((f <> t -> column_key fromNode <> column_key toNode) ->
        shows_task_count f d')
    /\ shows_task_count t d'.
Proof.
  intros W Mo Gf Gt.
  unfold updateColumnCounts, bind, resolve, ret. rewrite Gf.
  rewrite (updateBadgeCount_count f fromNode p Mo Gf).
  set (d1 := write_badge (dataset_columnId fromNode) _ (dom p)).
  destruct (write_badge_column
              (string_of_nat (List.length (querySelectorAll (HasAttr "data-task-id") fromNode)))
              f fromNode (dom p) W Gf) as (W1 & S1 & _ & _ & Other1).
  fold d1 in W1, S1, Other1.
  pose proof (write_badge_shows f fromNode (dom p) W Gf) as Sh1. fold d1 in Sh1.
  cbn [same_handle]. destruct (Nat.eqb_spec t f) as [->|N]; cbn [negb].
  - exists d1. split; [reflexivity|]. split; [exact W1|]. split; [exact S1|].
    split; [intros _|]; exact Sh1.
  - rewrite dom_with_dom.
    destruct (same_skeleton_get_node t (dom p) d1 toNode S1 Gt) as (toNode1 & Gt1 & St1).
    destruct (same_skeleton_get_node f (dom p) d1 fromNode S1 Gf) as (fromNode1 & Gf1 & Sf1).
    rewrite Gt1.
    rewrite (updateBadgeCount_count t toNode1 (with_dom d1 p)
               (modelled_skeleton _ _ S1 Mo) Gt1).
    rewrite dom_with_dom, with_dom_with_dom.
    set (d2 := write_badge (dataset_columnId toNode1) _ d1).
    destruct (write_badge_column
                (string_of_nat (List.length (querySelectorAll (HasAttr "data-task-id") toNode1)))
                t toNode1 d1 W1 Gt1) as (W2 & S2 & _ & _ & Other2).
    fold d2 in W2, S2, Other2.
    exists d2. split; [reflexivity|]. split; [exact W2|].
    split; [now rewrite S2|]. split.
    + intros K. apply (shows_task_count_same f d1 d2 S2); [|exact Sh1].
      apply (Other2 f fromNode1 Gf1).
      rewrite (dataset_columnId_attributes _ _ (same_skeleton_attributes _ _ Sf1)).
      rewrite (dataset_columnId_attributes _ _ (same_skeleton_attributes _ _ St1)).
      apply K. congruence.
    + apply (write_badge_shows t toNode1 d1 W1 Gt1).
Qed.

(** ** Moving an element *)

Lemma table_Element u a s ks :
  table (Element u a s ks) = (u, a) :: flat_map table ks.
Proof.
  unfold table at 1. rewrite nodes_Element, map_cons, map_flat_map. reflexivity.
Qed.

Lemma ids_table (t : node) : ids t = map fst (table t).
Proof. unfold ids, table. rewrite map_map. reflexivity. Qed.

Lemma uid_detach (x : nat) (n : node) : uid (detach x n) = uid n.
Proof. now destruct n. Qed.

Lemma attributes_detach (x : nat) (n : node) : attributes (detach x n) = attributes n.
Proof. now destruct n. Qed.

Lemma detach_Element x u a s ks :
  detach x (Element u a s ks) = Element u a s (detach_all x ks).
Proof. reflexivity. Qed.

Lemma detach_all_cons x k ks :
  detach_all x (k :: ks)
  = if Nat.eqb (uid k) x then detach_all x ks else detach x k :: detach_all x ks.
Proof. unfold detach_all. simpl. now destruct (Nat.eqb (uid k) x). Qed.

Lemma find_uid_none (x : nat) (l : list node) :
  find (fun n => Nat.eqb (uid n) x) l = None <-> ~ In x (map uid l).
Proof.
  rewrite find_none_iff. split.
  - intros H Hin. apply in_map_iff in Hin. destruct Hin as (n & E & Hn).
    specialize (H n Hn). simpl in H. rewrite E, Nat.eqb_refl in H. discriminate.
  - intros H n Hn. apply Nat.eqb_neq. intros E. apply H. rewrite <- E.
    now apply in_map.
Qed.

Lemma get_node_none (x : nat) (t : node) : get_node x t = None <-> ~ In x (ids t).
Proof. apply find_uid_none. Qed.

Lemma ids_flat_nodes (ks : list node) :
  map uid (flat_map nodes ks) = flat_map ids ks.
Proof. apply map_flat_map. Qed.

Lemma in_ids_Element x u a s ks :
  In x (ids (Element u a s ks)) <-> u = x \/ In x (flat_map ids ks).
Proof. rewrite ids_Element. reflexivity. Qed.

Lemma in_flat_ids_cons x k ks :
  In x (flat_map ids (k :: ks)) <-> In x (ids k) \/ In x (flat_map ids ks).
Proof. cbn [flat_map]. apply in_app_iff. Qed.

(** An element that is not in the tree cannot be detached from it. *)
Lemma detach_absent (x : nat) (t : node) : ~ In x (ids t) -> detach x t = t.
Proof.
  induction t as [u a s ks IH] using node_induction. intros H.
  rewrite detach_Element. f_equal.
  rewrite in_ids_Element in H.
  assert (Hks : ~ In x (flat_map ids ks)) by tauto. clear H.
  induction ks as [|k ks IHks]; [reflexivity|].
  inversion IH as [|? ? Hk Hrest]; subst.
  rewrite in_flat_ids_cons in Hks. rewrite detach_all_cons.
  destruct (Nat.eqb_spec (uid k) x) as [E|N].
  - exfalso. apply Hks. left. unfold ids, nodes. left. exact E.
  - rewrite Hk by tauto. f_equal. apply IHks; tauto.
Qed.

Lemma detach_all_absent (x : nat) (ks : list node) :
  ~ In x (flat_map ids ks) -> detach_all x ks = ks.
Proof.
  induction ks as [|k ks IH]; intros H; [reflexivity|].
  rewrite in_flat_ids_cons in H. rewrite detach_all_cons.
  destruct (Nat.eqb_spec (uid k) x) as [E|_].
  - exfalso. apply H. left. left. exact E.
  - rewrite detach_absent by tauto. f_equal. apply IH. tauto.
Qed.

Lemma NoDup_app_disjoint {A : Type} (l1 l2 : list A) (a : A) :
  NoDup (l1 ++ l2) -> In a l1 -> ~ In a l2.
Proof.
  induction l1 as [|b l1 IH]; simpl; intros Hd H1 H2; [contradiction|].
  inversion Hd as [|? ? Hn Hd']; subst. destruct H1 as [->|H1].
  - apply Hn. apply in_or_app. now right.
  - now apply IH.
Qed.

Lemma get_node_Element_other x u a s ks :
  u <> x ->
  get_node x (Element u a s ks)
  = find (fun n => Nat.eqb (uid n) x) (flat_map nodes ks).
Proof.
  intros N. unfold get_node. rewrite nodes_Element. cbn [find uid].
  now destruct (Nat.eqb_spec u x).
Qed.

Lemma get_node_self (t : node) : get_node (uid t) t = Some t.
Proof. unfold get_node, nodes. cbn [find]. now rewrite Nat.eqb_refl. Qed.

Lemma find_in_ids (x : nat) (l : list node) (n : node) :
  find (fun m => Nat.eqb (uid m) x) l = Some n -> In x (map uid l).
Proof.
  intros H. apply find_some in H. destruct H as [H E].
  apply Nat.eqb_eq in E. rewrite <- E. now apply in_map.
Qed.

(** Detaching [x] takes the elements of its sub-tree out of the tree and
    leaves every other element with its handle and attributes. *)
Lemma table_detach (x : nat) (t : node) :
  NoDup (ids t) ->
  forall xn, get_node x t = Some xn -> uid t <> x ->
             Permutation (table t) (table (detach x t) ++ table xn).
Proof.
  induction t as [u a s ks IH] using node_induction. intros Hd xn G N.
  cbn [uid] in N. rewrite get_node_Element_other in G by exact N.
  rewrite ids_Element in Hd. apply NoDup_cons_iff in Hd. destruct Hd as [_ Hd].
  rewrite detach_Element, !table_Element. cbn [app]. apply perm_skip.
  induction ks as [|k ks IHks]; [discriminate|].
  inversion IH as [|? ? Hk Hrest]; subst.
  cbn [flat_map] in G, Hd |- *. rewrite find_app in G.
  destruct (NoDup_app_parts _ _ Hd) as [Hdk Hdks].
  rewrite detach_all_cons. destruct (Nat.eqb_spec (uid k) x) as [E|Nk].
  - unfold nodes in G at 1. cbn [find] in G.
    rewrite (proj2 (Nat.eqb_eq _ _) E) in G. injection G as <-.
    rewrite detach_all_absent.
    + apply Permutation_app_comm.
    + apply (NoDup_app_disjoint _ _ x Hd). left. exact E.
  - destruct (find (fun n => Nat.eqb (uid n) x) (nodes k)) as [n|] eqn:Fk.
    + injection G as ->.
      rewrite detach_all_absent
        by (apply (NoDup_app_disjoint _ _ x Hd); now apply find_in_ids in Fk).
      cbn [flat_map]. rewrite (Hk Hdk xn Fk Nk), <- !app_assoc.
      apply Permutation_app_head, Permutation_app_comm.
    + rewrite detach_absent by now apply get_node_none.
      cbn [flat_map]. rewrite <- app_assoc. apply Permutation_app_head.
      now apply IHks.
Qed.

Lemma Permutation_NoDup_map_fst {A B : Type} (l l' : list (A * B)) :
  Permutation l l' -> NoDup (map fst l) -> NoDup (map fst l').
Proof.
  intros P. apply Permutation_NoDup. now apply Permutation_map.
Qed.

Lemma uid_attach c ref x (n : node) : uid (attach c ref x n) = uid n.
Proof. destruct n as [u a s ks]. simpl. now destruct (Nat.eqb u c). Qed.

Lemma attributes_attach c ref x (n : node) :
  attributes (attach c ref x n) = attributes n.
Proof. destruct n as [u a s ks]. simpl. now destruct (Nat.eqb u c). Qed.

Lemma attach_absent c ref x (t : node) : ~ In c (ids t) -> attach c ref x t = t.
Proof.
  induction t as [u a s ks IH] using node_induction. intros H.
  rewrite in_ids_Element in H. cbn [attach].
  destruct (Nat.eqb_spec u c) as [E|N]; [tauto|]. f_equal.
  assert (Hks : ~ In c (flat_map ids ks)) by tauto. clear H.
  induction ks as [|k ks IHks]; [reflexivity|].
  inversion IH as [|? ? Hk Hrest]; subst.
  rewrite in_flat_ids_cons in Hks. cbn [map].
  rewrite Hk by tauto. f_equal. apply IHks; tauto.
Qed.

Lemma insert_before_Permutation ref x (ks : list node) :
  Permutation (insert_before ref x ks) (x :: ks).
Proof.
  induction ks as [|k ks IH]; cbn [insert_before]; [reflexivity|].
  destruct (is_child ref k); [reflexivity|].
  rewrite IH. apply perm_swap.
Qed.

Lemma Permutation_flat_map_list {A B : Type} (f : A -> list B) (l l' : list A) :
  Permutation l l' -> Permutation (flat_map f l) (flat_map f l').
Proof.
  induction 1 as [|a l l' _ IH|a b l|l l' l'' _ IH1 _ IH2]; cbn [flat_map].
  - reflexivity.
  - now apply Permutation_app_head.
  - rewrite !app_assoc. apply Permutation_app_tail, Permutation_app_comm.
  - now transitivity (flat_map f l').
Qed.

(** Attaching [x] below the one element [c] adds the elements of [x] and
    changes no handle or attribute. *)
Lemma table_attach c ref x (t : node) :
  NoDup (ids t) -> In c (ids t) ->
  Permutation (table (attach c ref x t)) (table t ++ table x).
Proof.
  induction t as [u a s ks IH] using node_induction. intros Hd Hc.
  cbn [attach]. destruct (Nat.eqb_spec u c) as [E|N].
  - rewrite !table_Element. cbn [app]. apply perm_skip.
    rewrite (Permutation_flat_map_list table _ _ (insert_before_Permutation ref x ks)).
    cbn [flat_map]. apply Permutation_app_comm.
  - rewrite in_ids_Element in Hc. destruct Hc as [Hc|Hc]; [contradiction|].
    rewrite ids_Element in Hd. apply NoDup_cons_iff in Hd. destruct Hd as [_ Hd].
    rewrite !table_Element. cbn [app]. apply perm_skip.
    induction ks as [|k ks IHks]; [contradiction|].
    inversion IH as [|? ? Hk Hrest]; subst.
    cbn [flat_map map] in Hd |- *.
    destruct (NoDup_app_parts _ _ Hd) as [Hdk Hdks].
    rewrite in_flat_ids_cons in Hc. destruct Hc as [Hc|Hc].
    + assert (Hmap : map (attach c ref x) ks = ks).
      { pose proof (NoDup_app_disjoint _ _ c Hd Hc) as Hn. clear - Hn.
        induction ks as [|k' ks IH]; [reflexivity|].
        rewrite in_flat_ids_cons in Hn. cbn [map].
        rewrite attach_absent by tauto. f_equal. apply IH. tauto. }
      rewrite Hmap, (Hk Hdk Hc), <- !app_assoc.
      apply Permutation_app_head, Permutation_app_comm.
    + assert (Hn : ~ In c (ids k)).
      { intros Hin. now apply (NoDup_app_disjoint _ _ c Hd Hin). }
      rewrite attach_absent by exact Hn. rewrite <- app_assoc.
      apply Permutation_app_head. now apply IHks.
Qed.

(** The parent after the attachment. *)
Lemma get_node_attach c ref x (t cn : node) :
  get_node c t = Some cn ->
  get_node c (attach c ref x t)
  = Some (Element (uid cn) (attributes cn) (text cn)
                  (insert_before ref x (children cn))).
Proof.
  induction t as [u a s ks IH] using node_induction. intros G.
  cbn [attach]. destruct (Nat.eqb_spec u c) as [E|N].
  - subst u. pose proof (get_node_self (Element c a s ks)) as S. cbn [uid] in S.
    rewrite S in G. injection G as <-.
    apply (get_node_self (Element c a s (insert_before ref x ks))).
  - rewrite get_node_Element_other in G |- * by exact N.
    induction ks as [|k ks IHks]; [discriminate|].
    inversion IH as [|? ? Hk Hrest]; subst.
    cbn [flat_map map] in G |- *. rewrite find_app in G |- *.
    destruct (find (fun n => Nat.eqb (uid n) c) (nodes k)) as [n|] eqn:Fk.
    + injection G as ->. fold (get_node c k) in Fk.
      fold (get_node c (attach c ref x k)). now rewrite (Hk Fk).
    + rewrite attach_absent by now apply get_node_none.
      rewrite Fk. now apply IHks.
Qed.

Lemma ids_detach_subset (x : nat) (t : node) :
  forall u, In u (ids (detach x t)) -> In u (ids t).
Proof.
  induction t as [v a s ks IH] using node_induction. intros u.
  rewrite detach_Element, !in_ids_Element. intros [H|H]; [now left|]. right.
  induction ks as [|k ks IHks]; [contradiction|].
  inversion IH as [|? ? Hk Hrest]; subst.
  rewrite detach_all_cons in H. rewrite in_flat_ids_cons.
  destruct (Nat.eqb (uid k) x).
  - right. now apply IHks.
  - rewrite in_flat_ids_cons in H. destruct H as [H|H].
    + left. now apply Hk.
    + right. now apply IHks.
Qed.

(** An element that is not below [x] is still there once [x] is detached. *)
Lemma get_node_detach (x c : nat) (t cn : node) :
  (forall n, In n (nodes t) -> uid n = x -> ~ In c (ids n)) ->
  get_node c t = Some cn ->
  get_node c (detach x t) = Some (detach x cn).
Proof.
  induction t as [u a s ks IH] using node_induction. intros H G.
  destruct (Nat.eq_dec u c) as [E|N].
  - subst u. pose proof (get_node_self (Element c a s ks)) as S. cbn [uid] in S.
    rewrite S in G. injection G as <-.
    pose proof (get_node_self (detach x (Element c a s ks))) as S'.
    now rewrite uid_detach in S'.
  - rewrite detach_Element. rewrite get_node_Element_other in G |- * by exact N.
    assert (Hks : forall k n, In k ks -> In n (nodes k) -> uid n = x -> ~ In c (ids n)).
    { intros k n Hk Hn. apply H. rewrite nodes_Element. right.
      apply in_flat_map. now exists k. }
    clear H.
    induction ks as [|k ks IHks]; [discriminate|].
    inversion IH as [|? ? Hk Hrest]; subst.
    cbn [flat_map] in G. rewrite find_app in G. rewrite detach_all_cons.
    destruct (Nat.eqb_spec (uid k) x) as [E|Nk].
    + assert (Fk : find (fun n => Nat.eqb (uid n) c) (nodes k) = None).
      { apply get_node_none. apply (Hks k k); [now left | now left | exact E]. }
      rewrite Fk in G. apply IHks; [exact Hrest | exact G |].
      intros k' n Hk'. apply Hks. now right.
    + cbn [flat_map]. rewrite find_app.
      destruct (find (fun n => Nat.eqb (uid n) c) (nodes k)) as [n|] eqn:Fk.
      * injection G as ->. fold (get_node c k) in Fk.
        fold (get_node c (detach x k)). rewrite Hk; [reflexivity | | exact Fk].
        intros n Hn. apply (Hks k n); [now left | exact Hn].
      * assert (Fk' : find (fun n => Nat.eqb (uid n) c) (nodes (detach x k)) = None).
        { apply get_node_none. intros Hin. apply ids_detach_subset in Hin.
          now apply get_node_none in Fk. }
        rewrite Fk'. apply IHks; [exact Hrest | exact G |].
        intros k' n Hk'. apply Hks. now right.
Qed.

Lemma child_ids_detach (x : nat) (cn : node) :
  map uid (children (detach x cn))
  = filter (fun u => negb (Nat.eqb u x)) (map uid (children cn)).
Proof.
  destruct cn as [u a s ks]. rewrite detach_Element. cbn [children].
  induction ks as [|k ks IH]; [reflexivity|].
  rewrite detach_all_cons. cbn [map filter].
  destruct (Nat.eqb (uid k) x); cbn [negb]; [exact IH|].
  cbn [map]. now rewrite uid_detach, IH.
Qed.

Lemma in_nodes_subtree (t b m : node) : In b (nodes t) -> In m (nodes b) -> In m (nodes t).
Proof.
  intros Hb Hm. destruct (nodes_segment t b Hb) as (l1 & l2 & E). rewrite E.
  apply in_or_app. right. apply in_or_app. now left.
Qed.

Lemma in_nodes_child u a s ks k m :
  In k ks -> In m (nodes k) -> In m (nodes (Element u a s ks)).
Proof.
  intros Hk Hm. rewrite nodes_Element. right. apply in_flat_map. now exists k.
Qed.

Lemma nodes_detach (x : nat) (t m : node) :
  In m (nodes (detach x t)) -> exists n, In n (nodes t) /\ m = detach x n.
Proof.
  induction t as [u a s ks IH] using node_induction.
  rewrite detach_Element, nodes_Element. intros [<-|H].
  - exists (Element u a s ks). split; [now left | reflexivity].
  - apply in_flat_map in H. destruct H as (k' & Hk' & Hm).
    unfold detach_all in Hk'. apply in_flat_map in Hk'.
    destruct Hk' as (k & Hk & Hk').
    destruct (Nat.eqb (uid k) x); [contradiction|].
    destruct Hk' as [<-|[]].
    destruct (proj1 (Forall_forall _ _) IH k Hk Hm) as (n & Hn & ->).
    exists n. split; [|reflexivity]. now apply (in_nodes_child u a s ks k).
Qed.

Lemma nodes_attach c ref x (t m : node) :
  NoDup (ids t) ->
  In m (nodes (attach c ref x t)) ->
  (exists n, In n (nodes t) /\ m = attach c ref x n) \/ In m (nodes x).
Proof.
  induction t as [u a s ks IH] using node_induction. intros Hd.
  cbn [attach]. destruct (Nat.eqb_spec u c) as [E|N].
  - rewrite nodes_Element. intros [<-|H].
    + left. exists (Element u a s ks). split; [now left|].
      cbn [attach]. now rewrite (proj2 (Nat.eqb_eq u c) E).
    + apply in_flat_map in H. destruct H as (k' & Hk' & Hm).
      apply (Permutation_in _ (insert_before_Permutation ref x ks)) in Hk'.
      destruct Hk' as [<-|Hk']; [now right|]. left.
      exists m. split; [now apply (in_nodes_child u a s ks k')|].
      symmetry. apply attach_absent. intros Hc.
      rewrite ids_Element in Hd. apply NoDup_cons_iff in Hd. destruct Hd as [Hn _].
      apply Hn. rewrite E. apply in_flat_map. exists k'. split; [exact Hk'|].
      unfold ids in *. apply in_map_iff in Hc. destruct Hc as (z & Ez & Hz).
      apply in_map_iff. exists z. split; [exact Ez|].
      now apply (in_nodes_subtree k' m z).
  - rewrite nodes_Element. intros [<-|H].
    + left. exists (Element u a s ks). split; [now left|].
      cbn [attach]. now destruct (Nat.eqb_spec u c).
    + apply in_flat_map in H. destruct H as (k' & Hk' & Hm).
      apply in_map_iff in Hk'. destruct Hk' as (k & <- & Hk).
      assert (Hdk : NoDup (ids k)).
      { apply (NoDup_ids_subtree (Element u a s ks) k Hd).
        apply (in_nodes_child u a s ks k k Hk). now left. }
      destruct (proj1 (Forall_forall _ _) IH k Hk Hdk Hm) as [(n & Hn & ->)|Hx].
      * left. exists n. split; [|reflexivity]. now apply (in_nodes_child u a s ks k).
      * now right.
Qed.

Lemma detach_leaf (x : nat) (n : node) : children n = [] -> detach x n = n.
Proof. destruct n as [u a s ks]. simpl. now intros ->. Qed.

Lemma attach_leaf c ref x (n : node) :
  children n = [] -> uid n <> c -> attach c ref x n = n.
Proof.
  destruct n as [u a s ks]. simpl. intros -> N.
  now destruct (Nat.eqb_spec u c).
Qed.

Lemma table_lookup (d d1 : node) (u : nat) (n : node) :
  NoDup (ids d) ->
  Permutation (table d1) (table d) ->
  get_node u d = Some n ->
  exists n1, get_node u d1 = Some n1 /\ attributes n1 = attributes n.
Proof.
  intros Hd P G. destruct (get_node_some _ _ _ G) as [Hn Eu].
  assert (Hin : In u (ids d1)).
  { rewrite ids_table. apply (Permutation_in _ (Permutation_sym (Permutation_map fst P))).
    rewrite <- ids_table, <- Eu. now apply in_map. }
  destruct (get_node_in u d1 Hin) as [n1 G1]. exists n1. split; [exact G1|].
  destruct (get_node_some _ _ _ G1) as [Hn1 Eu1].
  assert (Hp : In (uid n1, attributes n1) (table d)).
  { apply (Permutation_in _ P). unfold table.
    apply (in_map (fun n => (uid n, attributes n))). exact Hn1. }
  unfold table in Hp. apply in_map_iff in Hp. destruct Hp as (n0 & E0 & Hn0).
  injection E0 as Eu0 Ea0.
  assert (n0 = n).
  { apply (NoDup_map_injective uid _ Hd n0 n Hn0 Hn). congruence. }
  subst n0. now symmetry.
Qed.

Lemma map_uid_insert_before ref x ks :
  map uid (insert_before ref x ks) = insert_id ref (uid x) (map uid ks).
Proof.
  induction ks as [|k ks IH]; [reflexivity|].
  cbn [insert_before insert_id map]. unfold is_child.
  destruct ref as [r|].
  - destruct (Nat.eqb (uid k) r); [reflexivity|]. cbn [map]. now rewrite IH.
  - cbn [map]. now rewrite IH.
Qed.

(** The DOM move of [revertMove]: [x] leaves its place and becomes a child
    of [c]. *)
Lemma move_spec (c x : nat) (ref : option nat) (d cn xn : node) :
  well_formed d ->
  get_node c d = Some cn ->
  get_node x d = Some xn ->
  ~ In c (ids xn) ->
  is_badge cn = false ->
  let d1 := attach c ref xn (detach x d) in
  well_formed d1
  /\ Permutation (table d1) (table d)
  /\ child_ids c d1 = Some (insert_id ref x (without x (map uid (children cn)))).
Proof.
  intros [Hd Hl] Gc Gx Hc Hb d1.
  destruct (get_node_some _ _ _ Gc) as [Hcn Ec].
  destruct (get_node_some _ _ _ Gx) as [Hxn Ex].
  assert (Root : uid d <> x).
  { intros E. rewrite <- E, get_node_self in Gx. injection Gx as <-.
    apply Hc. rewrite <- Ec. now apply in_map. }
  pose proof (table_detach x d Hd xn Gx Root) as Pd.
  assert (Only : forall n, In n (nodes d) -> uid n = x -> ~ In c (ids n)).
  { intros n Hn E. rewrite (NoDup_map_injective uid _ Hd n xn Hn Hxn); congruence. }
  pose proof (get_node_detach x c d cn Only Gc) as Gc'.
  assert (Hd' : NoDup (ids (detach x d) ++ ids xn)).
  { rewrite !ids_table, <- map_app. apply (Permutation_NoDup_map_fst _ _ Pd).
    now rewrite <- ids_table. }
  destruct (NoDup_app_parts _ _ Hd') as [Hd1 Hdx].
  assert (Hc' : In c (ids (detach x d))).
  { destruct (get_node_some _ _ _ Gc') as [H E]. rewrite uid_detach in E.
    rewrite <- Ec, <- (uid_detach x cn). now apply in_map. }
  pose proof (table_attach c ref xn (detach x d) Hd1 Hc') as Pa.
  assert (P : Permutation (table d1) (table d)).
  { unfold d1. rewrite Pa. now symmetry. }
  split; [split|split].
  - rewrite ids_table. apply (Permutation_NoDup_map_fst (table d)); [now symmetry|].
    now rewrite <- ids_table.
  - intros m Hm Bm. unfold d1 in Hm.
    destruct (nodes_attach c ref xn (detach x d) m Hd1 Hm) as [(n & Hn & ->)|Hm'].
    + destruct (nodes_detach x d n Hn) as (n0 & Hn0 & ->).
      unfold is_badge, matches, getAttribute in Bm.
      rewrite attributes_attach, attributes_detach in Bm.
      assert (K : children n0 = []) by (apply Hl; [exact Hn0 | exact Bm]).
      rewrite (detach_leaf x n0 K), attach_leaf; [exact K | exact K |].
      intros E. assert (n0 = cn).
      { apply (NoDup_map_injective uid _ Hd n0 cn Hn0 Hcn). congruence. }
      subst n0. unfold is_badge, matches, getAttribute in Hb. congruence.
    + apply Hl; [|exact Bm]. now apply (in_nodes_subtree d xn m).
  - exact P.
  - unfold child_ids, d1. rewrite (get_node_attach c ref xn _ _ Gc').
    cbn [option_map children]. rewrite map_uid_insert_before, child_ids_detach.
    now rewrite Ex.
Qed.

Lemma existsb_eqb (a : nat) (l : list nat) : existsb (Nat.eqb a) l = true <-> In a l.
Proof.
  rewrite existsb_exists. split.
  - intros (y & Hy & E). apply Nat.eqb_eq in E. now subst.
  - intros H. exists a. split; [exact H | apply Nat.eqb_refl].
Qed.

Lemma existsb_eqb_false (a : nat) (l : list nat) :
  ~ In a l -> existsb (Nat.eqb a) l = false.
Proof.
  intros H. destruct (existsb (Nat.eqb a) l) eqn:E; [|reflexivity].
  now apply existsb_eqb in E.
Qed.

Lemma child_ids_skeleton (u : nat) (d d' : node) :
  skeleton d' = skeleton d -> child_ids u d' = child_ids u d.
Proof.
  intros E. unfold child_ids.
  destruct (get_node u d) as [n|] eqn:G.
  - destruct (same_skeleton_get_node u d d' n E G) as (n' & -> & En).
    simpl. f_equal. now apply same_skeleton_children.
  - destruct (get_node u d') as [n'|] eqn:G'; [|reflexivity].
    destruct (same_skeleton_get_node u d' d n' (eq_sym E) G') as (n & Gn & _).
    congruence.
Qed.

(** The DOM call of [revertMove] succeeds and is the move to the reference
    child. *)
Lemma revertMove_insert (c x : nat) (i : option nat) (d cn xn : node) :
  get_node c d = Some cn ->
  get_node x d = Some xn ->
  ~ In c (ids xn) ->
  match (match i with Some i => nth_error (children cn) i | None => None end) with
  | Some r => insertBefore c x (Some (uid r)) d
  | None => appendChild c x d
  end
  = Mutated (attach c (reference_child x i cn) xn (detach x d)).
Proof.
  intros Gc Gx Hc. unfold reference_child.
  destruct (match i with Some i => nth_error (children cn) i | None => None end)
    as [r|] eqn:R.
  - destruct i as [i|]; [|discriminate]. rewrite R.
    unfold insertBefore. rewrite Gc, Gx, (existsb_eqb_false _ _ Hc).
    assert (Hr : existsb (Nat.eqb (uid r)) (map uid (children cn)) = true).
    { apply existsb_eqb. apply in_map. now apply nth_error_In in R. }
    rewrite Hr. reflexivity.
  - unfold appendChild, insertBefore. rewrite Gc, Gx, (existsb_eqb_false _ _ Hc).
    destruct i as [i|]; [now rewrite R | reflexivity].
Qed.

(** ** Rollback *)

Lemma insert_id_None (x : nat) (l : list nat) : insert_id None x l = l ++ [x].
Proof. induction l as [|y l IH]; simpl; [reflexivity | now rewrite IH]. Qed.

Lemma reference_child_out_of_range (x i : nat) (column : node) :
  List.length (children column) <= i -> reference_child x (Some i) column = None.
Proof.
  intros H. unfold reference_child.
  now rewrite (proj2 (nth_error_None (children column) i) H).
Qed.

Lemma insert_id_at (l : list nat) (i r x : nat) :
  NoDup l -> nth_error l i = Some r ->
  insert_id (Some r) x l = firstn i l ++ x :: skipn i l.
Proof.
  revert i. induction l as [|y l IH]; intros i Hd Hn.
  - now destruct i.
  - inversion Hd as [|? ? Hy Hl]; subst. cbn [insert_id].
    destruct i as [|i]; cbn [nth_error] in Hn.
    + injection Hn as ->. now rewrite Nat.eqb_refl.
    + destruct (Nat.eqb_spec y r) as [->|N].
      * exfalso. apply Hy. now apply nth_error_In in Hn.
      * cbn [firstn skipn app]. f_equal. now apply IH.
Qed.

Lemma index_of_app (x : nat) (a b : list nat) :
  ~ In x a -> index_of x (a ++ x :: b) = Some (List.length a).
Proof.
  induction a as [|y a IH]; intros H; cbn [app index_of List.length].
  - now rewrite Nat.eqb_refl.
  - destruct (Nat.eqb_spec y x) as [->|N]; [exfalso; apply H; now left|].
    rewrite IH; [reflexivity|]. intros Hin. apply H. now right.
Qed.

Lemma index_of_inserted (x i : nat) (l : list nat) :
  ~ In x l -> i <= List.length l ->
  index_of x (firstn i l ++ x :: skipn i l) = Some i.
Proof.
  intros H Hi. rewrite index_of_app.
  - now rewrite firstn_length_le.
  - intros Hin. apply H. rewrite <- (firstn_skipn i l). apply in_or_app. now left.
Qed.

Lemma without_absent (x : nat) (l : list nat) : ~ In x l -> without x l = l.
Proof.
  induction l as [|y l IH]; intros H; [reflexivity|]. cbn [without filter].
  destruct (Nat.eqb_spec y x) as [->|N]; [exfalso; apply H; now left|].
  cbn [negb]. f_equal. apply IH. intros Hin. apply H. now right.
Qed.

Lemma without_middle (x : nat) (a b : list nat) :
  ~ In x a -> ~ In x b -> without x (a ++ x :: b) = a ++ b.
Proof.
  intros Ha Hb. unfold without. rewrite filter_app. cbn [filter].
  rewrite Nat.eqb_refl. cbn [negb].
  fold (without x a). fold (without x b).
  now rewrite !without_absent.
Qed.

Lemma NoDup_child_ids (ks : list node) :
  NoDup (flat_map ids ks) -> NoDup (map uid ks).
Proof.
  induction ks as [|k ks IH]; intros H; [constructor|].
  cbn [flat_map map] in *. destruct (NoDup_app_parts _ _ H) as [_ Hks].
  constructor; [|now apply IH].
  intros Hin. apply (NoDup_app_disjoint _ _ (uid k) H); [now left|].
  apply in_map_iff in Hin. destruct Hin as (k' & E & Hk').
  apply in_flat_map. exists k'. split; [exact Hk'|]. rewrite <- E. now left.
Qed.

Lemma well_formed_child_ids (d cn : node) (c : nat) :
  well_formed d -> get_node c d = Some cn -> NoDup (map uid (children cn)).
Proof.
  intros [Hd _] G. destruct (get_node_some _ _ _ G) as [Hin _].
  pose proof (NoDup_ids_subtree d cn Hd Hin) as H.
  destruct cn as [u a s ks]. rewrite ids_Element in H.
  apply NoDup_cons_iff in H. destruct H as [_ H]. now apply NoDup_child_ids.
Qed.

Lemma reference_child_other (x i r : nat) (column : node) :
  nth_error (map uid (children column)) i = Some r -> r <> x ->
  reference_child x (Some i) column = Some r.
Proof.
  intros H N. unfold reference_child. rewrite nth_error_map in H.
  destruct (nth_error (children column) i) as [n|]; [|discriminate].
  cbn in H. injection H as <-. now destruct (Nat.eqb_spec (uid n) x).
Qed.

Lemma next_sibling_ids (x : nat) (ks : list node) (before after : list nat) :
  map uid ks = before ++ x :: after -> ~ In x before ->
  next_sibling x ks = hd_error after.
Proof.
  revert before. induction ks as [|k ks IH]; intros before E H.
  - now destruct before.
  - destruct before as [|b before]; cbn [map app] in E; injection E as Ek Eks.
    + cbn [next_sibling]. rewrite Ek, Nat.eqb_refl.
      destruct ks as [|k' ks]; destruct after as [|a after]; try discriminate;
        [reflexivity|]. cbn in Eks |- *. now injection Eks as -> _.
    + cbn [next_sibling]. destruct (Nat.eqb_spec (uid k) x) as [E|N].
      * exfalso. apply H. left. congruence.
      * apply (IH before Eks). intros Hin. apply H. now right.
Qed.

(** Moving elements keeps a document within the model. *)
Lemma modelled_table (d d' : node) :
  Permutation (table d') (table d) -> modelled d -> modelled d'.
Proof.
  intros P [Safe Small]. split.
  - intros n' Hn'.
    assert (H : In (uid n', attributes n') (table d)).
    { apply (Permutation_in _ P). unfold table.
      apply (in_map (fun n => (uid n, attributes n))). exact Hn'. }
    unfold table in H. apply in_map_iff in H. destruct H as (n & En & Hn).
    injection En as _ Ea.
    rewrite (dataset_columnId_attributes n n'); [now apply Safe | now symmetry].
  - assert (L : List.length (nodes d') = List.length (nodes d)).
    { rewrite <- (length_map (fun n => (uid n, attributes n)) (nodes d')).
      rewrite <- (length_map (fun n => (uid n, attributes n)) (nodes d)).
      exact (Permutation_length P). }
    now rewrite L.
Qed.

Section RecordedSession.

(** A drop [evt] being reverted on the page [p]: a well-formed document
    within the model, a session recorded for the dragged element [x] and
    the origin column [c], both in the document with [c] not inside [x],
    and the column of the drop in the document. *)
Variables (evt : SortableEvent) (p : page) (c x : nat) (cn xn tn : node).
Hypothesis document_ok : well_formed (dom p).
Hypothesis document_modelled : modelled (dom p).
Hypothesis origin_recorded : originalColumn p = Some c.
Hypothesis dragged_recorded : draggedElement p = Some x.
Hypothesis origin_attached : get_node c (dom p) = Some cn.
Hypothesis dragged_attached : get_node x (dom p) = Some xn.
Hypothesis origin_outside : ~ In c (ids xn).
Hypothesis origin_no_badge : is_badge cn = false.
Hypothesis drop_attached : get_node (evt_to evt) (dom p) = Some tn.

(** [revertMove] with a recorded session on a well-formed document. *)
Lemma revertMove_spec :
  exists d',
    revertMove evt p = Returned tt (with_dom d' p)
    /\ well_formed d'
    /\ child_ids c d'
       = Some (insert_id (reference_child x (originalIndex p) cn) x
                         (without x (map uid (children cn))))
    /\ ((evt_to evt <> c -> column_key tn <> column_key cn) ->
        shows_task_count (evt_to evt) d')
    /\ shows_task_count c d'.
Proof.
  destruct (move_spec c x (reference_child x (originalIndex p) cn) (dom p) cn xn
              document_ok origin_attached dragged_attached origin_outside origin_no_badge) as (W1 & P1 & C1).
  set (d1 := attach c (reference_child x (originalIndex p) cn) xn (detach x (dom p))) in *.
  destruct document_ok as [Hd Hl].
  destruct (table_lookup (dom p) d1 (evt_to evt) tn Hd P1 drop_attached) as (tn1 & Gt1 & At1).
  destruct (table_lookup (dom p) d1 c cn Hd P1 origin_attached) as (cn1 & Gc1 & Ac1).
  destruct (updateColumnCounts_spec (evt_to evt) c tn1 cn1 (with_dom d1 p) W1
              (modelled_table _ _ P1 document_modelled) Gt1 Gc1)
    as (d' & U & W' & S' & Sht & Shc).
  exists d'. split; [|split; [exact W'|split; [|split; [|exact Shc]]]]; cycle 2.
  { intros K. apply Sht. intros N.
    rewrite (dataset_columnId_attributes _ _ At1).
    rewrite (dataset_columnId_attributes _ _ Ac1). now apply K. }
  - unfold revertMove. rewrite origin_recorded, dragged_recorded. unfold bind at 1. unfold resolve. rewrite origin_attached.
    unfold bind. unfold run_dom.
    assert (I := revertMove_insert c x (originalIndex p) (dom p) cn xn origin_attached dragged_attached origin_outside).
    destruct (match originalIndex p with
              | Some i => nth_error (children cn) i
              | None => None
              end) as [r|]; rewrite I; fold d1; exact U.
  - rewrite (child_ids_skeleton c d1 d' S'). exact C1.
Qed.

(** C6.  On a well-formed document within the model (column ids that the
    selector template holds between its quotes), with a recorded session:
    when the recorded index is not an index of the origin column's current
    children, [revertMove] returns normally and the dragged element is the
    last child of the origin column, after the column's other children in
    their order. *)
Theorem revertMove_appends_out_of_range (i : nat) :
  originalIndex p = Some i ->
  List.length (children cn) <= i ->
  exists d',
    revertMove evt p = Returned tt (with_dom d' p)
    /\ child_ids c d' = Some (without x (map uid (children cn)) ++ [x]).
Proof.
  intros Oi Hi.
  destruct revertMove_spec
    as (d' & R & _ & C & _).
  exists d'. split; [exact R|].
  now rewrite C, Oi, reference_child_out_of_range, insert_id_None.
Qed.

(** The drop went to another column: [revertMove] puts the dragged element
    back at the recorded index. *)
Lemma revertMove_exact_from_other_column (i : nat) :
  originalIndex p = Some i ->
  ~ In x (map uid (children cn)) ->
  i <= List.length (children cn) ->
  exists d',
    revertMove evt p = Returned tt (with_dom d' p)
    /\ child_ids c d'
       = Some (firstn i (map uid (children cn)) ++ x :: skipn i (map uid (children cn)))
    /\ position x c d' = Some i.
Proof.
  intros Oi Hx Hi.
  destruct revertMove_spec
    as (d' & R & _ & C & _).
  pose proof (well_formed_child_ids _ _ _ document_ok origin_attached) as Hd.
  set (l := map uid (children cn)) in *.
  assert (Hl : List.length l = List.length (children cn)) by apply length_map.
  assert (E : insert_id (reference_child x (originalIndex p) cn) x (without x l)
              = firstn i l ++ x :: skipn i l).
  { rewrite Oi, without_absent by exact Hx.
    destruct (nth_error l i) as [r|] eqn:N.
    - rewrite (reference_child_other x i r cn N).
      + now apply insert_id_at.
      + intros ->. apply Hx. now apply nth_error_In in N.
    - apply nth_error_None in N.
      rewrite reference_child_out_of_range by lia.
      rewrite insert_id_None, firstn_all2, skipn_all2 by lia. reflexivity. }
  exists d'. split; [exact R|]. split; [now rewrite C, E|].
  unfold position. rewrite C, E. apply index_of_inserted; [exact Hx | lia].
Qed.

(** The drop went to a lower index of the origin column: [revertMove]
    puts the dragged element one place before the recorded index. *)
Lemma revertMove_short_in_same_column (i : nat) (before after : list nat) :
  originalIndex p = Some i ->
  map uid (children cn) = before ++ x :: after ->
  List.length before < i <= List.length before + List.length after ->
  exists d',
    revertMove evt p = Returned tt (with_dom d' p)
    /\ child_ids c d'
       = Some (firstn (i - 1) (before ++ after) ++ x :: skipn (i - 1) (before ++ after))
    /\ position x c d' = Some (i - 1).
Proof.
  intros Oi El Hi.
  destruct revertMove_spec
    as (d' & R & _ & C & _).
  pose proof (well_formed_child_ids _ _ _ document_ok origin_attached) as Hd. rewrite El in Hd.
  assert (Ha : ~ In x before).
  { intros Hin. apply (NoDup_app_disjoint _ _ x Hd Hin). now left. }
  assert (Hd' : NoDup (before ++ after)) by now apply NoDup_remove_1 in Hd.
  assert (Hafter : ~ In x after).
  { apply NoDup_remove_2 in Hd. intros Hin. apply Hd. apply in_or_app. now right. }
  assert (Hx : ~ In x (before ++ after)).
  { intros Hin. apply in_app_or in Hin. tauto. }
  destruct (nth_error after (i - List.length before - 1)) as [r|] eqn:N;
    [|apply nth_error_None in N; lia].
  assert (Nr : r <> x).
  { intros ->. apply Hafter. now apply nth_error_In in N. }
  assert (N1 : nth_error (map uid (children cn)) i = Some r).
  { rewrite El, nth_error_app2 by lia.
    replace (i - List.length before) with (S (i - List.length before - 1)) by lia.
    exact N. }
  assert (N2 : nth_error (before ++ after) (i - 1) = Some r).
  { rewrite nth_error_app2 by lia.
    replace (i - 1 - List.length before) with (i - List.length before - 1) by lia.
    exact N. }
  assert (E : insert_id (reference_child x (originalIndex p) cn) x
                        (without x (map uid (children cn)))
              = firstn (i - 1) (before ++ after) ++ x :: skipn (i - 1) (before ++ after)).
  { rewrite Oi, (reference_child_other x i r cn N1 Nr), El.
    rewrite without_middle by assumption. now apply insert_id_at. }
  exists d'. split; [exact R|]. split; [now rewrite C, E|].
  unfold position. rewrite C, E. apply index_of_inserted; [exact Hx|].
  rewrite length_app. lia.
Qed.

(** The drop went to the same or a higher index of the origin column:
    [revertMove] puts the dragged element back at the recorded index. *)
Lemma revertMove_exact_in_same_column (i : nat) (before after : list nat) :
  originalIndex p = Some i ->
  map uid (children cn) = before ++ x :: after ->
  i <= List.length before ->
  exists d',
    revertMove evt p = Returned tt (with_dom d' p)
    /\ child_ids c d'
       = Some (firstn i (before ++ after) ++ x :: skipn i (before ++ after))
    /\ position x c d' = Some i.
Proof.
  intros Oi El Hi.
  destruct revertMove_spec
    as (d' & R & _ & C & _).
  pose proof (well_formed_child_ids _ _ _ document_ok origin_attached) as Hd. rewrite El in Hd.
  assert (Ha : ~ In x before).
  { intros Hin. apply (NoDup_app_disjoint _ _ x Hd Hin). now left. }
  assert (Hd' : NoDup (before ++ after)) by now apply NoDup_remove_1 in Hd.
  assert (Hafter : ~ In x after).
  { apply NoDup_remove_2 in Hd. intros Hin. apply Hd. apply in_or_app. now right. }
  assert (Hx : ~ In x (before ++ after)).
  { intros Hin. apply in_app_or in Hin. tauto. }
  assert (E : insert_id (reference_child x (originalIndex p) cn) x
                        (without x (map uid (children cn)))
              = firstn i (before ++ after) ++ x :: skipn i (before ++ after)).
  { rewrite Oi, El, without_middle by assumption.
    destruct (Nat.eq_dec i (List.length before)) as [->|Ni].
    - assert (Ref : reference_child x (Some (List.length before)) cn = hd_error after).
      { unfold reference_child.
        assert (N : nth_error (map uid (children cn)) (List.length before) = Some x).
        { rewrite El, nth_error_app2, Nat.sub_diag by lia. reflexivity. }
        rewrite nth_error_map in N.
        destruct (nth_error (children cn) (List.length before)) as [n|]; [|discriminate].
        cbn in N. injection N as N. rewrite N, Nat.eqb_refl.
        now apply (next_sibling_ids x (children cn) before after). }
      rewrite Ref. destruct after as [|r after]; cbn [hd_error].
      + rewrite insert_id_None, app_nil_r, firstn_all, skipn_all. reflexivity.
      + apply insert_id_at; [exact Hd'|].
        rewrite nth_error_app2, Nat.sub_diag by lia. reflexivity.
    - destruct (nth_error before i) as [r|] eqn:N; [|apply nth_error_None in N; lia].
      assert (Nr : r <> x).
      { intros ->. apply Ha. now apply nth_error_In in N. }
      rewrite (reference_child_other x i r cn).
      + apply insert_id_at; [exact Hd'|]. rewrite nth_error_app1 by lia. exact N.
      + rewrite El, nth_error_app1 by lia. exact N.
      + exact Nr. }
  exists d'. split; [exact R|]. split; [now rewrite C, E|].
  unfold position. rewrite C, E. apply index_of_inserted; [exact Hx|].
  rewrite length_app. lia.
Qed.

End RecordedSession.

Lemma revertMove_appends_out_of_range_witness :
  exists d',
    revertMove Shifted.evt Shifted.dropped = Returned tt (with_dom d' Shifted.dropped)
    /\ child_ids 2 d' = Some [22; 21].
Proof.
  apply (revertMove_appends_out_of_range Shifted.evt Shifted.dropped 2 21
           (Board.column 2 "todo" [Board.task 22 "T2"])
           (Board.task 21 "T1")
           (Board.column 3 "doing" [Board.task 21 "T1"; Board.task 31 "T4"]))
    with (i := 2).
  - apply well_formedb_sound. reflexivity.
  - apply modelledb_sound. reflexivity.
  - reflexivity.
  - reflexivity.
  - reflexivity.
  - reflexivity.
  - simpl. intuition discriminate.
  - reflexivity.
  - reflexivity.
  - reflexivity.
  - simpl. lia.
Defined.

(** C1.  A drag within one column to a lower index, then a rejected
    request: [T3] starts as child 2 of [todo], is dropped at index 0, the
    request is rejected, and [revertMove] leaves [T3] as child 1, before
    [T2]. *)
Theorem revertMove_same_column_lower_index :
  position 23 2 Board.body = Some 2
  /\ child_ids 2 Board.body = Some [21; 22; 23]
  /\ exists p',
      gesture Board.shared (mkEvent 23 2 2 2 0) (Rejected (Error "offline")) Board.start
      = Returned tt p'
      /\ draggedElement p' = Some 23
      /\ originalColumn p' = Some 2
      /\ originalIndex p' = Some 2
      /\ child_ids 2 (dom p') = Some [21; 23; 22]
      /\ position 23 2 (dom p') = Some 1.
Proof.
  split; [reflexivity|]. split; [reflexivity|].
  eexists. split; [vm_compute; reflexivity|].
  repeat split.
Qed.

(** ** The drop, up to the request *)

Lemma onEnd_request_spec (s : sortable) (evt : SortableEvent) (p : page)
      (itemNode fromNode toNode : node) :
  well_formed (dom p) ->
  modelled (dom p) ->
  get_node (evt_item evt) (dom p) = Some itemNode ->
  get_node (evt_from evt) (dom p) = Some fromNode ->
  get_node (evt_to evt) (dom p) = Some toNode ->
  exists d',
    onEnd_request s evt p
    = Returned tt
        (requesting d'
           (move_request s (dataset_taskId itemNode) (dataset_columnId toNode)
                         (newIndex evt)) p)
    /\ well_formed d'
    /\ skeleton d' = skeleton (dom p)
    /\ ((evt_from evt <> evt_to evt -> column_key fromNode <> column_key toNode) ->
        shows_task_count (evt_from evt) d')
    /\ shows_task_count (evt_to evt) d'.
Proof.
  intros W Mo Gi Gf Gt.
  set (p0 := mkPage (dom p) (classList_remove "dragging-active" (body_classList p))
                    (draggedElement p) (originalColumn p) (originalIndex p)
                    (sortables p) (requests p) (toasts p) (engine_message p)).
  destruct (updateColumnCounts_spec (evt_from evt) (evt_to evt) fromNode toNode p0 W Mo Gf Gt)
    as (d' & U & W' & S' & Shf & Sht).
  exists d'. split; [|split; [exact W'|split; [exact S'|split; assumption]]].
  unfold onEnd_request, bind, set_body_classList, resolve. cbn [dom].
  rewrite Gi. cbn [dom]. rewrite Gt. fold p0. rewrite U. reflexivity.
Qed.

(** ** What a computation leaves alone *)

Lemma keeps_bind {A B X : Type} (f : page -> X) (m : M A) (k : A -> M B) :
  keeps f m -> (forall a, keeps f (k a)) -> keeps f (bind m k).
Proof.
  intros Hm Hk p p'. unfold bind. specialize (Hm p).
  destruct (m p) as [a q|e q|]; cbn [ended] in *.
  - intros H. rewrite (Hk a q p' H). now apply Hm.
  - exact (Hm p').
  - discriminate.
Qed.

Lemma keeps_ret {A X : Type} (f : page -> X) (a : A) : keeps f (ret a).
Proof. intros p p' H. cbn in H. now injection H as <-. Qed.

Lemma keeps_throw {A X : Type} (f : page -> X) (e : exn) : keeps f (@throw A e).
Proof. intros p p' H. cbn in H. now injection H as <-. Qed.

Lemma keeps_raise {A X : Type} (f : page -> X) (e : engine_error) : keeps f (@raise A e).
Proof. intros p p' H. cbn in H. now injection H as <-. Qed.

Lemma keeps_lift {A X : Type} (f : page -> X) (r : engine_error + A) : keeps f (lift r).
Proof. destruct r; [apply keeps_raise | apply keeps_ret]. Qed.

Lemma keeps_convert {X : Type} (f : page -> X) (c : conversion) : keeps f (convert c).
Proof.
  intros p p'. destruct c; cbn; [| |discriminate]; intros H; now injection H as <-.
Qed.

Lemma keeps_try_catch {A X : Type} (f : page -> X) (m : M A) (h : exn -> M A) :
  keeps f m -> (forall e, keeps f (h e)) -> keeps f (try_catch m h).
Proof.
  intros Hm Hh p p'. unfold try_catch. specialize (Hm p).
  destruct (m p) as [a q|e q|]; cbn [ended] in *.
  - exact (Hm p').
  - intros H. rewrite (Hh e q p' H). now apply Hm.
  - discriminate.
Qed.

Lemma keeps_resolve {X : Type} (f : page -> X) (u : nat) : keeps f (resolve u).
Proof.
  intros p p'. unfold resolve. destruct (get_node u (dom p)); cbn; [|discriminate].
  intros H. now injection H as <-.
Qed.

Lemma keeps_updateBadgeCount {X : Type} (f : page -> X) c v :
  beside_dom f -> keeps f (updateBadgeCount c v).
Proof.
  intros B p p'. unfold updateBadgeCount.
  destruct (badge_selector (template c)) as [sel|]; [|discriminate].
  destruct (querySelector sel (dom p)) as [badge|];
    [|cbn; intros H; now injection H as <-].
  unfold bind, convert. destruct (DOMString_of v); cbn; [| |discriminate].
  - intros H. injection H as <-. apply B.
  - intros H. now injection H as <-.
Qed.

Lemma keeps_run_dom {X : Type} (f : page -> X) g :
  beside_dom f -> keeps f (run_dom g).
Proof.
  intros B p p'. unfold run_dom. destruct (g (dom p)); cbn; [| |discriminate];
    intros H; injection H as <-; [apply B | reflexivity].
Qed.

Lemma keeps_updateColumnCounts {X : Type} (f : page -> X) a b :
  beside_dom f -> keeps f (updateColumnCounts a b).
Proof.
  intros B. unfold updateColumnCounts. apply keeps_bind.
  - destruct a as [u|]; [|apply keeps_ret].
    apply keeps_bind; [apply keeps_resolve|].
    intros n. now apply keeps_updateBadgeCount.
  - intros _. destruct b as [t|]; [|apply keeps_ret].
    destruct (negb (same_handle (Some t) a)); [|apply keeps_ret].
    apply keeps_bind; [apply keeps_resolve|].
    intros n. now apply keeps_updateBadgeCount.
Qed.

Lemma keeps_revertMove {X : Type} (f : page -> X) evt :
  beside_dom f -> keeps f (revertMove evt).
Proof.
  intros B p p'. unfold revertMove.
  destruct (originalColumn p) as [c|]; [|cbn; intros H; now injection H as <-].
  destruct (draggedElement p) as [x|]; [|cbn; intros H; now injection H as <-].
  apply (keeps_bind f (resolve c)); [apply keeps_resolve|].
  intros n. apply keeps_bind.
  - destruct (match originalIndex p with
              | Some i => nth_error (children n) i
              | None => None
              end); now apply keeps_run_dom.
  - intros _. now apply keeps_updateColumnCounts.
Qed.

Lemma keeps_onEnd_try {X : Type} (f : page -> X) evt r :
  beside_dom f -> keeps f (onEnd_try evt r).
Proof.
  intros B. unfold onEnd_try. apply keeps_bind.
  - destruct r; [apply keeps_throw | apply keeps_throw | apply keeps_ret].
  - intros data. apply keeps_bind; [apply keeps_lift|]. intros ok.
    destruct (negb (truthy ok)).
    + apply keeps_bind; [apply keeps_lift|]. intros e.
      apply keeps_bind; [apply keeps_convert|]. intros msg. apply keeps_throw.
    + apply keeps_bind; [apply keeps_lift|]. intros fc. apply keeps_bind.
      * destruct fc; [|apply keeps_ret].
        apply keeps_bind; [apply keeps_resolve|].
        intros n. now apply keeps_updateBadgeCount.
      * intros _. apply keeps_bind; [apply keeps_lift|]. intros tc.
        destruct tc; [|apply keeps_ret].
        apply keeps_bind; [apply keeps_resolve|].
        intros n. now apply keeps_updateBadgeCount.
Qed.

Lemma keeps_showNotification {X : Type} (f : page -> X) msg type :
  (forall t p, f (with_toast t p) = f p) -> keeps f (showNotification msg type).
Proof.
  intros T p p'. unfold showNotification. destruct (markup_free msg); [|discriminate].
  cbn. intros H. injection H as <-. apply (T _ p).
Qed.

Lemma keeps_onEnd_settle {X : Type} (f : page -> X) evt r :
  beside_dom f -> (forall t p, f (with_toast t p) = f p) -> keeps f (onEnd_settle evt r).
Proof.
  intros B T. unfold onEnd_settle. apply keeps_try_catch.
  - now apply keeps_onEnd_try.
  - intros e. apply keeps_bind; [now apply keeps_revertMove|]. intros _.
    now apply keeps_showNotification.
Qed.

Lemma issued_ended {A : Type} (o : outcome A) : issued o = option_map requests (ended o).
Proof. now destruct o. Qed.

Lemma onEnd_settle_requests (evt : SortableEvent) (r : reply) (p : page) :
  forall l, issued (onEnd_settle evt r p) = Some l -> l = requests p.
Proof.
  intros l. rewrite issued_ended.
  destruct (ended (onEnd_settle evt r p)) as [p'|] eqn:E; [|discriminate].
  cbn. intros H. injection H as <-.
  apply (keeps_onEnd_settle requests evt r);
    [intros d q; reflexivity | intros t q; reflexivity | exact E].
Qed.

(** ** The URL of the request *)

Lemma GetSubstitution_plain (matched before after replacement : string) :
  plain replacement ->
  GetSubstitution matched before after replacement = replacement.
Proof.
  induction replacement as [|c rest IH]; intros H; [reflexivity|].
  cbn [GetSubstitution].
  destruct (Ascii.eqb_spec c "$"%char) as [->|N].
  - exfalso. apply (H "$"%char); [now left | reflexivity].
  - f_equal. apply IH. intros d Hd. apply H. now right.
Qed.

(** For a task id without [$] the URL is the endpoint with the id in the
    place of the first [{taskId}]. *)
Lemma replace_plain (endpoint id before after : string) :
  plain id ->
  split_first "{taskId}" endpoint = Some (before, after) ->
  replace endpoint "{taskId}" id = (before ++ id ++ after)%string.
Proof.
  intros H E. unfold replace. rewrite E. now rewrite GetSubstitution_plain.
Qed.

Lemma prefix_drop (pat s : string) :
  prefix pat s = true -> s = (pat ++ drop (String.length pat) s)%string.
Proof.
  revert s. induction pat as [|c pat IH]; intros s H; [reflexivity|].
  destruct s as [|c' s]; [discriminate|]. cbn in H |- *.
  destruct (ascii_dec c c') as [->|N]; [|discriminate].
  f_equal. now apply IH.
Qed.

Lemma prefix_append (pat rest : string) : prefix pat (pat ++ rest)%string = true.
Proof.
  induction pat as [|c pat IH]; cbn; [now destruct rest|].
  destruct (ascii_dec c c) as [_|N]; [exact IH | contradiction].
Qed.

Lemma split_first_spec (pat s before after : string) :
  split_first pat s = Some (before, after) ->
  s = (before ++ pat ++ after)%string.
Proof.
  revert before. induction s as [|c s IH]; intros before H.
  - cbn [split_first] in H. destruct (prefix pat "") eqn:P; [|discriminate].
    injection H as <- <-. now apply prefix_drop.
  - cbn [split_first] in H. destruct (prefix pat (String c s)) eqn:P.
    + injection H as <- <-. now apply prefix_drop.
    + destruct (split_first pat s) as [[b a]|]; [|discriminate].
      injection H as <- <-. cbn. f_equal. now apply IH.
Qed.

Lemma split_first_earliest (pat s before after : string) :
  split_first pat s = Some (before, after) ->
  forall b a, s = (b ++ pat ++ a)%string -> String.length before <= String.length b.
Proof.
  revert before after. induction s as [|c s IH]; intros before after H b a E.
  - cbn [split_first] in H. destruct (prefix pat "") eqn:P; [|discriminate].
    injection H as <- <-. cbn. lia.
  - cbn [split_first] in H. destruct (prefix pat (String c s)) eqn:P.
    + injection H as <- <-. cbn. lia.
    + destruct (split_first pat s) as [[b' a']|] eqn:S; [|discriminate].
      injection H as <- <-.
      destruct b as [|c' b].
      * cbn in E. rewrite E, prefix_append in P. discriminate.
      * cbn in E. injection E as _ E. cbn.
        apply le_n_S. exact (IH b' a' eq_refl b a E).
Qed.

Lemma split_first_absent (pat s : string) :
  split_first pat s = None -> absent pat s.
Proof.
  induction s as [|c s IH]; intros H b a E.
  - cbn [split_first] in H. destruct (prefix pat "") eqn:P; [discriminate|].
    destruct b as [|c' b]; [|discriminate].
    cbn in E. rewrite E, prefix_append in P. discriminate.
  - cbn [split_first] in H. destruct (prefix pat (String c s)) eqn:P; [discriminate|].
    destruct (split_first pat s) as [[b' a']|] eqn:S; [discriminate|].
    destruct b as [|c' b].
    + cbn in E. rewrite E, prefix_append in P. discriminate.
    + cbn in E. injection E as _ E. exact (IH eq_refl b a E).
Qed.

Lemma split_first_first_occurrence (pat s before after : string) :
  split_first pat s = Some (before, after) -> first_occurrence pat s before after.
Proof.
  intros H. split; [now apply split_first_spec | exact (split_first_earliest _ _ _ _ H)].
Qed.

(** [replace] is the substitution of the specification for a task id
    without [$]. *)
Lemma replace_substituted (endpoint id : string) :
  plain id -> substituted endpoint id (replace endpoint "{taskId}" id).
Proof.
  intros P. destruct (split_first "{taskId}" endpoint) as [[b a]|] eqn:S.
  - right. exists b, a. split; [now apply split_first_first_occurrence|].
    now apply replace_plain.
  - left. split; [now apply split_first_absent|]. unfold replace. now rewrite S.
Qed.

Lemma append_same_length (a b c d : string) :
  (a ++ b)%string = (c ++ d)%string -> String.length a = String.length c ->
  a = c /\ b = d.
Proof.
  revert c. induction a as [|x a IH]; intros [|y c] E L; try discriminate.
  - now split.
  - cbn in E, L. injection E as -> E. injection L as L.
    destruct (IH c E L) as [-> ->]. now split.
Qed.

Lemma first_occurrence_unique (pat s b1 a1 b2 a2 : string) :
  first_occurrence pat s b1 a1 -> first_occurrence pat s b2 a2 -> b1 = b2 /\ a1 = a2.
Proof.
  intros [E1 F1] [E2 F2].
  assert (L : String.length b1 = String.length b2).
  { apply Nat.le_antisymm; [exact (F1 b2 a2 E2) | exact (F2 b1 a1 E1)]. }
  rewrite E1 in E2. destruct (append_same_length _ _ _ _ E2 L) as [-> E].
  destruct (append_same_length _ _ _ _ E eq_refl) as [_ ->]. now split.
Qed.

(** The substitution fixes the address. *)
Lemma substituted_unique (endpoint id a1 a2 : string) :
  substituted endpoint id a1 -> substituted endpoint id a2 -> a1 = a2.
Proof.
  intros [[A1 ->]|(b1 & r1 & F1 & ->)] [[A2 ->]|(b2 & r2 & F2 & ->)].
  - reflexivity.
  - now contradiction (A1 b2 r2 (proj1 F2)).
  - now contradiction (A2 b1 r1 (proj1 F1)).
  - now destruct (first_occurrence_unique _ _ _ _ _ _ F1 F2) as [-> ->].
Qed.

(** [replace] on an endpoint without the placeholder, and on one with
    it. *)
Lemma replace_absent (endpoint pat id : string) :
  absent pat endpoint -> replace endpoint pat id = endpoint.
Proof.
  intros A. unfold replace.
  destruct (split_first pat endpoint) as [[b a]|] eqn:S; [|reflexivity].
  now contradiction (A b a (split_first_spec _ _ _ _ S)).
Qed.

Lemma replace_first_occurrence (endpoint id before after : string) :
  plain id ->
  first_occurrence "{taskId}" endpoint before after ->
  replace endpoint "{taskId}" id = (before ++ id ++ after)%string.
Proof.
  intros P F. destruct (split_first "{taskId}" endpoint) as [[b a]|] eqn:S.
  - destruct (first_occurrence_unique _ _ _ _ _ _
                (split_first_first_occurrence _ _ _ _ S) F) as [-> ->].
    now apply replace_plain.
  - destruct F as [E _]. now contradiction (split_first_absent _ _ S before after).
Qed.

(** ** One request for a drop *)




(** ** Server counts *)

Lemma writes_inv (count : value) (written : option string) :
  writes count written ->
  match count with
  | Some j => exists s, DOMString_of count = Converted s /\ written = Some s
  | None => written = None
  end.
Proof. now destruct count. Qed.

Lemma commit_column (w : option string) (c : nat) (column : node) (d : node) :
  well_formed d ->
  get_node c d = Some column ->
  well_formed (commit w column d)
  /\ skeleton (commit w column d) = skeleton d
  /\ displayed_count c (commit w column d) = overwrite w (displayed_count c d)
  /\ (forall c2 column2,
         get_node c2 d = Some column2 ->
         column_key column2 <> column_key column ->
         displayed_count c2 (commit w column d) = displayed_count c2 d).
Proof.
  intros W G. unfold commit, overwrite. destruct w as [s|].
  - destruct (write_badge_column s c column d W G) as (W' & S & Shown & Same & Other).
    split; [exact W'|]. split; [exact S|]. split; [|exact Other].
    destruct (displayed_count c d) as [s0|] eqn:D.
    + now apply (Shown s0).
    + now rewrite (Same eq_refl).
  - split; [exact W|]. split; [reflexivity|]. split; [|reflexivity].
    now destruct (displayed_count c d).
Qed.

Lemma commit_attributes (w : option string) (n n' : node) (d : node) :
  attributes n' = attributes n -> commit w n' d = commit w n d.
Proof.
  intros E. unfold commit, dataset_columnId, getAttribute. now rewrite E.
Qed.

(** One server count handled: a badge update when the field is there. *)
Lemma onEnd_try_count (u : nat) (column : node) (count : value) (w : option string)
      (p : page) :
  modelled (dom p) ->
  get_node u (dom p) = Some column ->
  writes count w ->
  match count with
  | Some _ => columnNode <- resolve u ;; updateBadgeCount (dataset_columnId columnNode) count
  | None => ret tt
  end p
  = Returned tt (with_dom (commit w column (dom p)) p).
Proof.
  intros Mo G Wr. unfold commit. destruct count as [j|]; cbn [writes] in Wr.
  - destruct Wr as (s & C & ->). unfold bind, resolve. rewrite G.
    apply updateBadgeCount_write; [exact (modelled_key _ _ _ Mo G) | exact C].
  - subst w. unfold ret. now rewrite with_dom_same.
Qed.

(** The [try] block on a response whose [ok] is truthy and whose counts
    the [textContent] setter converts: the two server counts are handled
    in turn and nothing is thrown. *)
Lemma onEnd_try_commits (evt : SortableEvent) (fields : list (string * json)) (p : page)
      (fromNode toNode : node) (wf wt : option string) :
  well_formed (dom p) ->
  modelled (dom p) ->
  get_node (evt_from evt) (dom p) = Some fromNode ->
  get_node (evt_to evt) (dom p) = Some toNode ->
  truthy (assoc "ok" fields) = true ->
  writes (assoc "from_count" fields) wf ->
  writes (assoc "to_count" fields) wt ->
  onEnd_try evt (Parsed (JObj fields)) p
  = Returned tt (with_dom (commit wt toNode (commit wf fromNode (dom p))) p).
Proof.
  intros W Mo Gf Gt Ok Wf Wt.
  destruct (commit_column wf (evt_from evt) fromNode (dom p) W Gf) as (W1 & S1 & _).
  remember (commit wf fromNode (dom p)) as d1 eqn:Hd1.
  destruct (same_skeleton_get_node (evt_to evt) (dom p) d1 toNode S1 Gt)
    as (toNode1 & Gt1 & St1).
  rewrite <- (commit_attributes wt toNode toNode1 d1 (same_skeleton_attributes _ _ St1)).
  unfold onEnd_try. unfold bind at 1. unfold ret at 1.
  unfold bind at 1. cbn [get_prop lift]. unfold ret at 1. rewrite Ok. cbn [negb].
  unfold bind at 1. unfold ret at 1. unfold bind at 1.
  rewrite (onEnd_try_count (evt_from evt) fromNode _ wf p Mo Gf Wf), <- Hd1.
  unfold bind at 1. unfold ret at 1.
  rewrite (onEnd_try_count (evt_to evt) toNode1 _ wt (with_dom d1 p)
             (modelled_skeleton _ _ S1 Mo) Gt1 Wt).
  now rewrite dom_with_dom, with_dom_with_dom.
Qed.

Lemma onEnd_settle_commits (evt : SortableEvent) (fields : list (string * json)) (p : page)
      (fromNode toNode : node) (wf wt : option string) :
  well_formed (dom p) ->
  modelled (dom p) ->
  get_node (evt_from evt) (dom p) = Some fromNode ->
  get_node (evt_to evt) (dom p) = Some toNode ->
  truthy (assoc "ok" fields) = true ->
  writes (assoc "from_count" fields) wf ->
  writes (assoc "to_count" fields) wt ->
  onEnd_settle evt (Parsed (JObj fields)) p
  = Returned tt (with_dom (commit wt toNode (commit wf fromNode (dom p))) p).
Proof.
  intros W Mo Gf Gt Ok Wf Wt. unfold onEnd_settle, try_catch.
  now rewrite (onEnd_try_commits evt fields p fromNode toNode wf wt W Mo Gf Gt Ok Wf Wt).
Qed.

(** What the badges show once the two server counts are handled. *)
Lemma commits_displayed (evt : SortableEvent) (d : node) (fromNode toNode : node)
      (wf wt : option string) :
  well_formed d ->
  get_node (evt_from evt) d = Some fromNode ->
  get_node (evt_to evt) d = Some toNode ->
  (evt_from evt <> evt_to evt -> column_key fromNode <> column_key toNode) ->
  let d' := commit wt toNode (commit wf fromNode d) in
  skeleton d' = skeleton d
  /\ (evt_from evt <> evt_to evt ->
      displayed_count (evt_from evt) d' = overwrite wf (displayed_count (evt_from evt) d)
      /\ displayed_count (evt_to evt) d' = overwrite wt (displayed_count (evt_to evt) d))
  /\ (evt_from evt = evt_to evt ->
      displayed_count (evt_to evt) d'
      = overwrite wt (overwrite wf (displayed_count (evt_to evt) d))).
Proof.
  intros W Gf Gt K.
  destruct (commit_column wf (evt_from evt) fromNode d W Gf) as (W1 & S1 & D1 & O1).
  set (d1 := commit wf fromNode d) in *.
  destruct (same_skeleton_get_node (evt_to evt) d d1 toNode S1 Gt)
    as (toNode1 & Gt1 & St1).
  destruct (same_skeleton_get_node (evt_from evt) d d1 fromNode S1 Gf)
    as (fromNode1 & Gf1 & Sf1).
  destruct (commit_column wt (evt_to evt) toNode1 d1 W1 Gt1) as (_ & S2 & D2 & O2).
  rewrite (commit_attributes wt toNode toNode1 d1 (same_skeleton_attributes _ _ St1))
    in S2, D2, O2.
  cbv zeta. split; [now rewrite S2|]. split.
  - intros N. split.
    + rewrite (O2 (evt_from evt) fromNode1 Gf1); [exact D1|].
      rewrite (dataset_columnId_attributes _ _ (same_skeleton_attributes _ _ Sf1)).
      rewrite (dataset_columnId_attributes _ _ (same_skeleton_attributes _ _ St1)).
      now apply K.
    + rewrite D2. f_equal. apply (O1 (evt_to evt) toNode Gt).
      intros E. now apply (K N).
  - intros E. rewrite D2. f_equal. now rewrite <- E.
Qed.

(** C2, amended.  On a well-formed document within the model and a
    response whose [ok] is truthy and whose counts, where present, are
    values the [textContent] setter converts, with the origin and the
    destination two columns of different column ids: the badge of the
    origin shows the string of [from_count] when the response has it and
    is left as it was otherwise, and the badge of the destination shows
    the string of [to_count] when the response has it and is left as it
    was otherwise.  For a drop within one column the one badge shows
    [to_count] when the response has it, else [from_count] when the
    response has it, else what it showed. *)
Theorem server_counts_override
        (evt : SortableEvent) (fields : list (string * json)) (p : page)
        (fromNode toNode : node) (wf wt : option string) :
  well_formed (dom p) ->
  modelled (dom p) ->
  get_node (evt_from evt) (dom p) = Some fromNode ->
  get_node (evt_to evt) (dom p) = Some toNode ->
  truthy (assoc "ok" fields) = true ->
  writes (assoc "from_count" fields) wf ->
  writes (assoc "to_count" fields) wt ->
  (evt_from evt <> evt_to evt -> column_key fromNode <> column_key toNode) ->
  exists d',
    onEnd_settle evt (Parsed (JObj fields)) p = Returned tt (with_dom d' p)
    /\ (evt_from evt <> evt_to evt ->
        displayed_count (evt_from evt) d'
        = overwrite wf (displayed_count (evt_from evt) (dom p))
        /\ displayed_count (evt_to evt) d'
           = overwrite wt (displayed_count (evt_to evt) (dom p)))
    /\ (evt_from evt = evt_to evt ->
        displayed_count (evt_to evt) d'
        = overwrite wt (overwrite wf (displayed_count (evt_to evt) (dom p)))).
Proof.
  intros W Mo Gf Gt Ok Wf Wt K.
  eexists. split;
    [apply (onEnd_settle_commits evt fields p fromNode toNode wf wt W Mo Gf Gt Ok Wf Wt)|].
  destruct (commits_displayed evt (dom p) fromNode toNode wf wt W Gf Gt K) as (_ & H1 & H2).
  split; assumption.
Qed.

Lemma server_counts_override_witness :
  exists d',
    onEnd_settle Shifted.evt
      (Parsed (JObj [("ok", JBool true); ("from_count", JNum 5); ("to_count", JStr "many")]))
      Shifted.dropped
    = Returned tt (with_dom d' Shifted.dropped)
    /\ displayed_count 2 (dom Shifted.dropped) = Some "1"
    /\ displayed_count 3 (dom Shifted.dropped) = Some "2"
    /\ displayed_count 2 d' = Some "5"
    /\ displayed_count 3 d' = Some "many".
Proof.
  destruct (server_counts_override Shifted.evt
              [("ok", JBool true); ("from_count", JNum 5%Z); ("to_count", JStr "many")]
              Shifted.dropped
              (Board.column 2 "todo" [Board.task 22 "T2"])
              (Board.column 3 "doing" [Board.task 21 "T1"; Board.task 31 "T4"])
              (Some "5") (Some "many"))
    as (d' & E & H & _).
  - apply well_formedb_sound. reflexivity.
  - apply modelledb_sound. reflexivity.
  - reflexivity.
  - reflexivity.
  - reflexivity.
  - exists "5". split; reflexivity.
  - exists "many". split; reflexivity.
  - intros _. discriminate.
  - exists d'. split; [exact E|]. split; [reflexivity|]. split; [reflexivity|].
    apply H. discriminate.
Defined.

(** C2 as stated fails for a drop within one column: the response has no
    [to_count], and the badge of the destination does not keep the
    optimistic count ["3"]; it shows the [from_count] of the response. *)
Lemma absent_to_count_badge_overwritten :
  exists p1 p2,
    WithinColumn.dropped Board.start = Returned tt p1
    /\ displayed_count (evt_to WithinColumn.evt) (dom p1) = Some "3"
    /\ get_prop WithinColumn.data "ok" = inr (Some (JBool true))
    /\ get_prop WithinColumn.data "to_count" = inr undefined
    /\ onEnd_settle WithinColumn.evt (Parsed WithinColumn.data) p1 = Returned tt p2
    /\ displayed_count (evt_to WithinColumn.evt) (dom p2) = Some "4"
    /\ displayed_count (evt_to WithinColumn.evt) (dom p2)
       <> displayed_count (evt_to WithinColumn.evt) (dom p1).
Proof.
  eexists. eexists.
  split; [vm_compute; reflexivity|].
  split; [reflexivity|]. split; [reflexivity|]. split; [reflexivity|].
  split; [vm_compute; reflexivity|].
  split; [reflexivity|]. vm_compute. discriminate.
Qed.

(** ** Badges and task counts *)

(** C5, amended.  On a well-formed document within the model whose two
    columns have different column ids: when [onEnd] reaches its [await],
    before any reply, the badge of the origin and the badge of the
    destination each show the number of task elements in their column;
    after [revertMove] with a recorded session the badge of the column of
    the drop and the badge of the origin column each show the number of
    task elements in their column; and after the commit of a response
    whose [ok] is truthy the badge of the destination, when it has one,
    shows the string of the server's [to_count], and that of another
    origin the string of the server's [from_count], whatever the number
    of task elements. *)
Theorem badges_show_task_counts
        (s : sortable) (evt : SortableEvent) (p : page)
        (itemNode fromNode toNode : node) :
  well_formed (dom p) ->
  modelled (dom p) ->
  get_node (evt_item evt) (dom p) = Some itemNode ->
  get_node (evt_from evt) (dom p) = Some fromNode ->
  get_node (evt_to evt) (dom p) = Some toNode ->
  (evt_from evt <> evt_to evt -> column_key fromNode <> column_key toNode) ->
  (exists p1,
      onEnd_request s evt p = Returned tt p1
      /\ shows_task_count (evt_from evt) (dom p1)
      /\ shows_task_count (evt_to evt) (dom p1))
  /\ (forall c x cn xn,
         originalColumn p = Some c ->
         draggedElement p = Some x ->
         get_node c (dom p) = Some cn ->
         get_node x (dom p) = Some xn ->
         ~ In c (ids xn) ->
         is_badge cn = false ->
         (evt_to evt <> c -> column_key toNode <> column_key cn) ->
         exists p2,
           revertMove evt p = Returned tt p2
           /\ shows_task_count (evt_to evt) (dom p2)
           /\ shows_task_count c (dom p2))
  /\ (forall fields wf wt,
         truthy (assoc "ok" fields) = true ->
         writes (assoc "from_count" fields) wf ->
         writes (assoc "to_count" fields) wt ->
         exists p3,
           onEnd_settle evt (Parsed (JObj fields)) p = Returned tt p3
           /\ (forall st shown,
                  wt = Some st ->
                  displayed_count (evt_to evt) (dom p) = Some shown ->
                  displayed_count (evt_to evt) (dom p3) = Some st)
           /\ (forall sf shown,
                  wf = Some sf ->
                  evt_from evt <> evt_to evt ->
                  displayed_count (evt_from evt) (dom p) = Some shown ->
                  displayed_count (evt_from evt) (dom p3) = Some sf)).
Proof.
  intros W Mo Gi Gf Gt K. split; [|split].
  - destruct (onEnd_request_spec s evt p itemNode fromNode toNode W Mo Gi Gf Gt)
      as (d' & E & _ & _ & Shf & Sht).
    eexists. split; [exact E|]. split; [now apply Shf | exact Sht].
  - intros c x cn xn Oc Ox Gc Gx Hc Hb Kc.
    destruct (revertMove_spec evt p c x cn xn toNode W Mo Oc Ox Gc Gx Hc Hb Gt)
      as (d' & E & _ & _ & Sht & Shc).
    eexists. split; [exact E|]. split; [now apply Sht | exact Shc].
  - intros fields wf wt Ok Wf Wt.
    eexists. split;
      [apply (onEnd_settle_commits evt fields p fromNode toNode wf wt W Mo Gf Gt Ok Wf Wt)|].
    rewrite dom_with_dom.
    destruct (commits_displayed evt (dom p) fromNode toNode wf wt W Gf Gt K)
      as (_ & H1 & H2).
    split.
    + intros st shown -> D.
      destruct (Nat.eq_dec (evt_from evt) (evt_to evt)) as [E|N].
      * rewrite (H2 E), D. unfold overwrite. now destruct wf.
      * destruct (H1 N) as [_ ->]. now rewrite D.
    + intros sf shown -> N D. destruct (H1 N) as [-> _]. now rewrite D.
Qed.

Lemma badges_show_task_counts_witness :
  (exists p1,
      onEnd_request Board.shared Board.T1_to_doing Dropped.across = Returned tt p1
      /\ displayed_count 2 (dom Dropped.across) = Some "3"
      /\ displayed_count 3 (dom Dropped.across) = Some "1"
      /\ shows_task_count 2 (dom p1) /\ displayed_count 2 (dom p1) = Some "2"
      /\ shows_task_count 3 (dom p1) /\ displayed_count 3 (dom p1) = Some "2")
  /\ (exists p2,
         revertMove Shifted.evt Shifted.dropped = Returned tt p2
         /\ displayed_count 3 (dom Shifted.dropped) = Some "2"
         /\ displayed_count 2 (dom Shifted.dropped) = Some "1"
         /\ shows_task_count 3 (dom p2) /\ displayed_count 3 (dom p2) = Some "1"
         /\ shows_task_count 2 (dom p2) /\ displayed_count 2 (dom p2) = Some "2")
  /\ (exists p3,
         onEnd_settle Board.T1_to_doing
           (Parsed (JObj [("ok", JBool true); ("from_count", JNum 7); ("to_count", JNum 9)]))
           Dropped.across
         = Returned tt p3
         /\ displayed_count 3 (dom p3) = Some "9"
         /\ displayed_count 2 (dom p3) = Some "7").
Proof.
  destruct (badges_show_task_counts Board.shared Board.T1_to_doing Dropped.across
              (Board.task 21 "T1")
              (Board.column 2 "todo" [Board.task 22 "T2"; Board.task 23 "T3"])
              (Board.column 3 "doing" [Board.task 21 "T1"; Board.task 31 "T4"]))
    as (H1 & _ & H3).
  - apply well_formedb_sound. reflexivity.
  - apply modelledb_sound. reflexivity.
  - reflexivity.
  - reflexivity.
  - reflexivity.
  - intros _. discriminate.
  - split; [|split].
    + destruct H1 as (p1 & E & S2 & S3). exists p1.
      split; [exact E|]. split; [reflexivity|]. split; [reflexivity|].
      split; [exact S2|]. split; [|split; [exact S3|]];
        vm_compute in E; injection E as <-; reflexivity.
    + destruct (badges_show_task_counts Board.shared Shifted.evt Shifted.dropped
                  (Board.task 21 "T1")
                  (Board.column 2 "todo" [Board.task 22 "T2"])
                  (Board.column 3 "doing" [Board.task 21 "T1"; Board.task 31 "T4"]))
        as (_ & H2 & _).
      * apply well_formedb_sound. reflexivity.
      * apply modelledb_sound. reflexivity.
      * reflexivity.
      * reflexivity.
      * reflexivity.
      * intros _. discriminate.
      * destruct (H2 2 21 (Board.column 2 "todo" [Board.task 22 "T2"])
                     (Board.task 21 "T1")) as (p2 & E & S3 & S2).
        -- reflexivity.
        -- reflexivity.
        -- reflexivity.
        -- reflexivity.
        -- simpl. intuition discriminate.
        -- reflexivity.
        -- intros _. discriminate.
        -- exists p2. split; [exact E|]. split; [reflexivity|]. split; [reflexivity|].
           split; [exact S3|]. split; [|split; [exact S2|]];
             vm_compute in E; injection E as <-; reflexivity.
    + destruct (H3 [("ok", JBool true); ("from_count", JNum 7%Z); ("to_count", JNum 9%Z)]
                   (Some "7") (Some "9")) as (p3 & E & Ht & Hf).
      * reflexivity.
      * exists "7". split; reflexivity.
      * exists "9". split; reflexivity.
      * exists p3. split; [exact E|]. split.
        -- apply (Ht "9" "1"); reflexivity.
        -- apply (Hf "7" "3"); [reflexivity | discriminate | reflexivity].
Defined.

(** C5 as stated fails after the commit of server counts: the server
    counts seven tasks in [todo] (the page is not re-fetched when others
    add tasks), the badge shows ["7"], and two task elements are in the
    column. *)
Lemma committed_badge_is_not_task_count :
  exists p',
    gesture Board.shared Board.T1_to_doing
      (Parsed (JObj [("ok", JBool true); ("from_count", JNum 7); ("to_count", JNum 2)]))
      Board.start
    = Returned tt p'
    /\ displayed_count 2 (dom p') = Some "7"
    /\ task_count 2 (dom p') = Some 2
    /\ ~ shows_task_count 2 (dom p').
Proof.
  eexists. split; [vm_compute; reflexivity|].
  split; [reflexivity|]. split; [reflexivity|].
  intros H. destruct (H "7" eq_refl) as (n & T & E).
  vm_compute in T. injection T as <-. vm_compute in E. discriminate.
Qed.

(** ** The catch branch *)

Lemma shown_message_or (e : exn) : shown_message e = or_could_not_move (message e).
Proof. reflexivity. Qed.

(** The [try] block throws on the replies of [rolls_back], before it has
    changed anything, and the message shown for what it throws is
    [rollback_message]. *)
Lemma onEnd_try_throws (evt : SortableEvent) (r : reply) (p : page) (msg : string) :
  rolls_back r = true ->
  rollback_message (engine_message p) r = Some msg ->
  exists error,
    onEnd_try evt r p = Thrown error p
    /\ shown_message error = msg.
Proof.
  unfold rolls_back, onEnd_try, bind, throw, ret.
  destruct r as [e|e|data]; intros H R.
  - exists e. split; [reflexivity|]. cbn in R. now injection R as <-.
  - exists e. split; [reflexivity|]. cbn in R. now injection R as <-.
  - destruct data as [|b|z|s|items|fields]; cbn [get_prop lift] in *;
      unfold ret, raise, convert; cbn [truthy negb js_or to_string json_to_string];
      cbn [rollback_message] in R.
    + eexists. split; [reflexivity|]. now injection R as <-.
    + eexists. split; [reflexivity|]. now injection R as <-.
    + eexists. split; [reflexivity|]. now injection R as <-.
    + eexists. split; [reflexivity|]. now injection R as <-.
    + eexists. split; [reflexivity|]. now injection R as <-.
    + rewrite H. unfold js_or.
      destruct (truthy (assoc "error" fields)) eqn:T.
      * destruct (to_string (assoc "error" fields)) as [s| |]; [| |discriminate].
        -- eexists. split; [reflexivity|]. now injection R as <-.
        -- eexists. split; [reflexivity|]. now injection R as <-.
      * cbn [to_string json_to_string]. eexists. split; [reflexivity|].
        now injection R as <-.
Qed.

Lemma onEnd_settle_catch (evt : SortableEvent) (r : reply) (p p1 : page) (msg : string) :
  rolls_back r = true ->
  rollback_message (engine_message p) r = Some msg ->
  markup_free msg = true ->
  revertMove evt p = Returned tt p1 ->
  onEnd_settle evt r p
  = Returned tt (with_toast (mkToast msg "alert alert-error") p1).
Proof.
  intros H Rm Mf R. destruct (onEnd_try_throws evt r p msg H Rm) as (error & T & M).
  unfold onEnd_settle, try_catch. rewrite T. unfold bind. rewrite R.
  unfold showNotification. now rewrite M, Mf.
Qed.

Lemma revertMove_returns (evt : SortableEvent) (p : page) (toNode : node) :
  well_formed (dom p) ->
  modelled (dom p) ->
  get_node (evt_to evt) (dom p) = Some toNode ->
  session_in_document p ->
  exists p1, revertMove evt p = Returned tt p1.
Proof.
  intros W Mo Gt S. unfold session_in_document in S.
  destruct (originalColumn p) as [c|] eqn:Oc.
  - destruct (draggedElement p) as [x|] eqn:Ox.
    + destruct S as (cn & xn & Gc & Gx & Hc & Hb).
      destruct (revertMove_spec evt p c x cn xn toNode W Mo Oc Ox Gc Gx Hc Hb Gt)
        as (d' & E & _).
      exists (with_dom d' p). exact E.
    + exists p. unfold revertMove. now rewrite Oc, Ox.
  - exists p. unfold revertMove. now rewrite Oc.
Qed.

Lemma rolls_back_false (r : reply) :
  rolls_back r = false ->
  exists fields, r = Parsed (JObj fields) /\ truthy (assoc "ok" fields) = true.
Proof.
  destruct r as [e|e|[|b|z|s|items|fields]]; try discriminate.
  cbn. intros H. exists fields. split; [reflexivity|].
  now apply negb_false_iff in H.
Qed.



(** A count that the [textContent] setter cannot convert, for a column
    with a badge: the response has a truthy [ok], the setter throws inside
    the [try] block, and the drop is rolled back and notified with the
    engine's message. *)
Example unconvertible_count_is_rolled_back :
  exists p1,
    revertMove Board.T1_to_doing Dropped.across = Returned tt p1
    /\ onEnd_settle Board.T1_to_doing
         (Parsed (JObj [("ok", JBool true); ("from_count", JObj [("toString", JNum 1)])]))
         Dropped.across
       = Returned tt
           (with_toast (mkToast "Cannot convert object to primitive value" "alert alert-error")
                       p1).
Proof. eexists. split; vm_compute; reflexivity. Qed.


(** ** The notification *)


Lemma Dropped_across_reverted :
  exists p1, revertMove Board.T1_to_doing Dropped.across = Returned tt p1.
Proof. eexists. vm_compute. reflexivity. Qed.



(** * Further properties *)

(** ** Counts that are already shown *)

Lemma set_textContent_same (b : nat) (s : string) (t : node) :
  (forall n, In n (nodes t) -> uid n = b -> children n = [] /\ text n = s) ->
  set_textContent b s t = t.
Proof.
  induction t as [u a x ks IH] using node_induction. intros H.
  cbn [set_textContent]. destruct (Nat.eqb_spec u b) as [E|N].
  - destruct (H (Element u a x ks)) as [K T]; [now left | exact E |].
    cbn in K, T. now subst.
  - f_equal. rewrite <- (map_id ks) at 2. apply map_ext_Forall.
    apply (Forall_impl_in _ _ ks
             (fun k Hk Hi => Hi (fun n Hn => H n (in_nodes_child u a x ks k n Hk Hn))) IH).
Qed.

(** Writing into a badge what it shows changes nothing. *)
Lemma write_badge_shown (s : string) (c : nat) (column : node) (d : node) :
  well_formed d ->
  get_node c d = Some column ->
  displayed_count c d = Some s ->
  write_badge (dataset_columnId column) s d = d.
Proof.
  intros W G D. unfold displayed_count, badge_of in D. rewrite G in D.
  unfold write_badge.
  destruct (querySelector (AttrEq "data-column-count" (template (dataset_columnId column))) d)
    as [badge|] eqn:Q; [|reflexivity].
  cbn in D. injection D as T.
  destruct (well_formed_badge _ _ _ W Q) as (_ & K & _ & _).
  apply set_textContent_same. intros n Hn E.
  destruct W as [Hd _]. apply find_some in Q. destruct Q as [Hb _].
  rewrite (NoDup_map_injective uid _ Hd n badge Hn Hb E). now split.
Qed.

Lemma write_badge_absent (s : string) (c : nat) (column : node) (d : node) :
  get_node c d = Some column ->
  displayed_count c d = None ->
  write_badge (dataset_columnId column) s d = d.
Proof.
  intros G D. unfold displayed_count, badge_of in D. rewrite G in D.
  unfold write_badge.
  destruct (querySelector (AttrEq "data-column-count" (template (dataset_columnId column))) d);
    [discriminate | reflexivity].
Qed.

(** Recounting a column whose badge shows its count changes nothing. *)
Lemma write_badge_recount (c : nat) (column : node) (d : node) :
  well_formed d ->
  get_node c d = Some column ->
  shows_task_count c d ->
  write_badge (dataset_columnId column)
              (string_of_nat (List.length (querySelectorAll (HasAttr "data-task-id") column)))
              d
  = d.
Proof.
  intros W G S. destruct (displayed_count c d) as [s|] eqn:D.
  - apply (write_badge_shown _ c column d W G).
    destruct (S s D) as (n & T & ->). unfold task_count in T. rewrite G in T.
    cbn in T. injection T as <-. exact D.
  - now apply (write_badge_absent _ c column d G).
Qed.

Lemma updateColumnCounts_recount (f t : nat) (fromNode toNode : node) (p : page) :
  well_formed (dom p) ->
  modelled (dom p) ->
  get_node f (dom p) = Some fromNode ->
  get_node t (dom p) = Some toNode ->
  shows_task_count f (dom p) ->
  shows_task_count t (dom p) ->
  updateColumnCounts (Some f) (Some t) p = Returned tt p.
Proof.
  intros W Mo Gf Gt Sf St.
  unfold updateColumnCounts, bind, resolve, ret.
  rewrite Gf, (updateBadgeCount_count f fromNode p Mo Gf).
  rewrite (write_badge_recount f fromNode (dom p) W Gf Sf), with_dom_same.
  destruct (negb (same_handle (Some t) (Some f))); [|reflexivity].
  rewrite Gt, (updateBadgeCount_count t toNode p Mo Gt).
  now rewrite (write_badge_recount t toNode (dom p) W Gt St), with_dom_same.
Qed.

(** X1.  [updateColumnCounts] is idempotent: on a well-formed document
    within the model (column ids that can stand in the badge selector)
    whose two columns have different column ids, it returns, and run
    again on the page it returned it returns that page unchanged. *)
Theorem updateColumnCounts_idempotent (f t : nat) (fromNode toNode : node) (p : page) :
  well_formed (dom p) ->
  modelled (dom p) ->
  get_node f (dom p) = Some fromNode ->
  get_node t (dom p) = Some toNode ->
  (f <> t -> column_key fromNode <> column_key toNode) ->
  exists p1,
    updateColumnCounts (Some f) (Some t) p = Returned tt p1
    /\ updateColumnCounts (Some f) (Some t) p1 = Returned tt p1.
Proof.
  intros W Mo Gf Gt K.
  destruct (updateColumnCounts_spec f t fromNode toNode p W Mo Gf Gt)
    as (d' & E & W' & S' & Shf & Sht).
  exists (with_dom d' p). split; [exact E|].
  destruct (same_skeleton_get_node f (dom p) d' fromNode S' Gf) as (fromNode' & Gf' & _).
  destruct (same_skeleton_get_node t (dom p) d' toNode S' Gt) as (toNode' & Gt' & _).
  apply (updateColumnCounts_recount f t fromNode' toNode' (with_dom d' p));
    try assumption.
  - exact (modelled_skeleton _ _ S' Mo).
  - now apply Shf.
Qed.

Lemma updateColumnCounts_idempotent_witness :
  exists p1,
    updateColumnCounts (Some 2) (Some 3) Dropped.across = Returned tt p1
    /\ updateColumnCounts (Some 2) (Some 3) p1 = Returned tt p1
    /\ displayed_count 2 (dom Dropped.across) = Some "3"
    /\ displayed_count 2 (dom p1) = Some "2".
Proof.
  destruct (updateColumnCounts_idempotent 2 3
              (Board.column 2 "todo" [Board.task 22 "T2"; Board.task 23 "T3"])
              (Board.column 3 "doing" [Board.task 21 "T1"; Board.task 31 "T4"])
              Dropped.across) as (p1 & E1 & E2).
  - apply well_formedb_sound. reflexivity.
  - apply modelledb_sound. reflexivity.
  - reflexivity.
  - reflexivity.
  - intros _. discriminate.
  - exists p1. split; [exact E1|]. split; [exact E2|]. split; [reflexivity|].
    vm_compute in E1. injection E1 as <-. reflexivity.
Defined.

(** A server count that agrees with the column is written as the badge
    of the column shows it. *)
Lemma commit_agreed (v : value) (c : nat) (column : node) (d : node) :
  well_formed d ->
  modelled d ->
  get_node c d = Some column ->
  shows_task_count c d ->
  agrees v (task_count c d) ->
  exists w, writes v w /\ commit w column d = d.
Proof.
  intros W Mo G S A. destruct v as [j|].
  - destruct A as (n & T & ->).
    unfold task_count in T. rewrite G in T. cbn in T. injection T as <-.
    exists (Some (string_of_nat
                    (List.length (querySelectorAll (HasAttr "data-task-id") column)))).
    split.
    + eexists. split; [|reflexivity].
      apply (DOMString_of_number _ (modelled_count d c column _ Mo G)).
    + exact (write_badge_recount c column d W G S).
  - exists None. split; reflexivity.
Qed.

(** X2.  On a well-formed document within the model (column ids that can
    stand in the badge selector), when the badges of the two columns show
    their task counts (as they do once [onEnd] has reached its [await])
    and each count in a response with a truthy [ok] is absent or is the
    number of task elements in its column, the rest of [onEnd] returns
    the page as it is. *)
Theorem agreed_counts_change_nothing
        (evt : SortableEvent) (fields : list (string * json)) (p : page)
        (fromNode toNode : node) :
  well_formed (dom p) ->
  modelled (dom p) ->
  get_node (evt_from evt) (dom p) = Some fromNode ->
  get_node (evt_to evt) (dom p) = Some toNode ->
  shows_task_count (evt_from evt) (dom p) ->
  shows_task_count (evt_to evt) (dom p) ->
  truthy (assoc "ok" fields) = true ->
  agrees (assoc "from_count" fields) (task_count (evt_from evt) (dom p)) ->
  agrees (assoc "to_count" fields) (task_count (evt_to evt) (dom p)) ->
  onEnd_settle evt (Parsed (JObj fields)) p = Returned tt p.
Proof.
  intros W Mo Gf Gt Sf St Ok Af At.
  destruct (commit_agreed _ (evt_from evt) fromNode (dom p) W Mo Gf Sf Af) as (wf & Wf & Cf).
  destruct (commit_agreed _ (evt_to evt) toNode (dom p) W Mo Gt St At) as (wt & Wt & Ct).
  rewrite (onEnd_settle_commits evt fields p fromNode toNode wf wt W Mo Gf Gt Ok Wf Wt).
  now rewrite Cf, Ct, with_dom_same.
Qed.

Lemma agreed_counts_change_nothing_witness :
  onEnd_settle Shifted.evt
    (Parsed (JObj [("ok", JBool true); ("from_count", JNum 1); ("to_count", JNum 2)]))
    Shifted.dropped
  = Returned tt Shifted.dropped.
Proof.
  apply (agreed_counts_change_nothing Shifted.evt
           [("ok", JBool true); ("from_count", JNum 1%Z); ("to_count", JNum 2%Z)]
           Shifted.dropped
           (Board.column 2 "todo" [Board.task 22 "T2"])
           (Board.column 3 "doing" [Board.task 21 "T1"; Board.task 31 "T4"])).
  - apply well_formedb_sound. reflexivity.
  - apply modelledb_sound. reflexivity.
  - reflexivity.
  - reflexivity.
  - intros s H. vm_compute in H. injection H as <-. exists 1. split; reflexivity.
  - intros s H. vm_compute in H. injection H as <-. exists 2. split; reflexivity.
  - reflexivity.
  - exists 1. split; reflexivity.
  - exists 2. split; reflexivity.
Defined.

(** ** What a drop leaves alone *)

Lemma keeps_onEnd {X : Type} (f : page -> X) s evt r :
  beside_dom f ->
  (forall g p, f (mkPage (dom p) (g (body_classList p)) (draggedElement p) (originalColumn p)
                         (originalIndex p) (sortables p) (requests p) (toasts p)
                         (engine_message p)) = f p) ->
  (forall q p, f (mkPage (dom p) (body_classList p) (draggedElement p) (originalColumn p)
                         (originalIndex p) (sortables p) (requests p ++ [q]) (toasts p)
                         (engine_message p)) = f p) ->
  (forall t p, f (with_toast t p) = f p) ->
  keeps f (onEnd s evt r).
Proof.
  intros B C R T. unfold onEnd. apply keeps_bind.
  - unfold onEnd_request. apply keeps_bind.
    + intros p p' H. cbn in H. injection H as <-. apply C.
    + intros _. apply keeps_bind; [apply keeps_resolve|]. intros i.
      apply keeps_bind; [apply keeps_resolve|]. intros t.
      apply keeps_bind; [now apply keeps_updateColumnCounts|]. intros _.
      intros p p' H. cbn in H. injection H as <-. apply R.
  - intros _. now apply keeps_onEnd_settle.
Qed.



(** ** The class on [body] *)

Lemma classList_remove_absent (c : string) (l : list string) :
  ~ In c (classList_remove c l).
Proof.
  unfold classList_remove. intros H. apply filter_In in H. destruct H as [_ H].
  now rewrite String.eqb_refl in H.
Qed.

Lemma classList_remove_id (c : string) (l : list string) :
  ~ In c l -> classList_remove c l = l.
Proof.
  induction l as [|x l IH]; intros H; [reflexivity|]. cbn.
  destruct (String.eqb_spec x c) as [->|N]; [exfalso; apply H; now left|].
  cbn. f_equal. apply IH. intros Hin. apply H. now right.
Qed.

Lemma classList_remove_add (c : string) (l : list string) :
  classList_remove c (classList_add c l) = classList_remove c l.
Proof.
  unfold classList_add. destruct (existsb (String.eqb c) l); [reflexivity|].
  unfold classList_remove. rewrite filter_app. cbn.
  rewrite String.eqb_refl. cbn. apply app_nil_r.
Qed.

Lemma onEnd_classList (s : sortable) (evt : SortableEvent) (r : reply) (p p' : page) :
  ended (onEnd s evt r p) = Some p' ->
  body_classList p' = classList_remove "dragging-active" (body_classList p).
Proof.
  set (p0 := mkPage (dom p) (classList_remove "dragging-active" (body_classList p))
                    (draggedElement p) (originalColumn p) (originalIndex p)
                    (sortables p) (requests p) (toasts p) (engine_message p)).
  set (rest :=
         (itemNode <- resolve (evt_item evt) ;;
          toNode <- resolve (evt_to evt) ;;
          updateColumnCounts (Some (evt_from evt)) (Some (evt_to evt)) ;;
          fetch (move_request s (dataset_taskId itemNode) (dataset_columnId toNode)
                              (newIndex evt))) ;;
         onEnd_settle evt r).
  assert (E : onEnd s evt r p = rest p0) by reflexivity.
  rewrite E. intros H.
  assert (K : keeps body_classList rest).
  { assert (B : beside_dom body_classList) by (intros d q; reflexivity).
    unfold rest. apply keeps_bind.
    - apply keeps_bind; [apply keeps_resolve|]. intros i.
      apply keeps_bind; [apply keeps_resolve|]. intros t.
      apply keeps_bind; [now apply keeps_updateColumnCounts|]. intros _.
      intros q q' Hq. cbn in Hq. now injection Hq as <-.
    - intros _. apply keeps_onEnd_settle; [exact B|]. intros t q. reflexivity. }
  now rewrite (K p0 p' H).
Qed.



(** ** Initialising twice *)

(** X5.  [initializeKanbanBoard] does not look for instances that exist:
    run twice on a board, it returns with every [Sortable] instance of the
    first run created a second time, after the first ones and in the same
    order, and the tree untouched. *)
Theorem initializeKanbanBoard_twice (boardId token endpoint : string) (p : page) (board : node) :
  getElementById boardId (dom p) = Some board ->
  exists added,
    initializeKanbanBoard boardId token endpoint p = Returned tt (with_sortables added p)
    /\ (initializeKanbanBoard boardId token endpoint ;;
        initializeKanbanBoard boardId token endpoint) p
       = Returned tt (with_sortables (added ++ added) p)
    /\ added = map (fun column => mkSortable (uid column) "shared" token endpoint)
                   (filter can_drag (querySelectorAll (HasAttr "data-column-id") board)).
Proof.
  intros H. eexists. split; [|split; [|reflexivity]].
  - unfold initializeKanbanBoard. rewrite H. apply forEach_new_Sortable.
  - unfold bind. unfold initializeKanbanBoard at 1. rewrite H, forEach_new_Sortable.
    unfold initializeKanbanBoard. cbn [dom with_sortables]. rewrite H, forEach_new_Sortable.
    unfold with_sortables. cbn. now rewrite <- app_assoc.
Qed.

Lemma initializeKanbanBoard_twice_witness :
  exists added,
    initializeKanbanBoard "board" "tok" "/m/{taskId}" Board.start
    = Returned tt (with_sortables added Board.start)
    /\ (initializeKanbanBoard "board" "tok" "/m/{taskId}" ;;
        initializeKanbanBoard "board" "tok" "/m/{taskId}") Board.start
       = Returned tt (with_sortables (added ++ added) Board.start)
    /\ map el added = [2; 3].
Proof.
  destruct (initializeKanbanBoard_twice "board" "tok" "/m/{taskId}" Board.start
              (Element 1 [("id", "board")] ""
                 [Board.badge 10 "todo" "3";
                  Board.column 2 "todo"
                    [Board.task 21 "T1"; Board.task 22 "T2"; Board.task 23 "T3"];
                  Board.badge 11 "doing" "1";
                  Board.column 3 "doing" [Board.task 31 "T4"]]))
    as (added & E1 & E2 & A).
  - reflexivity.
  - exists added. split; [exact E1|]. split; [exact E2|]. rewrite A. reflexivity.
Defined.

(** ** What a rollback moves *)

Lemma ids_attach_subset c ref x (t : node) :
  forall v, In v (ids (attach c ref x t)) -> In v (ids t) \/ In v (ids x).
Proof.
  induction t as [u a s ks IH] using node_induction. intros v.
  cbn [attach]. destruct (Nat.eqb_spec u c) as [E|N]; rewrite !in_ids_Element.
  - intros [H|H]; [now left; left|].
    apply in_flat_map in H. destruct H as (k' & Hk' & Hv).
    apply (Permutation_in _ (insert_before_Permutation ref x ks)) in Hk'.
    destruct Hk' as [<-|Hk']; [now right|].
    left. right. apply in_flat_map. now exists k'.
  - intros [H|H]; [now left; left|].
    apply in_flat_map in H. destruct H as (k' & Hk' & Hv).
    apply in_map_iff in Hk'. destruct Hk' as (k & <- & Hk).
    destruct (proj1 (Forall_forall _ _) IH k Hk v Hv) as [H|H]; [|now right].
    left. right. apply in_flat_map. now exists k.
Qed.

Lemma find_insert_before (t : nat) ref (x : node) (ks : list node) :
  ~ In t (ids x) ->
  find (fun n => Nat.eqb (uid n) t) (flat_map nodes (insert_before ref x ks))
  = find (fun n => Nat.eqb (uid n) t) (flat_map nodes ks).
Proof.
  intros H. apply get_node_none in H. unfold get_node in H.
  induction ks as [|k ks IH]; cbn [insert_before flat_map].
  - now rewrite find_app, H.
  - destruct (is_child ref k); cbn [flat_map].
    + now rewrite find_app, H.
    + rewrite !find_app. now rewrite IH.
Qed.

(** An element other than the new parent keeps its children, by their
    ids, when [x] is attached. *)
Lemma get_node_attach_other c ref x (t : nat) (d tn : node) :
  ~ In t (ids x) -> t <> c ->
  get_node t d = Some tn ->
  exists n', get_node t (attach c ref x d) = Some n'
             /\ map uid (children n') = map uid (children tn).
Proof.
  intros Hx Ht. induction d as [u a s ks IH] using node_induction. intros G.
  destruct (Nat.eq_dec u t) as [E|N].
  - subst u. pose proof (get_node_self (Element t a s ks)) as S. cbn [uid] in S.
    rewrite S in G. injection G as <-.
    exists (attach c ref x (Element t a s ks)). split.
    + pose proof (get_node_self (attach c ref x (Element t a s ks))) as S'.
      now rewrite uid_attach in S'.
    + cbn [attach]. destruct (Nat.eqb_spec t c); [contradiction|].
      cbn [children]. rewrite map_map. apply map_ext. intros k. apply uid_attach.
  - rewrite get_node_Element_other in G by exact N.
    cbn [attach]. destruct (Nat.eqb_spec u c) as [E|Nc].
    + exists tn. split; [|reflexivity].
      rewrite get_node_Element_other by exact N.
      now rewrite find_insert_before.
    + rewrite get_node_Element_other by exact N.
      induction ks as [|k ks IHks]; [discriminate|].
      inversion IH as [|? ? Hk Hrest]; subst.
      cbn [flat_map map] in G |- *. rewrite find_app in G. rewrite find_app.
      destruct (find (fun n => Nat.eqb (uid n) t) (nodes k)) as [n|] eqn:Fk.
      * injection G as ->. destruct (Hk Fk) as (n' & Gn' & Cn').
        unfold get_node in Gn'. rewrite Gn'. now exists n'.
      * assert (Fk' : find (fun n => Nat.eqb (uid n) t) (nodes (attach c ref x k)) = None).
        { apply get_node_none. intros Hin. apply ids_attach_subset in Hin.
          destruct Hin as [Hin|Hin]; [|contradiction].
          now apply get_node_none in Fk. }
        rewrite Fk'. now apply IHks.
Qed.

Lemma table_skeleton (t : node) : table (skeleton t) = table t.
Proof.
  unfold table. rewrite nodes_skeleton, map_map. apply map_ext.
  intros n. now rewrite uid_skeleton, attributes_skeleton.
Qed.

Lemma same_skeleton_table (d d' : node) : skeleton d' = skeleton d -> table d' = table d.
Proof. intros E. now rewrite <- (table_skeleton d'), E, table_skeleton. Qed.

Lemma without_insert_id (ref : option nat) (x : nat) (l : list nat) :
  without x (insert_id ref x l) = without x l.
Proof.
  induction l as [|y l IH]; cbn [insert_id].
  - cbn. now rewrite Nat.eqb_refl.
  - destruct (match ref with Some r => Nat.eqb y r | None => false end).
    + cbn [without filter]. now rewrite Nat.eqb_refl.
    + cbn [without filter]. fold (without x (insert_id ref x l)). fold (without x l).
      now rewrite IH.
Qed.

Lemma without_without (x : nat) (l : list nat) : without x (without x l) = without x l.
Proof.
  apply without_absent. intros H. apply filter_In in H. destruct H as [_ H].
  now rewrite Nat.eqb_refl in H.
Qed.

Lemma matches_attributes (sel : selector) (n : node) :
  matches sel n = attributes_match sel (attributes n).
Proof. now destruct sel. Qed.

Lemma Permutation_length_filter {A : Type} (f : A -> bool) (l l' : list A) :
  Permutation l l' -> List.length (filter f l) = List.length (filter f l').
Proof.
  induction 1 as [|a l l' _ IH|a b l|l l' l'' _ IH1 _ IH2]; cbn [filter].
  - reflexivity.
  - destruct (f a); cbn; now rewrite IH.
  - destruct (f a), (f b); reflexivity.
  - now rewrite IH1.
Qed.

Lemma elements_matching_table (sel : selector) (d : node) :
  elements_matching sel d
  = List.length (filter (fun e => attributes_match sel (snd e)) (table d)).
Proof.
  unfold elements_matching, table. rewrite length_filter_map. reflexivity.
Qed.

Lemma split_at_index (x i : nat) (l : list nat) :
  NoDup l -> nth_error l i = Some x ->
  exists a b, l = a ++ x :: b /\ List.length a = i /\ ~ In x a /\ ~ In x b.
Proof.
  intros Hd Hn. destruct (nth_error_split l i Hn) as (a & b & E & La).
  exists a, b. subst l. split; [reflexivity|]. split; [exact La|].
  apply NoDup_remove_2 in Hd.
  split; intros H; apply Hd; apply in_or_app; auto.
Qed.

Lemma firstn_skipn_middle (x : nat) (a b : list nat) :
  firstn (List.length a) (a ++ b) ++ x :: skipn (List.length a) (a ++ b) = a ++ x :: b.
Proof.
  rewrite firstn_app, Nat.sub_diag, firstn_all, skipn_app, skipn_all, Nat.sub_diag.
  cbn. now rewrite app_nil_r.
Qed.

Lemma split_NoDup_middle (x : nat) (a b : list nat) :
  NoDup (a ++ x :: b) -> ~ In x a /\ ~ In x b.
Proof.
  intros Hd. apply NoDup_remove_2 in Hd.
  split; intros H; apply Hd; apply in_or_app; auto.
Qed.

(** *** The reference child, on the ids of the children *)

Lemma next_sibling_next_id (x : nat) (ks : list node) :
  next_sibling x ks = next_id x (map uid ks).
Proof.
  induction ks as [|k ks IH]; [reflexivity|]. cbn [next_sibling map next_id].
  destruct (Nat.eqb (uid k) x); [now destruct ks | exact IH].
Qed.

Lemma reference_child_ids (x : nat) (i : option nat) (n : node) :
  reference_child x i n = reference_id x i (map uid (children n)).
Proof.
  unfold reference_child, reference_id. destruct i as [i|]; [|reflexivity].
  rewrite nth_error_map.
  destruct (nth_error (children n) i) as [r|]; cbn [option_map]; [|reflexivity].
  destruct (Nat.eqb (uid r) x); [apply next_sibling_next_id | reflexivity].
Qed.

Lemma next_id_middle (x : nat) (a b : list nat) :
  ~ In x a -> next_id x (a ++ x :: b) = hd_error b.
Proof.
  induction a as [|y a IH]; intros H; cbn [app next_id].
  - now rewrite Nat.eqb_refl.
  - destruct (Nat.eqb_spec y x) as [->|N]; [exfalso; apply H; now left|].
    apply IH. intros Hin. apply H. now right.
Qed.

Lemma nth_error_insert (x : nat) (a b : list nat) (i : nat) :
  nth_error (a ++ x :: b) i
  = if Nat.ltb i (List.length a) then nth_error (a ++ b) i
    else if Nat.eqb i (List.length a) then Some x
         else nth_error (a ++ b) (i - 1).
Proof.
  destruct (Nat.ltb_spec i (List.length a)) as [L|L].
  - now rewrite !nth_error_app1 by lia.
  - destruct (Nat.eqb_spec i (List.length a)) as [->|N].
    + now rewrite nth_error_app2, Nat.sub_diag by lia.
    + rewrite !nth_error_app2 by lia.
      replace (i - List.length a) with (S (i - 1 - List.length a)) by lia.
      reflexivity.
Qed.

Lemma NoDup_index_unique (l : list nat) (i j r : nat) :
  NoDup l -> nth_error l i = Some r -> nth_error l j = Some r -> i = j.
Proof.
  intros Hd Hi Hj. apply (proj1 (NoDup_nth_error l) Hd).
  - apply nth_error_Some. congruence.
  - congruence.
Qed.

Lemma NoDup_without (x : nat) (l : list nat) : NoDup l -> NoDup (without x l).
Proof. apply NoDup_filter. Qed.

Lemma not_in_without (x : nat) (l : list nat) : ~ In x (without x l).
Proof.
  intros H. apply filter_In in H. destruct H as [_ H].
  now rewrite Nat.eqb_refl in H.
Qed.

Lemma in_without (x r : nat) (l : list nat) : In r l -> r <> x -> In r (without x l).
Proof.
  intros H N. apply filter_In. split; [exact H|]. now destruct (Nat.eqb_spec r x).
Qed.

Lemma in_insert_id (ref : option nat) (x : nat) (l : list nat) : In x (insert_id ref x l).
Proof.
  induction l as [|y l IH]; cbn [insert_id]; [now left|].
  destruct (match ref with Some r => Nat.eqb y r | None => false end);
    [now left | now right].
Qed.

Lemma reference_id_in (x : nat) (i : option nat) (l : list nat) (r : nat) :
  NoDup l -> reference_id x i l = Some r -> In r l /\ r <> x.
Proof.
  intros Hd R. unfold reference_id in R. destruct i as [i|]; [|discriminate].
  destruct (nth_error l i) as [r0|] eqn:N; [|discriminate].
  destruct (Nat.eqb_spec r0 x) as [->|Nx].
  - destruct (split_at_index x i l Hd N) as (a & b & E & _ & Ha & Hb).
    rewrite E, next_id_middle in R by exact Ha.
    destruct b as [|r' b]; [discriminate|]. injection R as ->.
    split.
    + rewrite E. apply in_or_app. right. right. now left.
    + intros ->. apply Hb. now left.
  - injection R as <-. split; [now apply nth_error_In in N | exact Nx].
Qed.

(** After [x] has been put before the reference child, the reference
    child found at the same index is the child that follows [x]. *)
Lemma reference_id_after_revert (x : nat) (i : option nat) (l : list nat) :
  NoDup l ->
  reference_id x i (insert_id (reference_id x i l) x (without x l))
  = next_id x (insert_id (reference_id x i l) x (without x l)).
Proof.
  intros Hd.
  pose proof (NoDup_without x l Hd) as Ho.
  pose proof (not_in_without x l) as Hx.
  destruct (reference_id x i l) as [r|] eqn:R.
  - destruct (reference_id_in x i l r Hd R) as [Hr Nr].
    destruct (in_split r _ (in_without x r l Hr Nr)) as (a & b & Eo).
    assert (Na : nth_error (without x l) (List.length a) = Some r).
    { rewrite Eo, nth_error_app2, Nat.sub_diag by lia. reflexivity. }
    assert (Ha : ~ In x a).
    { intros H. apply Hx. rewrite Eo. apply in_or_app. now left. }
    rewrite (insert_id_at _ (List.length a) r x Ho Na).
    rewrite Eo, firstn_skipn_middle, next_id_middle by exact Ha. cbn [hd_error].
    destruct i as [i|]; [|discriminate]. unfold reference_id in R |- *.
    assert (Hi : i = List.length a \/ i = S (List.length a)).
    { destruct (nth_error l i) as [r0|] eqn:N; [|discriminate].
      destruct (Nat.eqb_spec r0 x) as [->|Nx].
      - left. destruct (split_at_index x i l Hd N) as (a' & b' & E & La & Ha' & Hb').
        rewrite E, next_id_middle in R by exact Ha'.
        destruct b' as [|r' b']; [discriminate|]. injection R as ->.
        assert (Na' : nth_error (without x l) (List.length a') = Some r).
        { rewrite E, without_middle by assumption.
          rewrite nth_error_app2, Nat.sub_diag by lia. reflexivity. }
        rewrite <- La. exact (NoDup_index_unique _ _ _ r Ho Na' Na).
      - injection R as ->.
        destruct (in_dec Nat.eq_dec x l) as [Hin|Hnin].
        + destruct (in_split x l Hin) as (a' & b' & E).
          rewrite E in Hd. destruct (split_NoDup_middle x a' b' Hd) as [Ha' Hb'].
          assert (Eo' : without x l = a' ++ b').
          { rewrite E. now apply without_middle. }
          rewrite E, nth_error_insert in N. rewrite <- Eo' in N.
          destruct (Nat.ltb_spec i (List.length a')) as [L|L].
          * left. exact (NoDup_index_unique _ _ _ r Ho N Na).
          * destruct (Nat.eqb_spec i (List.length a')) as [Ei|Ni];
              [injection N as N; congruence|].
            right. pose proof (NoDup_index_unique _ _ _ r Ho N Na). lia.
        + rewrite without_absent in Na, Ho by exact Hnin.
          left. exact (NoDup_index_unique _ _ _ r Ho N Na). }
    rewrite nth_error_insert.
    destruct Hi as [->| ->].
    + rewrite Nat.ltb_irrefl, Nat.eqb_refl, Nat.eqb_refl.
      now rewrite next_id_middle.
    + destruct (Nat.ltb_spec (S (List.length a)) (List.length a)) as [L|_]; [lia|].
      destruct (Nat.eqb_spec (S (List.length a)) (List.length a)) as [L|_]; [lia|].
      cbn [Nat.sub]. rewrite Nat.sub_0_r.
      rewrite nth_error_app2, Nat.sub_diag by lia. cbn [nth_error].
      now destruct (Nat.eqb_spec r x).
  - rewrite insert_id_None, next_id_middle by exact Hx. cbn [hd_error].
    destruct i as [i|]; [|reflexivity]. unfold reference_id in R |- *.
    rewrite nth_error_insert. cbn [List.length app].
    assert (Hl : List.length (without x l) <= List.length l) by apply filter_length_le.
    destruct (nth_error l i) as [r0|] eqn:N.
    + destruct (Nat.eqb_spec r0 x) as [->|Nx]; [|discriminate].
      destruct (split_at_index x i l Hd N) as (a' & b' & E & La & Ha' & Hb').
      rewrite E, next_id_middle in R by exact Ha'.
      destruct b' as [|r' b']; [|discriminate].
      assert (Eo : without x l = a').
      { rewrite E, without_middle, app_nil_r by assumption. reflexivity. }
      rewrite Eo, La, Nat.ltb_irrefl, Nat.eqb_refl, Nat.eqb_refl.
      now rewrite next_id_middle.
    + apply nth_error_None in N.
      destruct (Nat.ltb_spec i (List.length (without x l))) as [L|_]; [lia|].
      destruct (Nat.eqb_spec i (List.length (without x l))) as [_|Ni].
      * rewrite Nat.eqb_refl. now rewrite next_id_middle.
      * rewrite (proj2 (nth_error_None (without x l ++ []) (i - 1))); [reflexivity|].
        rewrite length_app. cbn [List.length]. lia.
Qed.

(** *** Taking a child out and putting it back where it was *)

Lemma uid_in_ids (n : node) : In (uid n) (ids n).
Proof. destruct n as [u a s ks]. rewrite ids_Element. now left. Qed.

Lemma child_in_nodes (cn xn : node) : In xn (children cn) -> In xn (nodes cn).
Proof.
  destruct cn as [u a s ks]. cbn [children]. intros H.
  apply (in_nodes_child u a s ks xn xn H). unfold nodes. now left.
Qed.

Lemma in_ids_of_nodes (n m : node) : In m (nodes n) -> In (uid m) (ids n).
Proof. intros H. unfold ids. now apply in_map. Qed.

Lemma next_sibling_in (x : nat) (ks : list node) (r : nat) :
  next_sibling x ks = Some r -> In r (map uid ks).
Proof.
  induction ks as [|k ks IH]; [discriminate|]. cbn [next_sibling map].
  destruct (Nat.eqb (uid k) x).
  - destruct ks as [|k' ks]; [discriminate|]. cbn. intros E. injection E as <-.
    right. now left.
  - intros E. right. now apply IH.
Qed.

Lemma map_attach_absent c ref x (ks : list node) :
  ~ In c (flat_map ids ks) -> map (attach c ref x) ks = ks.
Proof.
  induction ks as [|k ks IH]; intros H; [reflexivity|].
  rewrite in_flat_ids_cons in H. cbn [map].
  rewrite attach_absent by tauto. f_equal. apply IH. tauto.
Qed.

Lemma insert_before_detach_all (x : nat) (xn : node) (ks : list node) :
  NoDup (flat_map ids ks) -> In xn ks -> uid xn = x ->
  insert_before (next_sibling x ks) xn (detach_all x ks) = ks.
Proof.
  induction ks as [|k ks IH]; intros Hd Hin Ex; [contradiction|].
  cbn [flat_map] in Hd. rewrite detach_all_cons. cbn [next_sibling].
  assert (Hrest : In xn ks -> In x (flat_map ids ks)).
  { intros H. apply in_flat_map. exists xn. split; [exact H|].
    rewrite <- Ex. apply uid_in_ids. }
  destruct (Nat.eqb_spec (uid k) x) as [E|N].
  - assert (Hk : In x (ids k)) by (rewrite <- E; apply uid_in_ids).
    assert (Ek : k = xn).
    { destruct Hin as [H|H]; [exact H|]. exfalso.
      exact (NoDup_app_disjoint _ _ x Hd Hk (Hrest H)). }
    subst k. rewrite detach_all_absent
      by (intros H; exact (NoDup_app_disjoint _ _ x Hd Hk H)).
    destruct ks as [|k' ks']; cbn [hd_error option_map insert_before]; [reflexivity|].
    unfold is_child. now rewrite Nat.eqb_refl.
  - destruct Hin as [H|Hin]; [subst k; contradiction|].
    destruct (NoDup_app_parts _ _ Hd) as [_ Hks].
    rewrite detach_absent
      by (intros H; exact (NoDup_app_disjoint _ _ x Hd H (Hrest Hin))).
    cbn [insert_before].
    assert (Hc : is_child (next_sibling x ks) k = false).
    { unfold is_child. destruct (next_sibling x ks) as [r|] eqn:R; [|reflexivity].
      apply Nat.eqb_neq. intros Er. apply next_sibling_in in R.
      apply in_map_iff in R. destruct R as (k' & Ek' & Hk').
      apply (NoDup_app_disjoint _ _ (uid k) Hd (uid_in_ids k)).
      apply in_flat_map. exists k'. split; [exact Hk'|].
      rewrite Er, <- Ek'. apply uid_in_ids. }
    rewrite Hc. f_equal. now apply IH.
Qed.

(** A child taken out of its parent and inserted again before the child
    that followed it: the tree is what it was. *)
Lemma attach_detach_same (c x : nat) (cn xn : node) (d : node) :
  In xn (children cn) -> uid xn = x ->
  NoDup (ids d) -> get_node c d = Some cn ->
  attach c (next_sibling x (children cn)) xn (detach x d) = d.
Proof.
  intros Hx Ex. induction d as [u a s ks IH] using node_induction. intros Hd Gc.
  rewrite detach_Element. cbn [attach].
  rewrite ids_Element in Hd. apply NoDup_cons_iff in Hd. destruct Hd as [_ Hks].
  destruct (Nat.eqb_spec u c) as [E|N].
  - subst u. pose proof (get_node_self (Element c a s ks)) as S. cbn [uid] in S.
    rewrite S in Gc. injection Gc as <-. cbn [children] in *.
    f_equal. now apply insert_before_detach_all.
  - rewrite get_node_Element_other in Gc by exact N. f_equal.
    revert IH Hks Gc. induction ks as [|k ks IHks]; intros IH Hks Gc; [discriminate|].
    pose proof (Forall_inv IH) as Hk. pose proof (Forall_inv_tail IH) as Hrest.
    cbn [flat_map] in Gc, Hks. rewrite find_app in Gc.
    destruct (NoDup_app_parts _ _ Hks) as [Dk Dks].
    rewrite detach_all_cons.
    destruct (find (fun n => Nat.eqb (uid n) c) (nodes k)) as [n|] eqn:Fk.
    + injection Gc as ->. fold (get_node c k) in Fk.
      destruct (get_node_some _ _ _ Fk) as [Hcn Ec].
      assert (Hxk : In xn (nodes k)).
      { apply (in_nodes_subtree k cn xn Hcn). now apply child_in_nodes. }
      assert (Hxi : In x (ids k)).
      { rewrite <- Ex. now apply in_ids_of_nodes. }
      assert (Hci : In c (ids k)).
      { rewrite <- Ec. now apply in_ids_of_nodes. }
      destruct (Nat.eqb_spec (uid k) x) as [E|Nx].
      * exfalso.
        assert (Ek : k = xn).
        { apply (NoDup_map_injective uid _ Dk k xn); [unfold nodes; now left|exact Hxk|].
          congruence. }
        subst k. pose proof (NoDup_ids_subtree xn cn Dk Hcn) as Dcn.
        destruct cn as [c' a' s' ks']. cbn [children uid] in *.
        rewrite ids_Element in Dcn. apply NoDup_cons_iff in Dcn.
        destruct Dcn as [Dcn _]. apply Dcn. apply in_flat_map.
        exists xn. split; [exact Hx|]. now subst c'.
      * cbn [map]. f_equal; [now apply Hk|].
        rewrite detach_all_absent
          by (intros H; exact (NoDup_app_disjoint _ _ x Hks Hxi H)).
        apply map_attach_absent.
        intros H. exact (NoDup_app_disjoint _ _ c Hks Hci H).
    + assert (Hck : ~ In c (ids k)) by now apply get_node_none.
      assert (Hxr : In x (flat_map ids ks)).
      { apply find_some in Gc. destruct Gc as [Gc _].
        apply in_flat_map in Gc. destruct Gc as (k' & Hk' & Hcn).
        apply in_flat_map. exists k'. split; [exact Hk'|].
        rewrite <- Ex. apply in_ids_of_nodes.
        apply (in_nodes_subtree k' cn xn Hcn). now apply child_in_nodes. }
      assert (Hxk : ~ In x (ids k)).
      { intros H. exact (NoDup_app_disjoint _ _ x Hks H Hxr). }
      destruct (Nat.eqb_spec (uid k) x) as [E|Nx].
      * exfalso. apply Hxk. rewrite <- E. apply uid_in_ids.
      * cbn [map]. rewrite detach_absent, attach_absent by assumption.
        f_equal. now apply IHks.
Qed.

Section Rollback.

(** The situation of [RecordedSession], for the further properties: a
    well-formed document within the model (every column id one the
    selector template holds between its quotes), a session recorded for
    elements of the document, and the column of the drop in the
    document. *)
Variables (evt : SortableEvent) (p : page) (c x : nat) (cn xn tn : node).
Hypothesis document_ok : well_formed (dom p).
Hypothesis document_modelled : modelled (dom p).
Hypothesis origin_recorded : originalColumn p = Some c.
Hypothesis dragged_recorded : draggedElement p = Some x.
Hypothesis origin_attached : get_node c (dom p) = Some cn.
Hypothesis dragged_attached : get_node x (dom p) = Some xn.
Hypothesis origin_outside : ~ In c (ids xn).
Hypothesis origin_no_badge : is_badge cn = false.
Hypothesis drop_attached : get_node (evt_to evt) (dom p) = Some tn.

(** [revertMove] is the move of the dragged element followed by changes
    of text. *)
Lemma revertMove_skeleton :
  exists d',
    revertMove evt p = Returned tt (with_dom d' p)
    /\ well_formed d'
    /\ skeleton d'
       = skeleton (attach c (reference_child x (originalIndex p) cn) xn (detach x (dom p)))
    /\ ((evt_to evt <> c -> column_key tn <> column_key cn) ->
        shows_task_count (evt_to evt) d')
    /\ shows_task_count c d'.
Proof.
  destruct (move_spec c x (reference_child x (originalIndex p) cn) (dom p) cn xn
              document_ok origin_attached dragged_attached origin_outside origin_no_badge)
    as (W1 & P1 & C1).
  set (d1 := attach c (reference_child x (originalIndex p) cn) xn (detach x (dom p))) in *.
  destruct document_ok as [Hd Hl].
  destruct (table_lookup (dom p) d1 (evt_to evt) tn Hd P1 drop_attached)
    as (tn1 & Gt1 & At1).
  destruct (table_lookup (dom p) d1 c cn Hd P1 origin_attached) as (cn1 & Gc1 & Ac1).
  destruct (updateColumnCounts_spec (evt_to evt) c tn1 cn1 (with_dom d1 p) W1
              (modelled_table _ _ P1 document_modelled) Gt1 Gc1)
    as (d' & U & W' & S' & Sht & Shc).
  exists d'. split; [|split; [exact W'|split; [exact S'|split; [|exact Shc]]]].
  - unfold revertMove. rewrite origin_recorded, dragged_recorded.
    unfold bind at 1. unfold resolve. rewrite origin_attached.
    unfold bind. unfold run_dom.
    assert (I := revertMove_insert c x (originalIndex p) (dom p) cn xn
                   origin_attached dragged_attached origin_outside).
    destruct (match originalIndex p with
              | Some i => nth_error (children cn) i
              | None => None
              end) as [r|]; rewrite I; fold d1; exact U.
  - intros K. apply Sht. intros N.
    rewrite (dataset_columnId_attributes _ _ At1).
    rewrite (dataset_columnId_attributes _ _ Ac1). now apply K.
Qed.

Lemma only_dragged_has_its_handle :
  forall n, In n (nodes (dom p)) -> uid n = x -> n = xn.
Proof.
  intros n Hn E. destruct document_ok as [Hd _].
  destruct (get_node_some _ _ _ dragged_attached) as [Hxn Ex].
  apply (NoDup_map_injective uid _ Hd n xn Hn Hxn). congruence.
Qed.

(** X6.  On a well-formed document within the model, with a recorded
    session, [revertMove] moves the dragged element and nothing else: it
    returns, and every element of the document outside the dragged one
    then has the children it had, in their order, less the dragged
    element; the origin column has in addition the dragged element,
    before the reference child. *)
Theorem revertMove_moves_one_element :
  exists d',
    revertMove evt p = Returned tt (with_dom d' p)
    /\ forall t tnode,
        get_node t (dom p) = Some tnode ->
        ~ In t (ids xn) ->
        child_ids t d'
        = Some (children_after_move c x (reference_child x (originalIndex p) cn) t
                                    (map uid (children tnode))).
Proof.
  destruct revertMove_skeleton as (d' & R & _ & S & _).
  exists d'. split; [exact R|]. intros t tnode Gt Ht.
  rewrite (child_ids_skeleton t _ d' S). unfold children_after_move.
  destruct (Nat.eqb_spec t c) as [->|N].
  - destruct (move_spec c x (reference_child x (originalIndex p) cn) (dom p) cn xn
                document_ok origin_attached dragged_attached origin_outside origin_no_badge)
      as (_ & _ & C1).
    rewrite origin_attached in Gt. injection Gt as <-. exact C1.
  - assert (Only : forall n, In n (nodes (dom p)) -> uid n = x -> ~ In t (ids n)).
    { intros n Hn E. now rewrite (only_dragged_has_its_handle n Hn E). }
    pose proof (get_node_detach x t (dom p) tnode Only Gt) as Gd.
    destruct (get_node_attach_other c (reference_child x (originalIndex p) cn) xn t
                (detach x (dom p)) (detach x tnode) Ht N Gd) as (n' & Gn' & Cn').
    unfold child_ids. rewrite Gn'. cbn [option_map]. rewrite Cn'.
    now rewrite child_ids_detach.
Qed.

(** X7.  On a well-formed document within the model, with a recorded
    session, [revertMove] neither makes nor loses an element: it returns
    with the same elements, by handle and attributes, as before; so the
    number of elements matching a selector of the script (the task
    elements, the columns, the badges) is what it was. *)
Theorem revertMove_keeps_elements :
  exists d',
    revertMove evt p = Returned tt (with_dom d' p)
    /\ Permutation (table d') (table (dom p))
    /\ forall sel, elements_matching sel d' = elements_matching sel (dom p).
Proof.
  destruct revertMove_skeleton as (d' & R & _ & S & _).
  destruct (move_spec c x (reference_child x (originalIndex p) cn) (dom p) cn xn
              document_ok origin_attached dragged_attached origin_outside origin_no_badge)
    as (_ & P1 & _).
  assert (P : Permutation (table d') (table (dom p))).
  { now rewrite (same_skeleton_table _ d' S). }
  exists d'. split; [exact R|]. split; [exact P|].
  intros sel. rewrite !elements_matching_table. now apply Permutation_length_filter.
Qed.

(** X8.  On a well-formed document within the model, with a recorded
    session: when the dragged element is not above its recorded place in the
    origin column (it was dropped in another column, or lower down in
    its own), [revertMove] is exact: the origin column, whose other
    children are those of the order [order] it had when the drag began,
    has that order again, with the dragged element at the recorded
    index. *)
Theorem revertMove_restores_order (i : nat) (order : list nat) :
  originalIndex p = Some i ->
  NoDup order ->
  nth_error order i = Some x ->
  without x (map uid (children cn)) = without x order ->
  (forall j, nth_error (map uid (children cn)) j = Some x -> i <= j) ->
  exists d',
    revertMove evt p = Returned tt (with_dom d' p)
    /\ child_ids c d' = Some order
    /\ position x c d' = Some i.
Proof.
  intros Oi Hd Hn Ho Hj.
  destruct (split_at_index x i order Hd Hn) as (a & b & E & La & Ha & Hb).
  assert (Eo : without x (map uid (children cn)) = a ++ b).
  { rewrite Ho, E. now apply without_middle. }
  pose proof (well_formed_child_ids _ _ _ document_ok origin_attached) as Hl.
  destruct (in_dec Nat.eq_dec x (map uid (children cn))) as [Hin|Hnin].
  - destruct (in_split x _ Hin) as (before & after & El).
    rewrite El in Hl. destruct (split_NoDup_middle x before after Hl) as [Hbe Haf].
    rewrite El, without_middle in Eo by assumption.
    assert (Hi : i <= List.length before).
    { apply Hj. rewrite El, nth_error_app2, Nat.sub_diag by lia. reflexivity. }
    destruct (revertMove_exact_in_same_column evt p c x cn xn tn
                document_ok document_modelled origin_recorded dragged_recorded origin_attached
                dragged_attached origin_outside origin_no_badge drop_attached
                i before after Oi El Hi) as (d' & R & C & P).
    exists d'. split; [exact R|]. split; [|exact P].
    rewrite C, Eo, <- La, firstn_skipn_middle. now rewrite E.
  - rewrite without_absent in Eo by exact Hnin.
    assert (Hi : i <= List.length (children cn)).
    { rewrite <- (length_map uid), Eo, length_app. lia. }
    destruct (revertMove_exact_from_other_column evt p c x cn xn tn
                document_ok document_modelled origin_recorded dragged_recorded origin_attached
                dragged_attached origin_outside origin_no_badge drop_attached
                i Oi Hnin Hi) as (d' & R & C & P).
    exists d'. split; [exact R|]. split; [|exact P].
    rewrite C, Eo, <- La, firstn_skipn_middle. now rewrite E.
Qed.

(** X9.  On a well-formed document within the model, with a recorded
    session: when the dragged element is above its recorded place in the
    origin column (it was dropped higher up in its own column),
    [revertMove] is one place short: the dragged element ends one place
    before the recorded index, and the column does not have the order it
    had when the drag began. *)
Theorem revertMove_short_after_upward_drop (i j : nat) (order : list nat) :
  originalIndex p = Some i ->
  NoDup order ->
  nth_error order i = Some x ->
  without x (map uid (children cn)) = without x order ->
  nth_error (map uid (children cn)) j = Some x ->
  j < i ->
  exists d',
    revertMove evt p = Returned tt (with_dom d' p)
    /\ position x c d' = Some (i - 1)
    /\ child_ids c d' <> Some order.
Proof.
  intros Oi Hd Hn Ho Hj Lt.
  destruct (split_at_index x i order Hd Hn) as (a & b & E & La & Ha & Hb).
  assert (Eo : without x (map uid (children cn)) = a ++ b).
  { rewrite Ho, E. now apply without_middle. }
  pose proof (well_formed_child_ids _ _ _ document_ok origin_attached) as Hl.
  destruct (nth_error_split _ _ Hj) as (before & after & El & Lb).
  rewrite El in Hl. destruct (split_NoDup_middle x before after Hl) as [Hbe Haf].
  rewrite El, without_middle in Eo by assumption.
  assert (Hi : List.length before < i <= List.length before + List.length after).
  { rewrite <- length_app, Eo, length_app. lia. }
  destruct (revertMove_short_in_same_column evt p c x cn xn tn
              document_ok document_modelled origin_recorded dragged_recorded origin_attached
              dragged_attached origin_outside origin_no_badge drop_attached
              i before after Oi El Hi) as (d' & R & C & P).
  exists d'. split; [exact R|]. split; [exact P|].
  intros C'. unfold position in P. rewrite C', E, index_of_app in P by exact Ha.
  injection P as P. lia.
Qed.

(** X10.  On a well-formed document within the model, with a recorded
    session, a second rollback changes nothing: when the column of the drop
    and the origin column have different column ids, [revertMove]
    returns, and run again on the page it returned it returns that page
    unchanged, elements and badge texts alike. *)
Theorem revertMove_idempotent :
  (evt_to evt <> c -> column_key tn <> column_key cn) ->
  exists p1,
    revertMove evt p = Returned tt p1
    /\ revertMove evt p1 = Returned tt p1.
Proof.
  intros K.
  destruct revertMove_skeleton as (d' & R & W' & S & Sht & Shc).
  specialize (Sht K).
  destruct (move_spec c x (reference_child x (originalIndex p) cn) (dom p) cn xn
              document_ok origin_attached dragged_attached origin_outside origin_no_badge)
    as (_ & P1 & C1).
  exists (with_dom d' p). split; [exact R|].
  assert (P' : Permutation (table d') (table (dom p))).
  { now rewrite (same_skeleton_table _ d' S). }
  destruct (table_lookup (dom p) d' (evt_to evt) tn (proj1 document_ok) P' drop_attached)
    as (tn' & Gt' & _).
  assert (C' : child_ids c d'
               = Some (insert_id (reference_child x (originalIndex p) cn) x
                                 (without x (map uid (children cn))))).
  { now rewrite (child_ids_skeleton c _ d' S). }
  unfold child_ids in C'. destruct (get_node c d') as [cn'|] eqn:Gc'; [|discriminate].
  cbn [option_map] in C'. injection C' as C'.
  destruct (get_node_some _ _ _ Gc') as [Hcn' Ec'].
  assert (Hx : In x (map uid (children cn'))) by (rewrite C'; apply in_insert_id).
  apply in_map_iff in Hx. destruct Hx as (xn' & Ex' & Hxn').
  assert (Gx' : get_node x d' = Some xn').
  { rewrite <- Ex'. apply get_node_unique; [exact (proj1 W')|].
    apply (in_nodes_subtree d' cn' xn' Hcn'). now apply child_in_nodes. }
  assert (Hc' : ~ In c (ids xn')).
  { pose proof (NoDup_ids_subtree d' cn' (proj1 W') Hcn') as D.
    destruct cn' as [c' a' s' ks']. cbn [children uid] in *. subst c'.
    rewrite ids_Element in D. apply NoDup_cons_iff in D. destruct D as [D _].
    intros H. apply D. apply in_flat_map. now exists xn'. }
  assert (Ref : reference_child x (originalIndex p) cn' = next_sibling x (children cn')).
  { rewrite reference_child_ids, next_sibling_next_id, C', reference_child_ids.
    apply reference_id_after_revert.
    exact (well_formed_child_ids _ _ _ document_ok origin_attached). }
  assert (I := revertMove_insert c x (originalIndex p) d' cn' xn' Gc' Gx' Hc').
  rewrite Ref, (attach_detach_same c x cn' xn' d' Hxn' Ex' (proj1 W') Gc') in I.
  unfold revertMove.
  change (originalColumn (with_dom d' p)) with (originalColumn p).
  change (draggedElement (with_dom d' p)) with (draggedElement p).
  change (originalIndex (with_dom d' p)) with (originalIndex p).
  rewrite origin_recorded, dragged_recorded.
  unfold bind at 1. unfold resolve. cbn [dom with_dom]. rewrite Gc'.
  unfold bind. unfold run_dom.
  assert (U : updateColumnCounts (Some (evt_to evt)) (Some c)
                (with_dom d' (with_dom d' p))
              = Returned tt (with_dom d' p)).
  { rewrite with_dom_with_dom.
    apply (updateColumnCounts_recount (evt_to evt) c tn' cn' (with_dom d' p));
      try assumption.
    exact (modelled_table _ _ P' document_modelled). }
  destruct (match originalIndex p with
            | Some i => nth_error (children cn') i
            | None => None
            end) as [r|]; cbv beta; cbn [dom with_dom]; rewrite I; exact U.
Qed.

End Rollback.

Lemma revertMove_moves_one_element_witness :
  exists d',
    revertMove Shifted.evt Shifted.dropped = Returned tt (with_dom d' Shifted.dropped)
    /\ forall t tnode,
        get_node t (dom Shifted.dropped) = Some tnode ->
        ~ In t (ids (Board.task 21 "T1")) ->
        child_ids t d'
        = Some (children_after_move
                  2 21
                  (reference_child 21 (originalIndex Shifted.dropped)
                                   (Board.column 2 "todo" [Board.task 22 "T2"]))
                  t (map uid (children tnode))).
Proof.
  apply (revertMove_moves_one_element Shifted.evt Shifted.dropped 2 21
           (Board.column 2 "todo" [Board.task 22 "T2"])
           (Board.task 21 "T1")
           (Board.column 3 "doing" [Board.task 21 "T1"; Board.task 31 "T4"])).
  - apply well_formedb_sound. reflexivity.
  - apply modelledb_sound. reflexivity.
  - reflexivity.
  - reflexivity.
  - reflexivity.
  - reflexivity.
  - simpl. intuition discriminate.
  - reflexivity.
  - reflexivity.
Defined.

Lemma revertMove_keeps_elements_witness :
  exists d',
    revertMove Shifted.evt Shifted.dropped = Returned tt (with_dom d' Shifted.dropped)
    /\ Permutation (table d') (table (dom Shifted.dropped))
    /\ forall sel, elements_matching sel d' = elements_matching sel (dom Shifted.dropped).
Proof.
  apply (revertMove_keeps_elements Shifted.evt Shifted.dropped 2 21
           (Board.column 2 "todo" [Board.task 22 "T2"])
           (Board.task 21 "T1")
           (Board.column 3 "doing" [Board.task 21 "T1"; Board.task 31 "T4"])).
  - apply well_formedb_sound. reflexivity.
  - apply modelledb_sound. reflexivity.
  - reflexivity.
  - reflexivity.
  - reflexivity.
  - reflexivity.
  - simpl. intuition discriminate.
  - reflexivity.
  - reflexivity.
Defined.

Lemma revertMove_restores_order_witness :
  exists d',
    revertMove Board.T1_to_doing Dropped.across = Returned tt (with_dom d' Dropped.across)
    /\ child_ids 2 d' = Some [21; 22; 23]
    /\ position 21 2 d' = Some 0.
Proof.
  apply (revertMove_restores_order Board.T1_to_doing Dropped.across 2 21
           (Board.column 2 "todo" [Board.task 22 "T2"; Board.task 23 "T3"])
           (Board.task 21 "T1")
           (Board.column 3 "doing" [Board.task 21 "T1"; Board.task 31 "T4"])).
  - apply well_formedb_sound. reflexivity.
  - apply modelledb_sound. reflexivity.
  - reflexivity.
  - reflexivity.
  - reflexivity.
  - reflexivity.
  - simpl. intuition discriminate.
  - reflexivity.
  - reflexivity.
  - reflexivity.
  - apply nodupb_NoDup. reflexivity.
  - reflexivity.
  - reflexivity.
  - intros j _. lia.
Defined.

Lemma revertMove_short_after_upward_drop_witness :
  exists d',
    revertMove WithinColumn.evt Dropped.upward = Returned tt (with_dom d' Dropped.upward)
    /\ position 23 2 d' = Some (2 - 1)
    /\ child_ids 2 d' <> Some [21; 22; 23].
Proof.
  apply (revertMove_short_after_upward_drop WithinColumn.evt Dropped.upward 2 23
           (Board.column 2 "todo" [Board.task 23 "T3"; Board.task 21 "T1"; Board.task 22 "T2"])
           (Board.task 23 "T3")
           (Board.column 2 "todo" [Board.task 23 "T3"; Board.task 21 "T1"; Board.task 22 "T2"]))
    with (j := 0).
  - apply well_formedb_sound. reflexivity.
  - apply modelledb_sound. reflexivity.
  - reflexivity.
  - reflexivity.
  - reflexivity.
  - reflexivity.
  - simpl. intuition discriminate.
  - reflexivity.
  - reflexivity.
  - reflexivity.
  - apply nodupb_NoDup. reflexivity.
  - reflexivity.
  - reflexivity.
  - reflexivity.
  - lia.
Defined.

Lemma revertMove_idempotent_witness :
  exists p1,
    revertMove Shifted.evt Shifted.dropped = Returned tt p1
    /\ revertMove Shifted.evt p1 = Returned tt p1.
Proof.
  apply (revertMove_idempotent Shifted.evt Shifted.dropped 2 21
           (Board.column 2 "todo" [Board.task 22 "T2"])
           (Board.task 21 "T1")
           (Board.column 3 "doing" [Board.task 21 "T1"; Board.task 31 "T4"])).
  - apply well_formedb_sound. reflexivity.
  - apply modelledb_sound. reflexivity.
  - reflexivity.
  - reflexivity.
  - reflexivity.
  - reflexivity.
  - simpl. intuition discriminate.
  - reflexivity.
  - reflexivity.
  - intros _. discriminate.
Defined.

(** ** The address of the request *)

(** X11.  The address a drop is sent to, on a well-formed document
    within the model: [onEnd] reaches its [await] with one request
    recorded.  When [{taskId}] occurs nowhere in the endpoint, its address
    is the endpoint as it stands, whatever the task; when the endpoint is
    [before{taskId}after] with no [{taskId}] starting earlier, and the
    task id has no [$], its address is [before], the task id, [after], so
    that a later [{taskId}] stays as it is. *)
Theorem move_request_url
        (s : sortable) (evt : SortableEvent) (p : page)
        (itemNode fromNode toNode : node) :
  well_formed (dom p) ->
  modelled (dom p) ->
  get_node (evt_item evt) (dom p) = Some itemNode ->
  get_node (evt_from evt) (dom p) = Some fromNode ->
  get_node (evt_to evt) (dom p) = Some toNode ->
  exists p1 sent,
    onEnd_request s evt p = Returned tt p1
    /\ requests p1 = requests p ++ [sent]
    /\ (absent "{taskId}" (moveEndpoint s) -> url sent = moveEndpoint s)
    /\ (forall before after,
          first_occurrence "{taskId}" (moveEndpoint s) before after ->
          plain (template (dataset_taskId itemNode)) ->
          url sent = (before ++ template (dataset_taskId itemNode) ++ after)%string).
Proof.
  intros W Mo Gi Gf Gt.
  destruct (onEnd_request_spec s evt p itemNode fromNode toNode W Mo Gi Gf Gt)
    as (d' & E & _).
  eexists. eexists. split; [exact E|]. split; [reflexivity|].
  cbn [url move_request]. split.
  - intros A. now apply replace_absent.
  - intros before after F P. now apply replace_first_occurrence.
Qed.

Lemma move_request_url_witness :
  (exists p1,
      onEnd_request Board.shared Board.T1_to_doing Dropped.across = Returned tt p1
      /\ map url (requests p1) = ["/tasks/T1/move/"%string])
  /\ (exists p1,
         onEnd_request (mkSortable 2 "shared" "tok" "/move/") Board.T1_to_doing
                       Dollar.dropped = Returned tt p1
         /\ map url (requests p1) = ["/move/"%string]).
Proof.
  split.
  - destruct (move_request_url Board.shared Board.T1_to_doing Dropped.across
                (Board.task 21 "T1")
                (Board.column 2 "todo" [Board.task 22 "T2"; Board.task 23 "T3"])
                (Board.column 3 "doing" [Board.task 21 "T1"; Board.task 31 "T4"]))
      as (p1 & sent & E & R & _ & F).
    + apply well_formedb_sound. reflexivity.
    + apply modelledb_sound. reflexivity.
    + reflexivity.
    + reflexivity.
    + reflexivity.
    + exists p1. split; [exact E|]. rewrite R. cbn [requests Dropped.across app map].
      rewrite (F "/tasks/"%string "/move/"%string).
      * reflexivity.
      * now apply split_first_first_occurrence.
      * intros c Hc. cbn in Hc. intuition (subst; discriminate).
  - destruct (move_request_url (mkSortable 2 "shared" "tok" "/move/") Board.T1_to_doing
                Dollar.dropped
                (Board.task 21 "$&")
                (Board.column 2 "todo" [Board.task 22 "T2"])
                (Board.column 3 "doing" [Board.task 21 "$&"; Board.task 31 "T4"]))
      as (p1 & sent & E & R & A & _).
    + apply well_formedb_sound. reflexivity.
    + apply modelledb_sound. reflexivity.
    + reflexivity.
    + reflexivity.
    + reflexivity.
    + exists p1. split; [exact E|]. rewrite R. cbn [requests Dollar.dropped app map].
      rewrite A; [reflexivity|]. now apply split_first_absent.
Defined.

(** ** Debouncing *)

Import Debounce.

Section DebouncedClosure.

Context {A : Type}.
Variable wait : nat.

Lemma run_app (tr1 tr2 : list (event A)) (w : window A) :
  run wait (tr1 ++ tr2) w
  = match run wait tr1 w with
    | Some w' => run wait tr2 w'
    | None => None
    end.
Proof.
  revert w. induction tr1 as [|e tr1 IH]; intros w; cbn [app run]; [reflexivity|].
  destruct (step wait e w) as [w'|]; [apply IH | reflexivity].
Qed.

Lemma run_last (tr : list (event A)) (e : event A) (w w' : window A) :
  run wait (tr ++ [e]) w = Some w' ->
  exists w0, run wait tr w = Some w0 /\ step wait e w0 = Some w'.
Proof.
  rewrite run_app. destruct (run wait tr w) as [w0|]; [|discriminate].
  cbn [run]. intros H. exists w0. split; [reflexivity|].
  destruct (step wait e w0) as [w1|]; [exact H | discriminate].
Qed.

Lemma calls_app (tr1 tr2 : list (event A)) : calls (tr1 ++ tr2) = calls tr1 ++ calls tr2.
Proof.
  induction tr1 as [|e tr1 IH]; [reflexivity|].
  destruct e; cbn [app calls]; now rewrite IH.
Qed.

Lemma elapsed_app (tr1 tr2 : list (event A)) :
  elapsed (tr1 ++ tr2) = elapsed tr1 + elapsed tr2.
Proof.
  induction tr1 as [|e tr1 IH]; [reflexivity|].
  destruct e; cbn [app elapsed]; rewrite IH; lia.
Qed.

(** A call clears what was pending and leaves its own timeout. *)
Lemma debounce_timeouts (a : A) (w : window A) :
  tidy w ->
  timeouts (debounce wait a w) = [mkTimeout (next_handle w) (clock w + wait) a]
  /\ t (debounce wait a w) = Some (next_handle w)
  /\ clock (debounce wait a w) = clock w
  /\ applied (debounce wait a w) = applied w.
Proof.
  unfold tidy, debounce, setTimeout, clearTimeout. intros T.
  destruct w as [c n ts tv ap]. cbn [timeouts t clock next_handle applied] in *.
  destruct ts as [|k [|k' ks]]; [| |contradiction].
  - destruct tv; cbn; auto.
  - rewrite T. cbn. rewrite Nat.eqb_refl. cbn. auto.
Qed.

(** Running a timeout leaves none. *)
Lemma Fire_timeouts (h : nat) (w w' : window A) :
  tidy w ->
  step wait (Fire h) w = Some w' ->
  exists k, timeouts w = [k] /\ handle k = h /\ due k <= clock w
            /\ timeouts w' = [] /\ applied w' = applied w ++ [call k]
            /\ clock w' = clock w.
Proof.
  unfold tidy. cbn [step]. destruct w as [c n ts tv ap].
  cbn [timeouts t clock next_handle applied]. intros T.
  destruct ts as [|k [|k' ks]]; [discriminate| |contradiction].
  cbn [find]. destruct (Nat.eqb_spec (handle k) h) as [Eh|N]; [|discriminate].
  destruct (Nat.leb_spec (due k) c) as [L|L]; [|discriminate].
  intros H. injection H as <-. exists k. cbn.
  destruct (Nat.eqb_spec (handle k) h) as [_|N]; [|contradiction]. cbn.
  repeat split; auto.
Qed.

Lemma step_tidy (e : event A) (w w' : window A) :
  tidy w -> step wait e w = Some w' -> tidy w'.
Proof.
  intros T H. destruct e as [a|d|h].
  - injection H as <-. destruct (debounce_timeouts a w T) as (E & Et & _).
    unfold tidy. now rewrite E, Et.
  - injection H as <-. exact T.
  - destruct (Fire_timeouts h w w' T H) as (k & _ & _ & _ & E & _).
    unfold tidy. now rewrite E.
Qed.

Lemma run_tidy (trace : list (event A)) (w w' : window A) :
  tidy w -> run wait trace w = Some w' -> tidy w'.
Proof.
  revert w. induction trace as [|e trace IH]; intros w T H; cbn [run] in H.
  - now injection H as <-.
  - destruct (step wait e w) as [w1|] eqn:S; [|discriminate].
    exact (IH w1 (step_tidy e w w1 T S) H).
Qed.

Lemma run_pending_since (trace : list (event A)) (now h : nat) (w : window A) :
  run wait trace (created now h) = Some w -> pending_since wait trace w.
Proof.
  revert w. induction trace as [|e trace IH] using rev_ind; intros w H.
  - injection H as <-. now left.
  - destruct (run_last trace e _ w H) as (w0 & R & S).
    pose proof (run_tidy trace (created now h) w0 I R) as T. specialize (IH w0 R).
    destruct e as [a|d|h'].
    + injection S as <-. destruct (debounce_timeouts a w0 T) as (E & Et & Ec & _).
      right. exists trace, a, [], (mkTimeout (next_handle w0) (clock w0 + wait) a).
      rewrite E, Et, Ec. cbn. repeat split; auto.
    + injection S as <-. destruct IH as [E|(pre & a & quiet & k & Et & Q & E & Ea & Eh & Ed)].
      * now left.
      * right. exists pre, a, (quiet ++ [Advance d]), k. cbn. split.
        { rewrite Et, <- app_assoc. reflexivity. }
        split.
        { apply Forall_app. split; [exact Q|]. constructor; [now exists d | constructor]. }
        rewrite elapsed_app. cbn. repeat split; auto. lia.
    + destruct (Fire_timeouts h' w0 w T S) as (k & _ & _ & _ & E & _). now left.
Qed.

(** X12.  The debounced function keeps at most one timeout pending:
    however it is called and whenever its timeouts run, after a call of
    [debounce(fn, wait)] there is at most one pending timeout of the
    closure, and its handle is the value of [t]. *)
Theorem debounce_one_timeout (trace : list (event A)) (now h : nat) (w : window A) :
  run wait trace (created now h) = Some w ->
  List.length (timeouts w) <= 1
  /\ forall k, In k (timeouts w) -> t w = Some (handle k).
Proof.
  intros R. pose proof (run_tidy trace (created now h) w I R) as T. unfold tidy in T.
  destruct (timeouts w) as [|k [|k' ks]]; [| |contradiction].
  - split; [cbn; lia | intros k []].
  - split; [cbn; lia|]. intros k' [<-|[]]. exact T.
Qed.


(** X14.  [fn] is applied to nothing but what the debounced function
    was called with, and no more often than that function was called:
    the calls of [fn] made and the one that may be pending are, all
    together, no more than the calls of the debounced function, and each
    has the receiver and the arguments of one of them. *)
Theorem debounce_applies_calls (trace : list (event A)) (now h : nat) (w : window A) :
  run wait trace (created now h) = Some w ->
  List.length (applied w) + List.length (timeouts w) <= List.length (calls trace)
  /\ incl (applied w ++ map call (timeouts w)) (calls trace).
Proof.
  revert w. induction trace as [|e trace IH] using rev_ind; intros w H.
  - injection H as <-. cbn. split; [lia | intros a []].
  - destruct (run_last trace e _ w H) as (w0 & R & S).
    pose proof (run_tidy trace (created now h) w0 I R) as T.
    destruct (IH w0 R) as [L Inc]. rewrite calls_app, length_app.
    destruct e as [a|d|h'].
    + injection S as <-. destruct (debounce_timeouts a w0 T) as (E & _ & _ & Ea).
      rewrite E, Ea. cbn [List.length map call calls]. split; [lia|].
      intros b Hb. apply in_app_or in Hb. apply in_or_app.
      destruct Hb as [Hb|[<-|[]]]; [left | right; now left].
      apply Inc. apply in_or_app. now left.
    + injection S as <-. cbn [applied timeouts calls List.length].
      rewrite app_nil_r. split; [lia | exact Inc].
    + destruct (Fire_timeouts h' w0 w T S) as (k & E & _ & _ & E' & Ea & _).
      rewrite E', Ea, length_app. rewrite E in L, Inc.
      cbn [List.length map calls] in *. rewrite !app_nil_r. split; [lia | exact Inc].
Qed.

End DebouncedClosure.

Lemma debounce_one_timeout_witness :
  List.length (timeouts (mkWindow 280 3 [] (Some 2) ["ab"])) <= 1
  /\ forall k, In k (timeouts (mkWindow 280 3 [] (Some 2) ["ab"])) ->
               t (mkWindow 280 3 [] (Some 2) ["ab"]) = Some (handle k).
Proof.
  apply (debounce_one_timeout 180 typing 0 1). reflexivity.
Defined.


Lemma debounce_applies_calls_witness :
  List.length (applied (mkWindow 280 3 [] (Some 2) ["ab"]))
  + List.length (timeouts (mkWindow 280 3 [] (Some 2) ["ab"]))
  <= List.length (calls typing)
  /\ incl (applied (mkWindow 280 3 [] (Some 2) ["ab"])
           ++ map call (timeouts (mkWindow 280 3 [] (Some 2) ["ab"])))
          (calls typing).
Proof.
  apply (debounce_applies_calls 180 typing 0 1). reflexivity.
Defined.
